(** * NVIDIA driver check tool: a shallow embedding of [nvidia_check.py]

    The development follows the class [NvidiaDriverCheck] method by method.

    Modelling conventions.
    - A Python [str] is a [string]: a sequence of characters with code
      points below 256.  Among those, the regular-expression class [\d]
      and [int()] recognise exactly the characters '0'..'9', and
      [str.strip]/[str.split] treat 0x09-0x0D, 0x1C-0x20, 0x85 and 0xA0 as
      white space.
    - A Python [int] is a [Z]; [bytes] is a [list byte].
    - An exception is a value of type [exn]; code that may raise returns a
      [result].
    - Everything outside the process (terminal, sub-processes, network,
      file-system faults) is an [Env] of oracles that see the log of what
      has happened so far; the process itself threads a [World] (event log
      and the files it wrote) through a state-and-exception monad.
    - [print] does not fail.  The two lines printed with a formatted
      float (file size, progress) are events that keep the integers the
      float is computed from.  The files in the [World] are the ones the
      program writes; what a sub-process does to the disk is not
      followed. *)

From Stdlib Require Import String Ascii Strings.Byte List ZArith NArith Lia Bool.
From stdpp Require Import gmap strings pretty.
From Equations Require Import Equations.
Import ListNotations.
Open Scope string_scope.
Open Scope list_scope.
Open Scope Z_scope.

(** ** Exceptions *)

Inductive exn_class :=
| BaseException | KeyboardInterrupt | SystemExit | Exception
| ValueError | UnicodeDecodeError | AttributeError | EOFError
| OSError | FileNotFoundError | PermissionError | TimeoutError
| URLError | HTTPError | SubprocessError | TimeoutExpired | KeyError.

Definition exn_class_eqb (a b : exn_class) : bool :=
  match a, b with
  | BaseException, BaseException | KeyboardInterrupt, KeyboardInterrupt
  | SystemExit, SystemExit | Exception, Exception
  | ValueError, ValueError | UnicodeDecodeError, UnicodeDecodeError
  | AttributeError, AttributeError | EOFError, EOFError
  | OSError, OSError | FileNotFoundError, FileNotFoundError
  | PermissionError, PermissionError | TimeoutError, TimeoutError
  | URLError, URLError | HTTPError, HTTPError
  | SubprocessError, SubprocessError | TimeoutExpired, TimeoutExpired
  | KeyError, KeyError => true
  | _, _ => false
  end.

(** The classes an exception class derives from, itself included (its
    method resolution order without [object]). *)
Definition bases (c : exn_class) : list exn_class :=
  match c with
  | BaseException => [BaseException]
  | KeyboardInterrupt => [KeyboardInterrupt; BaseException]
  | SystemExit => [SystemExit; BaseException]
  | Exception => [Exception; BaseException]
  | ValueError => [ValueError; Exception; BaseException]
  | UnicodeDecodeError => [UnicodeDecodeError; ValueError; Exception; BaseException]
  | AttributeError => [AttributeError; Exception; BaseException]
  | EOFError => [EOFError; Exception; BaseException]
  | OSError => [OSError; Exception; BaseException]
  | FileNotFoundError => [FileNotFoundError; OSError; Exception; BaseException]
  | PermissionError => [PermissionError; OSError; Exception; BaseException]
  | TimeoutError => [TimeoutError; OSError; Exception; BaseException]
  | URLError => [URLError; OSError; Exception; BaseException]
  | HTTPError => [HTTPError; URLError; OSError; Exception; BaseException]
  | SubprocessError => [SubprocessError; Exception; BaseException]
  | TimeoutExpired => [TimeoutExpired; SubprocessError; Exception; BaseException]
  | KeyError => [KeyError; Exception; BaseException]
  end.

(** An exception object: its class and [str(e)]. *)
Record exn := Exn { exn_cls : exn_class; exn_msg : string }.

(** [isinstance(e, c)], the test an [except c:] clause makes. *)
Definition isinstance (e : exn) (c : exn_class) : bool :=
  existsb (exn_class_eqb c) (bases (exn_cls e)).

(** [except (c1, c2, ...):] *)
Definition caught_by (cs : list exn_class) (e : exn) : bool :=
  existsb (isinstance e) cs.

Inductive result (A : Type) :=
| Ok (a : A)
| Raise (e : exn).
Arguments Ok {A} a.
Arguments Raise {A} e.

Definition result_bind {A B} (r : result A) (k : A -> result B) : result B :=
  match r with
  | Ok a => k a
  | Raise e => Raise e
  end.

(** [map(f, xs)] forced left to right by [tuple(...)]: the first failure
    is the one raised. *)
Fixpoint result_map {A B} (f : A -> result B) (xs : list A) : result (list B) :=
  match xs with
  | [] => Ok []
  | x :: xs' =>
      result_bind (f x) (fun y =>
      result_bind (result_map f xs') (fun ys => Ok (y :: ys)))
  end.

(** ** Strings *)

Definition code (c : ascii) : N := N_of_ascii c.

(** [\d] and [str.isdecimal] on code points below 256. *)
Definition is_decimal (c : ascii) : bool :=
  ((48 <=? code c) && (code c <=? 57))%N.

Definition digit_value (c : ascii) : Z := Z.of_N (code c) - 48.

(** [str.isspace], the white space of [strip()] and [split()]. *)
Definition is_space (c : ascii) : bool :=
  (((9 <=? code c) && (code c <=? 13)) || ((28 <=? code c) && (code c <=? 32))
   || (code c =? 133) || (code c =? 160))%N.

(** One character of [str.lower()]: A-Z and the Latin-1 capitals
    0xC0-0xDE (the multiplication sign 0xD7 is not a letter). *)
Definition lower_char (c : ascii) : ascii :=
  if (((65 <=? code c) && (code c <=? 90))
      || ((192 <=? code c) && (code c <=? 222) && negb (code c =? 215)))%N
  then ascii_of_N (code c + 32)
  else c.

Fixpoint lower (s : string) : string :=
  match s with
  | EmptyString => EmptyString
  | String c s' => String (lower_char c) (lower s')
  end.

Fixpoint lstrip (s : string) : string :=
  match s with
  | EmptyString => EmptyString
  | String c s' => if is_space c then lstrip s' else s
  end.

Fixpoint rstrip (s : string) : string :=
  match s with
  | EmptyString => EmptyString
  | String c s' =>
      match rstrip s' with
      | EmptyString => if is_space c then EmptyString else String c EmptyString
      | r => String c r
      end
  end.

(** [s.strip()] *)
Definition strip (s : string) : string := rstrip (lstrip s).

(** The maximal runs of characters satisfying [p], left to right; [run]
    is the run being read.  This is the scan of [re.findall] for the
    pattern [p+] (leftmost match, greedy, non-overlapping) and of
    [str.split()] for the non-space characters. *)
Fixpoint runs_from (p : ascii -> bool) (run : string) (s : string) : list string :=
  match s with
  | EmptyString =>
      match run with
      | EmptyString => []
      | _ => [run]
      end
  | String c s' =>
      if p c then runs_from p (run +:+ String c EmptyString) s'
      else
        match run with
        | EmptyString => runs_from p EmptyString s'
        | _ => run :: runs_from p EmptyString s'
        end
  end.

Definition runs (p : ascii -> bool) (s : string) : list string :=
  runs_from p EmptyString s.

(** [re.findall(r'\d+', v)] *)
Definition findall_digits (v : string) : list string := runs is_decimal v.

(** [s.split()] *)
Definition split_ws (s : string) : list string :=
  runs (fun c => negb (is_space c)) s.

(** [s.split(sep)] for a non-empty separator: [skip] counts the
    characters of a separator occurrence still to be passed over, [cur] is
    the field being read. *)
Fixpoint split_from (sep : string) (skip : nat) (cur : string) (s : string)
  : list string :=
  match s with
  | EmptyString => [cur]
  | String c s' =>
      match skip with
      | S k => split_from sep k cur s'
      | O =>
          if String.prefix sep s
          then cur :: split_from sep (String.length sep - 1) EmptyString s'
          else split_from sep O (cur +:+ String c EmptyString) s'
      end
  end.

Definition split_sep (sep s : string) : list string :=
  split_from sep O EmptyString s.

(** ["x" * n] *)
Fixpoint str_repeat (s : string) (n : nat) : string :=
  match n with
  | O => EmptyString
  | S k => s +:+ str_repeat s k
  end.

Definition NL : string := String "010"%char EmptyString.

(** ** [int(s)] *)

(** White space [int()] skips around the literal: the C-locale white
    space, and the non-ASCII spaces (which the conversion to ASCII turns
    into blanks). *)
Definition is_int_space (c : ascii) : bool :=
  (((9 <=? code c) && (code c <=? 13)) || (code c =? 32)
   || (code c =? 133) || (code c =? 160))%N.

Fixpoint skip_int_space (s : string) : string :=
  match s with
  | EmptyString => EmptyString
  | String c s' => if is_int_space c then skip_int_space s' else s
  end.

(** The digits of a decimal literal with single underscores allowed
    between digits; [prev_digit] tells whether the previous character was a
    digit.  Returns the digits read and the rest of the input, or [None]
    for a misplaced underscore. *)
Fixpoint scan_digits (prev_digit : bool) (s : string) : option (string * string) :=
  match s with
  | EmptyString => if prev_digit then Some (EmptyString, EmptyString) else None
  | String c s' =>
      if is_decimal c then
        match scan_digits true s' with
        | Some (ds, rest) => Some (String c ds, rest)
        | None => None
        end
      else if (code c =? 95)%N then
        if prev_digit then
          match s' with
          | String d _ => if is_decimal d then scan_digits false s' else None
          | EmptyString => None
          end
        else None
      else if prev_digit then Some (EmptyString, s) else None
  end.

(** An optional sign before the digits: [(negative, rest)]. *)
Definition split_sign (body : string) : bool * string :=
  match body with
  | String c r =>
      if (code c =? 45)%N then (true, r)
      else if (code c =? 43)%N then (false, r)
      else (false, body)
  | EmptyString => (false, body)
  end.

(** Value of a string of decimal digits, most significant first. *)
Fixpoint digits_value (acc : Z) (ds : string) : Z :=
  match ds with
  | EmptyString => acc
  | String c ds' => digits_value (10 * acc + digit_value c) ds'
  end.

(** *** [repr(s)]

    The argument of [int()] appears in its error message as [repr] writes
    it (format [%.200R]: at most 200 characters of it). *)

Definition SQUOTE : ascii := "039"%char.
Definition DQUOTE : ascii := "034"%char.
Definition BACKSLASH : ascii := "092"%char.

Definition hex_digit (n : N) : ascii :=
  match String.get (N.to_nat n) "0123456789abcdef" with
  | Some c => c
  | None => "0"%char
  end.

(** [str.isprintable] on code points below 256: the ASCII characters
    from the blank to the tilde, and the Latin-1 characters from 0xA1 on
    except the soft hyphen 0xAD. *)
Definition is_printable (c : ascii) : bool :=
  (((32 <=? code c) && (code c <=? 126))
   || ((161 <=? code c) && negb (code c =? 173)))%N.

Fixpoint str_existsb (p : ascii -> bool) (s : string) : bool :=
  match s with
  | EmptyString => false
  | String c s' => p c || str_existsb p s'
  end.

(** The quote [repr] puts around the text: the double quote when the text
    holds single quotes and no double quote, the single quote otherwise. *)
Definition repr_quote (s : string) : ascii :=
  if str_existsb (fun c => (code c =? code SQUOTE)%N) s
     && negb (str_existsb (fun c => (code c =? code DQUOTE)%N) s)
  then DQUOTE else SQUOTE.

(** One character inside the quotes: the quote in use and the backslash
    are escaped, tab, line feed and carriage return are written as letters,
    every other character that is not printable as [\xhh]. *)
Definition repr_char (quote c : ascii) : string :=
  if ((code c =? code quote) || (code c =? code BACKSLASH))%N
  then String BACKSLASH (String c EmptyString)
  else if (code c =? 9)%N then String BACKSLASH "t"
  else if (code c =? 10)%N then String BACKSLASH "n"
  else if (code c =? 13)%N then String BACKSLASH "r"
  else if is_printable c then String c EmptyString
  else String BACKSLASH
         (String "x"%char
            (String (hex_digit (code c / 16))
               (String (hex_digit (code c mod 16)) EmptyString))).

Fixpoint repr_body (quote : ascii) (s : string) : string :=
  match s with
  | EmptyString => EmptyString
  | String c s' => repr_char quote c +:+ repr_body quote s'
  end.

Definition py_repr (s : string) : string :=
  let quote := repr_quote s in
  String quote (repr_body quote s +:+ String quote EmptyString).

Definition invalid_literal (s : string) : exn :=
  Exn ValueError
    ("invalid literal for int() with base 10: "
     +:+ String.substring 0 200 (py_repr s)).

Definition too_many_digits (limit digits : nat) : exn :=
  Exn ValueError
    ("Exceeds the limit (" +:+ pretty limit
     +:+ " digits) for integer string conversion: value has "
     +:+ pretty digits
     +:+ " digits; use sys.set_int_max_str_digits() to increase the limit").

Section IntConversion.

(** [sys.get_int_max_str_digits()]: 0 switches the check off, the default
    is 4300, and values between 1 and 639 cannot be set. *)
Variable max_str_digits : nat.

(** The conversion refuses a literal of more than 640 digits when it has
    more digits than the limit; leading zeros count. *)
Definition over_digit_limit (digits : nat) : bool :=
  (640 <? digits)%nat && (0 <? max_str_digits)%nat && (max_str_digits <? digits)%nat.

Definition py_int (s : string) : result Z :=
  let '(negative, unsigned) := split_sign (skip_int_space s) in
  match scan_digits false unsigned with
  | None => Raise (invalid_literal s)
  | Some (ds, rest) =>
      match skip_int_space rest with
      | EmptyString =>
          if over_digit_limit (String.length ds)
          then Raise (too_many_digits max_str_digits (String.length ds))
          else
            let n := digits_value 0 ds in
            Ok (if negative then - n else n)
      | _ => Raise (invalid_literal s)
      end
  end.

(** ** [compare_versions] *)

(** The nested function [version_tuple]. *)
Definition version_tuple (v : string) : result (list Z) :=
  let parts := findall_digits v in
  result_map py_int parts.

End IntConversion.

(** [a > b] on tuples of integers: the first position where the items
    differ decides; when one tuple is a prefix of the other the longer one
    is greater. *)
Fixpoint tuple_gt (a b : list Z) : bool :=
  match a, b with
  | x :: a', y :: b' => if x =? y then tuple_gt a' b' else x >? y
  | _ :: _, [] => true
  | [], _ => false
  end.

(** [a == b] on tuples of integers. *)
Fixpoint tuple_eq (a b : list Z) : bool :=
  match a, b with
  | x :: a', y :: b' => (x =? y) && tuple_eq a' b'
  | [], [] => true
  | _, _ => false
  end.

(** [try: ... except cs: handler] around code without effects. *)
Definition try_pure {A} (body : result A) (cs : list exn_class) (handler : A)
  : result A :=
  match body with
  | Ok a => Ok a
  | Raise e => if caught_by cs e then Ok handler else Raise e
  end.

Definition compare_versions (max_str_digits : nat) (current latest : string)
  : result Z :=
  try_pure
    (result_bind (version_tuple max_str_digits current) (fun current_tuple =>
     result_bind (version_tuple max_str_digits latest) (fun latest_tuple =>
     if tuple_gt latest_tuple current_tuple then Ok 1
     else if tuple_eq latest_tuple current_tuple then Ok 0
     else Ok (-1))))
    [ValueError; AttributeError]
    0.

Definition NEWER : Z := 1.
Definition EQUAL : Z := 0.
Definition OLDER : Z := -1.

(** The limit of a default interpreter. *)
Definition default_max_str_digits : nat := 4300.

(** ** The outside world *)

(** An HTTP response object: the [Content-Length] header if there is
    one, the bytes not read yet, and the exception the connection raises
    once those are exhausted (none: a clean end of stream). *)
Record Response := {
  resp_content_length : option string;
  resp_pending : list byte;
  resp_fault : option exn
}.

(** [subprocess.CompletedProcess] *)
Record CompletedProcess := { returncode : Z; stdout : string }.

(** What the process does to the outside, one event per call. *)
Inductive event :=
| EPrint (text : string)
| EPrintFileSize (file_size : Z)
| EPrintProgress (downloaded file_size : Z)
| EInput (prompt : string)
| ERun (cmd : list string) (timeout : Z)
| EUrlopen (url : string) (timeout : Z)
| EOpen (path : string)
| EWrite (path : string) (chunk : list byte)
| EStat (path : string)
| EChmod (path : string) (mode : Z)
| EMkdtemp (dir : string)
| ERmtree (dir : string).

(** The environment answers each call from the log so far (newest event
    first, the call being answered at its head). *)
Record Env := {
  int_max_str_digits : nat;
  umask : Z;
  decode_utf8 : list byte -> result string;
  on_input : list event -> result string;
  on_run : list event -> result CompletedProcess;
  on_urlopen : list event -> result Response;
  on_open : list event -> result unit;
  on_write : list event -> result unit;
  on_stat : list event -> result unit;
  on_chmod : list event -> result unit;
  on_mkdtemp : list event -> string
}.

Record File := { f_data : list byte; f_mode : Z }.

(** The state of a run: the log (newest first) and the files written. *)
Record World := { log : list event; fs : gmap string File }.

(** ** The state-and-exception monad *)

Definition M (A : Type) : Type := World -> result A * World.

Definition ret {A} (a : A) : M A := fun w => (Ok a, w).

Definition bind {A B} (m : M A) (k : A -> M B) : M B :=
  fun w =>
    match m w with
    | (Ok a, w') => k a w'
    | (Raise e, w') => (Raise e, w')
    end.

Definition raise {A} (e : exn) : M A := fun w => (Raise e, w).

Definition lift {A} (r : result A) : M A := fun w => (r, w).

Declare Scope py_scope.
Delimit Scope py_scope with py.
Notation "x <- m ;; k" := (bind m (fun x => k))
  (at level 100, m at next level, k at level 200, right associativity) : py_scope.
Notation "m ;; k" := (bind m (fun _ => k))
  (at level 100, k at level 200, right associativity) : py_scope.
Open Scope py_scope.

(** [try: body except cs1: h1 except cs2: h2 ...]: the first clause whose
    classes match handles the exception; effects of the body stay. *)
Fixpoint dispatch {A} (handlers : list (list exn_class * (exn -> M A)))
  (e : exn) : M A :=
  match handlers with
  | [] => raise e
  | (cs, h) :: rest => if caught_by cs e then h e else dispatch rest e
  end.

Definition try_except {A} (body : M A)
  (handlers : list (list exn_class * (exn -> M A))) : M A :=
  fun w =>
    match body w with
    | (Ok a, w') => (Ok a, w')
    | (Raise e, w') => dispatch handlers e w'
    end.

(** ** Constants of the class *)

Definition NVIDIA_LINUX_LATEST_URL : string :=
  "https://download.nvidia.com/XFree86/Linux-x86_64/latest.txt".
Definition NVIDIA_LINUX_DOWNLOAD_BASE : string :=
  "https://download.nvidia.com/XFree86/Linux-x86_64".
Definition MANUAL_URL : string := "https://www.nvidia.com/Download/index.aspx".

Definition chunk_size : nat := Z.to_nat 8192.

(** [stat.S_IXUSR | stat.S_IXGRP | stat.S_IXOTH] *)
Definition S_IXUSR : Z := 64.
Definition S_IXGRP : Z := 8.
Definition S_IXOTH : Z := 1.
Definition S_IFREG : Z := 32768.

(** [response.read(amt)] *)
Definition resp_read (r : Response) (amt : nat) : result (list byte * Response) :=
  match resp_pending r with
  | [] =>
      match resp_fault r with
      | Some e => Raise e
      | None => Ok ([], r)
      end
  | _ :: _ =>
      Ok (firstn amt (resp_pending r),
          {| resp_content_length := resp_content_length r;
             resp_pending := skipn amt (resp_pending r);
             resp_fault := resp_fault r |})
  end.

(** [response.read()] *)
Definition resp_read_all (r : Response) : result (list byte) :=
  match resp_fault r with
  | Some e => Raise e
  | None => Ok (resp_pending r)
  end.

(** [os.path.join(a, b)] on POSIX. *)
Definition ends_with_slash (a : string) : bool :=
  match String.rev a with
  | String "/"%char _ => true
  | _ => false
  end.

Definition path_join (a b : string) : string :=
  match b with
  | String "/"%char _ => b
  | _ =>
      match a with
      | EmptyString => b
      | _ => if ends_with_slash a then a +:+ b else a +:+ "/" +:+ b
      end
  end.

(** The prefix shared by the paths below directory [d]. *)
Definition tree_prefix (d : string) : string := path_join d EmptyString.

(** [get_download_url] *)
Definition get_download_url (version : string) : string :=
  NVIDIA_LINUX_DOWNLOAD_BASE +:+ "/" +:+ version
  +:+ "/NVIDIA-Linux-x86_64-" +:+ version +:+ ".run".

(** Truth value of [file_size] once the header has been converted:
    [None] stands for a missing or empty header. *)
Definition truthy (file_size : option Z) : bool :=
  match file_size with
  | Some n => negb (n =? 0)
  | None => false
  end.

Definition emit (e : event) (w : World) : World :=
  {| log := e :: log w; fs := fs w |}.

Section Program.

Variable env : Env.

(** *** Calls to the outside *)

(** [print(text)].  Standard output is taken to accept what is written
    to it: a stream that cannot encode the text or cannot be written to
    makes the call raise, and such runs are not described here. *)
Definition print (text : string) : M unit :=
  fun w => (Ok tt, emit (EPrint text) w).

(** The line [File size: ... MB].  The number printed is
    [file_size / (1024*1024)], a division that Python refuses with
    [OverflowError] when the quotient is too large for a float; the line
    stands here for sizes that can be divided ([float_division_defined],
    below, says which). *)
Definition print_file_size (file_size : Z) : M unit :=
  fun w => (Ok tt, emit (EPrintFileSize file_size) w).

Definition print_progress (downloaded file_size : Z) : M unit :=
  fun w => (Ok tt, emit (EPrintProgress downloaded file_size) w).

Definition input (prompt : string) : M string :=
  fun w => let w' := emit (EInput prompt) w in (on_input env (log w'), w').

Definition subprocess_run (cmd : list string) (timeout : Z) : M CompletedProcess :=
  fun w => let w' := emit (ERun cmd timeout) w in (on_run env (log w'), w').

Definition urlopen (url : string) (timeout : Z) : M Response :=
  fun w => let w' := emit (EUrlopen url timeout) w in (on_urlopen env (log w'), w').

(** [open(path, 'wb')]: creates the file, or empties it and keeps its
    mode. *)
Definition open_wb (path : string) : M unit :=
  fun w =>
    let w' := emit (EOpen path) w in
    match on_open env (log w') with
    | Raise e => (Raise e, w')
    | Ok _ =>
        let mode :=
          match fs w !! path with
          | Some f => f_mode f
          | None => Z.lor S_IFREG (Z.land 438 (Z.lnot (umask env)))
          end in
        (Ok tt, {| log := log w';
                   fs := <[path := {| f_data := []; f_mode := mode |}]> (fs w) |})
    end.

(** [f.write(chunk)] on the file opened at [path]. *)
Definition write (path : string) (chunk : list byte) : M unit :=
  fun w =>
    let w' := emit (EWrite path chunk) w in
    match on_write env (log w') with
    | Raise e => (Raise e, w')
    | Ok _ =>
        (Ok tt, {| log := log w';
                   fs := alter (fun f => {| f_data := f_data f ++ chunk;
                                            f_mode := f_mode f |}) path (fs w) |})
    end.

(** [os.stat(path).st_mode] *)
Definition stat_mode (path : string) : M Z :=
  fun w =>
    let w' := emit (EStat path) w in
    match on_stat env (log w') with
    | Raise e => (Raise e, w')
    | Ok _ =>
        match fs w !! path with
        | Some f => (Ok (f_mode f), w')
        | None =>
            (Raise (Exn FileNotFoundError
                      ("[Errno 2] No such file or directory: '" +:+ path +:+ "'")), w')
        end
    end.

(** [os.chmod(path, mode)] *)
Definition chmod (path : string) (mode : Z) : M unit :=
  fun w =>
    let w' := emit (EChmod path mode) w in
    match on_chmod env (log w') with
    | Raise e => (Raise e, w')
    | Ok _ =>
        match fs w !! path with
        | Some f =>
            (Ok tt, {| log := log w';
                       fs := <[path := {| f_data := f_data f; f_mode := mode |}]> (fs w) |})
        | None =>
            (Raise (Exn FileNotFoundError
                      ("[Errno 2] No such file or directory: '" +:+ path +:+ "'")), w')
        end
    end.

(** Removing the directory [dir] and everything below it. *)
Definition rmtree (dir : string) (w : World) : World :=
  {| log := ERmtree dir :: log w;
     fs := filter (fun kv => String.prefix (tree_prefix dir) kv.1 = false) (fs w) |}.

(** [with tempfile.TemporaryDirectory() as temp_dir: body]: the directory
    and everything below it is removed when the block is left, whether by
    falling through, by [return] or by an exception.  Creating and
    removing the directory are taken to succeed. *)
Definition with_temporary_directory {A} (body : string -> M A) : M A :=
  fun w =>
    let temp_dir := on_mkdtemp env (log w) in
    let '(r, w') := body temp_dir (emit (EMkdtemp temp_dir) w) in
    (r, rmtree temp_dir w').

(** [d[k]] *)
Definition dict_get (d : gmap string string) (k : string) : M string :=
  match d !! k with
  | Some v => ret v
  | None => raise (Exn KeyError ("'" +:+ k +:+ "'"))
  end.

(** *** [check_nvidia_smi] *)

Definition check_nvidia_smi : M bool :=
  try_except
    (result <- subprocess_run ["nvidia-smi"; "--version"] 5 ;;
     ret (returncode result =? 0))
    [([FileNotFoundError; TimeoutExpired], fun _ => ret false)].

(** *** [get_driver_version] *)

Definition get_driver_version : M (option string) :=
  try_except
    (result <- subprocess_run
                 ["nvidia-smi"; "--query-gpu=driver_version"; "--format=csv,noheader"] 5 ;;
     if returncode result =? 0 then ret (Some (strip (stdout result)))
     else ret None)
    [([FileNotFoundError; TimeoutExpired], fun _ => ret None)].

(** *** [get_gpu_info] *)

(** One statement of the [try] block of [get_gpu_info]: the handler is
    [pass] and the function then returns [info], so an exception of a
    caught class ends the function with the dictionary as filled so far. *)
Definition or_return {A} (info : gmap string string) (m : M A)
  (k : A -> M (gmap string string)) : M (gmap string string) :=
  fun w =>
    match m w with
    | (Ok a, w') => k a w'
    | (Raise e, w') =>
        if caught_by [FileNotFoundError; TimeoutExpired] e then (Ok info, w')
        else (Raise e, w')
    end.

Definition get_gpu_info : M (gmap string string) :=
  let info : gmap string string := ∅ in
  or_return info
    (subprocess_run ["nvidia-smi"; "--query-gpu=name"; "--format=csv,noheader"] 5)
    (fun result =>
  let info :=
    if returncode result =? 0 then <["gpu_name" := strip (stdout result)]> info
    else info in
  or_return info
    (subprocess_run ["nvidia-smi"; "--query-gpu=cuda_version"; "--format=csv,noheader"] 5)
    (fun result =>
  let info :=
    if returncode result =? 0 then <["cuda_version" := strip (stdout result)]> info
    else info in
  or_return info
    (subprocess_run
       ["nvidia-smi"; "--query-gpu=memory.total,memory.used,memory.free";
        "--format=csv,noheader"] 5)
    (fun result =>
  let info :=
    if returncode result =? 0 then
      match split_sep ", " (strip (stdout result)) with
      | [total; used; free] =>
          <["memory_free" := free]>
            (<["memory_used" := used]> (<["memory_total" := total]> info))
      | _ => info
      end
    else info in
  ret info))).

(** *** [get_latest_driver_version] *)

Definition get_latest_driver_version : M (option string) :=
  try_except
    (response <- urlopen NVIDIA_LINUX_LATEST_URL 10 ;;
     body <- lift (resp_read_all response) ;;
     text <- lift (decode_utf8 env body) ;;
     let content := strip text in
     let parts := split_ws content in
     match parts with
     | first :: _ => ret (Some first)
     | [] => ret None
     end)
    [([URLError; Exception],
      fun e =>
        print ("⚠️  Could not fetch latest driver version: " +:+ exn_msg e) ;;
        ret None)].

(** *** [download_driver] *)

(** The [while True:] loop of [download_driver]; it ends because every
    turn that does not leave the loop takes bytes off the response. *)
Equations? read_loop (dest_path : string) (file_size : option Z)
  (response : Response) (downloaded : Z) (w : World)
  : result unit * World by wf (length (resp_pending response)) lt :=
read_loop dest_path file_size response downloaded w
  with Logic.inspect (resp_read response chunk_size) := {
  | exist _ (Raise e) _ => (Raise e, w)
  | exist _ (Ok ([], _)) _ => (Ok tt, w)
  | exist _ (Ok (b :: chunk, response')) Hread =>
      match write dest_path (b :: chunk) w with
      | (Raise e, w1) => (Raise e, w1)
      | (Ok _, w1) =>
          let downloaded' := downloaded + Z.of_nat (length (b :: chunk)) in
          match
            (if truthy file_size
             then print_progress downloaded' (default 0 file_size)
             else ret tt) w1
          with
          | (Raise e, w2) => (Raise e, w2)
          | (Ok _, w2) => read_loop dest_path file_size response' downloaded' w2
          end
      end }.
Proof.
  assert (Hpos : (0 < chunk_size)%nat) by (unfold chunk_size; lia).
  revert Hread Hpos. generalize chunk_size as n. intros n Hread Hpos.
  unfold resp_read in Hread.
  destruct (resp_pending response) as [|b0 pending] eqn:Hpending.
  - destruct (resp_fault response); discriminate.
  - assert (Hresp : resp_pending response' = skipn n (b0 :: pending))
      by (injection Hread as _ <-; reflexivity).
    rewrite Hresp, length_skipn. cbn [length]. lia.
Qed.

Definition download_driver (url dest_path : string) : M bool :=
  try_except
    (print "📥 Downloading driver..." ;;
     print ("URL: " +:+ url) ;;
     print "This may take several minutes..." ;;
     response <- urlopen url 300 ;;
     file_size <-
       match resp_content_length response with
       | Some (String c s as header) =>
           n <- lift (py_int (int_max_str_digits env) header) ;;
           print_file_size n ;;
           ret (Some n)
       | _ => ret None
       end ;;
     open_wb dest_path ;;
     read_loop dest_path file_size response 0 ;;
     print "" ;;
     print ("✅ Downloaded to: " +:+ dest_path) ;;
     mode <- stat_mode dest_path ;;
     chmod dest_path (Z.lor (Z.lor (Z.lor mode S_IXUSR) S_IXGRP) S_IXOTH) ;;
     ret true)
    [([URLError; Exception],
      fun e => print ("❌ Download failed: " +:+ exn_msg e) ;; ret false)].

(** *** [install_driver] *)

Definition install_driver (driver_path : string) : M bool :=
  print "" ;;
  print "⚠️  Driver installation requires root privileges" ;;
  print ("The installer will run: sudo " +:+ driver_path) ;;
  print "" ;;
  answer <- input "Proceed with installation? (yes/no): " ;;
  let response := lower (strip answer) in
  if negb (response =? "yes")%string then
    print "Installation cancelled." ;;
    ret false
  else
    try_except
      (print "" ;;
       print "🚀 Starting driver installation..." ;;
       print "Note: This will likely require X server to be stopped." ;;
       print "" ;;
       result <- subprocess_run ["sudo"; driver_path] 600 ;;
       if returncode result =? 0 then
         print "" ;;
         print "✅ Driver installation completed successfully!" ;;
         print "⚠️  You may need to reboot your system for changes to take effect." ;;
         ret true
       else
         print ("❌ Installation failed with exit code: " +:+ pretty (returncode result)) ;;
         ret false)
      [([TimeoutExpired], fun _ => print "❌ Installation timed out" ;; ret false);
       ([Exception],
        fun e => print ("❌ Installation error: " +:+ exn_msg e) ;; ret false)].

(** *** [_download_and_install_driver] *)

Definition _download_and_install_driver (version : string) : M bool :=
  let download_url := get_download_url version in
  with_temporary_directory (fun temp_dir =>
    let driver_filename := "NVIDIA-Linux-x86_64-" +:+ version +:+ ".run" in
    let driver_path := path_join temp_dir driver_filename in
    downloaded <- download_driver download_url driver_path ;;
    if downloaded then install_driver driver_path
    else
      print "❌ Download failed. Please try manually:" ;;
      print ("Visit: " +:+ MANUAL_URL) ;;
      ret false).

(** *** [install_fresh_driver] *)

Definition install_fresh_driver : M bool :=
  print "" ;;
  print "🔍 Fetching latest NVIDIA driver version..." ;;
  latest_version <- get_latest_driver_version ;;
  match latest_version with
  | None | Some EmptyString =>
      print "⚠️  Could not determine latest driver version" ;;
      print ("Please check manually at: " +:+ MANUAL_URL) ;;
      ret false
  | Some latest_version =>
      print ("Latest available version: " +:+ latest_version) ;;
      print "" ;;
      answer <- input "Would you like to download and install it? (yes/no): " ;;
      let response := lower (strip answer) in
      if negb (response =? "yes")%string then
        print "Installation cancelled. To install manually, visit:" ;;
        print MANUAL_URL ;;
        ret false
      else _download_and_install_driver latest_version
  end.

(** *** [check_for_updates] *)

Definition check_for_updates : M unit :=
  current_version <- get_driver_version ;;
  match current_version with
  | None | Some EmptyString =>
      print "⚠️  Cannot check for updates - current driver version unknown"
  | Some current_version =>
      print "" ;;
      print "🔍 Checking for driver updates..." ;;
      latest_version <- get_latest_driver_version ;;
      match latest_version with
      | None | Some EmptyString =>
          print "⚠️  Could not determine latest driver version" ;;
          print ("Please check manually at: " +:+ MANUAL_URL)
      | Some latest_version =>
          print ("Current version: " +:+ current_version) ;;
          print ("Latest version:  " +:+ latest_version) ;;
          print "" ;;
          comparison <- lift (compare_versions (int_max_str_digits env)
                                current_version latest_version) ;;
          if comparison <? 0 then
            print "✅ Your driver is up to date (or newer than latest release)"
          else if comparison =? 0 then
            print "✅ Your driver is up to date"
          else
            print "🆕 A newer driver version is available!" ;;
            print "" ;;
            answer <- input "Would you like to download and install it? (yes/no): " ;;
            let response := lower (strip answer) in
            if (response =? "yes")%string then
              _download_and_install_driver latest_version ;;
              ret tt
            else
              print "Update cancelled. To update manually, visit:" ;;
              print MANUAL_URL
      end
  end.

(** *** [run_check] *)

Definition print_gpu_info (gpu_info : gmap string string) : M unit :=
  if decide (gpu_info = ∅) then ret tt
  else
    print "" ;;
    print "GPU Information:" ;;
    print (str_repeat "-" 60) ;;
    (if decide (is_Some (gpu_info !! "gpu_name")) then
       v <- dict_get gpu_info "gpu_name" ;;
       print ("  GPU Name:       " +:+ v)
     else ret tt) ;;
    (if decide (is_Some (gpu_info !! "cuda_version")) then
       v <- dict_get gpu_info "cuda_version" ;;
       print ("  CUDA Version:   " +:+ v)
     else ret tt) ;;
    (if decide (is_Some (gpu_info !! "memory_total")) then
       total <- dict_get gpu_info "memory_total" ;;
       print ("  Memory Total:   " +:+ total) ;;
       used <- dict_get gpu_info "memory_used" ;;
       print ("  Memory Used:    " +:+ used) ;;
       free <- dict_get gpu_info "memory_free" ;;
       print ("  Memory Free:    " +:+ free)
     else ret tt).

Definition run_check (skip_update_check : bool) : M Z :=
  print (str_repeat "=" 60) ;;
  print "NVIDIA Driver Check" ;;
  print (str_repeat "=" 60) ;;
  print "" ;;
  smi <- check_nvidia_smi ;;
  if negb smi then
    print "❌ NVIDIA driver not found or nvidia-smi not available" ;;
    print (NL +:+ "Would you like to install the latest NVIDIA driver?") ;;
    installed <- install_fresh_driver ;;
    if installed then
      print (NL +:+ "✅ Installation process completed!") ;;
      print "⚠️  Please reboot your system and run this tool again to verify." ;;
      ret 0
    else
      print (NL +:+ "For manual installation, visit:") ;;
      print MANUAL_URL ;;
      ret 1
  else
    print "✅ NVIDIA driver is installed" ;;
    print "" ;;
    driver_version <- get_driver_version ;;
    match driver_version with
    | None | Some EmptyString => ret tt
    | Some driver_version => print ("Driver Version: " +:+ driver_version)
    end ;;
    gpu_info <- get_gpu_info ;;
    print_gpu_info gpu_info ;;
    (if negb skip_update_check then check_for_updates else ret tt) ;;
    print "" ;;
    print (str_repeat "=" 60) ;;
    ret 0.

(** *** [main] *)

(** The exit status of the process: [sys.exit(code)] ends it with
    [code]; an exception that reaches the top level ends it with status 1
    after the traceback, an interrupt with 130. *)
Definition exit_status (r : result Z) : Z :=
  match r with
  | Ok code => code
  | Raise e => if isinstance e KeyboardInterrupt then 130 else 1
  end.

Definition main (skip_update_check : bool) (w : World) : Z * World :=
  let '(r, w') := run_check skip_update_check w in
  (exit_status r, w').

End Program.

(** ** Vocabulary of the specification *)

(** Every character of [s] satisfies [p]. *)
Fixpoint str_forallb (p : ascii -> bool) (s : string) : bool :=
  match s with
  | EmptyString => true
  | String c s' => p c && str_forallb p s'
  end.

(** [s] is empty or begins with a character outside [p]. *)
Definition starts_outside (p : ascii -> bool) (s : string) : Prop :=
  match s with
  | EmptyString => True
  | String c _ => p c = false
  end.

(** [maximal_runs p s rs]: [rs] lists, in order, the maximal non-empty
    blocks of consecutive characters of [s] that satisfy [p]. *)
Inductive maximal_runs (p : ascii -> bool) : string -> list string -> Prop :=
| MR_end : maximal_runs p EmptyString []
| MR_skip c s rs :
    p c = false -> maximal_runs p s rs -> maximal_runs p (String c s) rs
| MR_run r s rs :
    r <> EmptyString -> str_forallb p r = true -> starts_outside p s ->
    maximal_runs p s rs -> maximal_runs p (r +:+ s) (r :: rs).

(** The number a string of decimal digits denotes: each digit weighted by
    its power of ten. *)
Fixpoint decimal_value (r : string) : Z :=
  match r with
  | EmptyString => 0
  | String c r' => digit_value c * 10 ^ Z.of_nat (String.length r') + decimal_value r'
  end.

(** Lexicographic order on sequences of integers: a strict prefix is
    smaller, otherwise the first differing element decides. *)
Inductive lex_lt : list Z -> list Z -> Prop :=
| lex_prefix y ys : lex_lt [] (y :: ys)
| lex_head x y xs ys : x < y -> lex_lt (x :: xs) (y :: ys)
| lex_tail x xs ys : lex_lt xs ys -> lex_lt (x :: xs) (x :: ys).

(** The two strings have the same length and differ only at positions
    where both hold a non-digit. *)
Inductive differ_in_non_digits : string -> string -> Prop :=
| DN_end : differ_in_non_digits EmptyString EmptyString
| DN_same c s t :
    differ_in_non_digits s t -> differ_in_non_digits (String c s) (String c t)
| DN_diff a b s t :
    is_decimal a = false -> is_decimal b = false ->
    differ_in_non_digits s t -> differ_in_non_digits (String a s) (String b t).

(** The conversion limit lets a run of this many digits through. *)
Definition within_digit_limit (max_str_digits : nat) (r : string) : Prop :=
  over_digit_limit max_str_digits (String.length r) = false.

(** [s] contains no decimal digit. *)
Definition no_digit (s : string) : Prop :=
  str_forallb (fun c => negb (is_decimal c)) s = true.

(** The world after the events [es] have happened, oldest first, the files
    untouched. *)
Definition emits (es : list event) (w : World) : World :=
  {| log := rev es ++ log w; fs := fs w |}.

(** The events of [w'] that are not yet in [w], oldest first. *)
Definition events_since (w w' : World) : list event :=
  rev (firstn (length (log w') - length (log w)) (log w')).

(** What [install_driver] prints before it waits for the answer. *)
Definition install_prompt (driver_path : string) : list event :=
  [EPrint "";
   EPrint "⚠️  Driver installation requires root privileges";
   EPrint ("The installer will run: sudo " +:+ driver_path);
   EPrint "";
   EInput "Proceed with installation? (yes/no): "].

(** What it prints between the answer and the privileged call, and the
    call itself. *)
Definition install_launch (driver_path : string) : list event :=
  [EPrint "";
   EPrint "🚀 Starting driver installation...";
   EPrint "Note: This will likely require X server to be stopped.";
   EPrint "";
   ERun ["sudo"; driver_path] 600].

Definition is_run (e : event) : bool :=
  match e with
  | ERun _ _ => true
  | _ => false
  end.

Definition is_input (e : event) : bool :=
  match e with
  | EInput _ => true
  | _ => false
  end.

Definition is_mkdtemp (e : event) : bool :=
  match e with
  | EMkdtemp _ => true
  | _ => false
  end.

(** *** A scripted environment for worked examples *)

(** UTF-8 decoding of bytes below 128, where it is the identity; bodies
    with other bytes are left out of the examples and refused. *)
Definition decode_ascii (b : list byte) : result string :=
  if forallb (fun x => (Byte.to_N x <? 128)%N) b
  then Ok (string_of_list_byte b)
  else Raise (Exn UnicodeDecodeError "'utf-8' codec can't decode byte").

Definition count_inputs (l : list event) : nat :=
  length (filter (fun e => is_input e = true) l).

(** The user types the lines of [answers] one prompt after the other and
    then closes the terminal; [nvidia-smi] answers [smi] to every query;
    the installer ends as [sudo] says; the version index and the installer
    file are served as [index] and [artifact]; bodies are decoded by
    [decode_ascii]; the file system never fails; temporary directories are
    called [/tmp/tmpdir]. *)
Definition scripted_env (answers : list string) (smi sudo : result CompletedProcess)
  (index artifact : result Response) : Env :=
  {| int_max_str_digits := default_max_str_digits;
     umask := 18;
     decode_utf8 := decode_ascii;
     on_input := fun l =>
       match nth_error answers (count_inputs l - 1) with
       | Some a => Ok a
       | None => Raise (Exn EOFError "EOF when reading a line")
       end;
     on_run := fun l =>
       match l with
       | ERun ("sudo" :: _) _ :: _ => sudo
       | _ => smi
       end;
     on_urlopen := fun l =>
       match l with
       | EUrlopen url _ :: _ =>
           if (url =? NVIDIA_LINUX_LATEST_URL)%string then index else artifact
       | _ => index
       end;
     on_open := fun _ => Ok tt;
     on_write := fun _ => Ok tt;
     on_stat := fun _ => Ok tt;
     on_chmod := fun _ => Ok tt;
     on_mkdtemp := fun _ => "/tmp/tmpdir" |}.

Definition completed (code : Z) (out : string) : result CompletedProcess :=
  Ok {| returncode := code; stdout := out |}.

Definition serves (length_header : option string) (body : string) : result Response :=
  Ok {| resp_content_length := length_header;
        resp_pending := list_byte_of_string body;
        resp_fault := None |}.

Definition empty_world : World := {| log := []; fs := ∅ |}.

(** [cs] cuts [body] into consecutive pieces of [n] bytes, the last one
    possibly shorter; no piece is empty. *)
Inductive chunked (n : nat) : list byte -> list (list byte) -> Prop :=
| chunked_nil : chunked n [] []
| chunked_last c : c <> [] -> (length c <= n)%nat -> chunked n c [c]
| chunked_cons c rest cs :
    length c = n -> rest <> [] -> chunked n rest cs ->
    chunked n (c ++ rest) (c :: cs).

(** The events of the loop of [download_driver] over the chunks [cs],
    [downloaded] bytes having been written before. *)
Fixpoint loop_events (dest : string) (file_size : option Z) (downloaded : Z)
  (cs : list (list byte)) : list event :=
  match cs with
  | [] => []
  | c :: cs' =>
      let downloaded' := downloaded + Z.of_nat (length c) in
      EWrite dest c
      :: (if truthy file_size
          then [EPrintProgress downloaded' (default 0 file_size)]
          else [])
      ++ loop_events dest file_size downloaded' cs'
  end.

(** Each chunk is written and then the progress is reported: the bytes
    written so far against the announced total. *)
Fixpoint transfer_events (dest : string) (total downloaded : Z)
  (cs : list (list byte)) : list event :=
  match cs with
  | [] => []
  | c :: cs' =>
      let downloaded' := downloaded + Z.of_nat (length c) in
      EWrite dest c :: EPrintProgress downloaded' total
      :: transfer_events dest total downloaded' cs'
  end.

(** What [download_driver] prints before it opens the connection, and the
    opening. *)
Definition download_start (url : string) : list event :=
  [EPrint "📥 Downloading driver...";
   EPrint ("URL: " +:+ url);
   EPrint "This may take several minutes...";
   EUrlopen url 300].

(** The execute bits of owner, group and others are set in [mode]. *)
Definition executable_by_all (mode : Z) : Prop :=
  Z.testbit mode 6 = true /\ Z.testbit mode 3 = true /\ Z.testbit mode 0 = true.

(** The mode [open(path, 'wb')] leaves the file with. *)
Definition mode_after_open (env : Env) (w : World) (path : string) : Z :=
  match fs w !! path with
  | Some f => f_mode f
  | None => Z.lor S_IFREG (Z.land 438 (Z.lnot (umask env)))
  end.

(** The file-system calls of the environment never fail. *)
Definition fs_never_fails (env : Env) : Prop :=
  (forall l, on_open env l = Ok tt) /\ (forall l, on_write env l = Ok tt)
  /\ (forall l, on_stat env l = Ok tt) /\ (forall l, on_chmod env l = Ok tt).

(** The log of [w'] continues the log of [w]. *)
Definition extends (w w' : World) : Prop :=
  exists es, log w' = rev es ++ log w.

(** A computation that only ever adds to the log. *)
Definition log_monotone {A} (m : M A) : Prop :=
  forall w, extends w (snd (m w)).

(** What the environment hands back for the version index: the response
    is opened, read to the end and decoded. *)
Definition fetched_text (env : Env) (l : list event) : result string :=
  result_bind (on_urlopen env l) (fun response =>
  result_bind (resp_read_all response) (decode_utf8 env)).

(** What [check_for_updates] prints once both versions are known. *)
Definition update_report (current latest : string) : list event :=
  [EPrint ("Current version: " +:+ current);
   EPrint ("Latest version:  " +:+ latest);
   EPrint ""].

(** The offer of an update and the prompt. *)
Definition update_offer : list event :=
  [EPrint "🆕 A newer driver version is available!";
   EPrint "";
   EInput "Would you like to download and install it? (yes/no): "].

(** The banner of [run_check]. *)
Definition banner : list event :=
  [EPrint (str_repeat "=" 60);
   EPrint "NVIDIA Driver Check";
   EPrint (str_repeat "=" 60);
   EPrint ""].

(** What [run_check] prints when no driver is found. *)
Definition no_driver_notice : list event :=
  [EPrint "❌ NVIDIA driver not found or nvidia-smi not available";
   EPrint (NL +:+ "Would you like to install the latest NVIDIA driver?")].

(** Advice printed when the latest version could not be determined. *)
Definition unknown_latest_advice : list event :=
  [EPrint "⚠️  Could not determine latest driver version";
   EPrint ("Please check manually at: " +:+ MANUAL_URL)].


(** A run of 4301 digits, one more than the default conversion limit, and
    a version string that holds it. *)
Definition long_run : string := str_repeat "1" 4301.
Definition long_version : string := "1." +:+ long_run.

(** [hoare m post exc]: from every world, [m] either returns a value
    satisfying [post] or raises an exception satisfying [exc]. *)
Definition hoare {A} (m : M A) (post : A -> Prop) (exc : exn -> Prop) : Prop :=
  forall w,
    match fst (m w) with
    | Ok a => post a
    | Raise e => exc e
    end.


(** The three memory entries of the dictionary of [get_gpu_info] come
    together. *)
Definition memory_entries_together (info : gmap string string) : Prop :=
  is_Some (info !! "memory_total") ->
  is_Some (info !! "memory_used") /\ is_Some (info !! "memory_free").

(** ** Further vocabulary *)

(** [s] is all white space. *)
Definition blank (s : string) : Prop := str_forallb is_space s = true.

(** [sep.join(parts)] *)
Fixpoint join (sep : string) (parts : list string) : string :=
  match parts with
  | [] => EmptyString
  | [p] => p
  | p :: rest => p +:+ sep +:+ join sep rest
  end.

(** The name under which the installer of [version] is stored. *)
Definition driver_filename (version : string) : string :=
  "NVIDIA-Linux-x86_64-" +:+ version +:+ ".run".

(** An answer that the prompts take for a yes: the word in any mix of
    capitals and small letters, with white space around it at most. *)
Definition affirmative (answer : string) : Prop :=
  exists ws1 y e s ws2,
    answer = ws1 +:+ String y (String e (String s ws2))
    /\ blank ws1 /\ blank ws2
    /\ (y = "y"%char \/ y = "Y"%char)
    /\ (e = "e"%char \/ e = "E"%char)
    /\ (s = "s"%char \/ s = "S"%char).

(** The [nvidia-smi] query for one field (or several, comma-separated). *)
Definition gpu_query (fields : string) : list string :=
  ["nvidia-smi"; "--query-gpu=" +:+ fields; "--format=csv,noheader"].

Definition memory_fields : string := "memory.total,memory.used,memory.free".

(** The keys [get_gpu_info] may put in its dictionary. *)
Definition gpu_info_keys : list string :=
  ["gpu_name"; "cuda_version"; "memory_total"; "memory_used"; "memory_free"].

(** The exceptions the [nvidia-smi] wrappers swallow. *)
Definition smi_failure (e : exn) : bool :=
  caught_by [FileNotFoundError; TimeoutExpired] e.

(** The entry a successful query adds. *)
Definition with_field (key : string) (result : CompletedProcess)
  (info : gmap string string) : gmap string string :=
  if returncode result =? 0 then <[key := strip (stdout result)]> info else info.

(** The environment [env] with the sub-process calls answered by
    [answer]. *)
Definition with_on_run (answer : list event -> result CompletedProcess)
  (env : Env) : Env :=
  {| int_max_str_digits := int_max_str_digits env;
     umask := umask env;
     decode_utf8 := decode_utf8 env;
     on_input := on_input env;
     on_run := answer;
     on_urlopen := on_urlopen env;
     on_open := on_open env;
     on_write := on_write env;
     on_stat := on_stat env;
     on_chmod := on_chmod env;
     on_mkdtemp := on_mkdtemp env |}.

(** An environment for examples where nothing is typed and nothing is
    served: [nvidia-smi] answers [smi] to every query. *)
Definition smi_env (smi : result CompletedProcess) : Env :=
  scripted_env [] smi (completed 0 "") (serves None "") (serves None "").

(** [nvidia-smi] answers the first query and then hangs. *)
Definition smi_hangs_after_first (l : list event) : result CompletedProcess :=
  match l with
  | [ERun _ _] => completed 0 "NVIDIA GeForce RTX 3080"
  | _ => Raise (Exn TimeoutExpired "Command timed out after 5 seconds")
  end.

(** The warning of [check_for_updates] when the installed version is not
    known. *)
Definition unknown_current_warning : event :=
  EPrint "⚠️  Cannot check for updates - current driver version unknown".

(** A graphics card for examples: what [nvidia-smi] answers to each
    query, and the dictionary [get_gpu_info] builds from the answers. *)
Definition smi_answers (l : list event) : result CompletedProcess :=
  match l with
  | ERun [_; query; _] _ :: _ =>
      if (query =? "--query-gpu=name")%string
      then completed 0 ("NVIDIA GeForce RTX 3080" +:+ NL)
      else if (query =? "--query-gpu=cuda_version")%string
      then completed 0 ("12.4" +:+ NL)
      else completed 0 ("10240 MiB, 512 MiB, 9728 MiB" +:+ NL)
  | _ => completed 0 "NVIDIA-SMI 550.54.14"
  end.

Definition sample_env : Env := with_on_run smi_answers (smi_env (completed 0 "")).

Definition sample_gpu_info : gmap string string :=
  <["memory_free" := "9728 MiB"]>
    (<["memory_used" := "512 MiB"]>
       (<["memory_total" := "10240 MiB"]>
          (<["cuda_version" := "12.4"]>
             (<["gpu_name" := "NVIDIA GeForce RTX 3080"]> ∅)))).

Definition gpu_queries : list event :=
  [ERun (gpu_query "name") 5; ERun (gpu_query "cuda_version") 5;
   ERun (gpu_query memory_fields) 5].

(** ** Invariants of a run *)

(** A computation whose final world is always related to its initial
    world by [R]. *)
Definition steps {A} (R : World -> World -> Prop) (m : M A) : Prop :=
  forall w, R w (snd (m w)).

(** The log of [w'] continues the log of [w] with events that all
    satisfy [P]. *)
Definition only_events (P : event -> Prop) (w w' : World) : Prop :=
  exists es, log w' = rev es ++ log w /\ Forall P es.

(** The files of [w'] and [w] are the same except at paths in [Q]. *)
Definition keeps_files (Q : string -> Prop) (w w' : World) : Prop :=
  forall p, ~ Q p -> fs w' !! p = fs w !! p.

(** The calls to other programs and to the network the tool may make:
    [nvidia-smi] with a timeout of 5 seconds, [sudo] on one path with a
    timeout of 600 seconds, the version index with a timeout of 10
    seconds, the installer of some version with a timeout of 300
    seconds. *)
Definition allowed_call (e : event) : Prop :=
  match e with
  | ERun cmd timeout =>
      (exists args, cmd = "nvidia-smi" :: args /\ timeout = 5)
      \/ (exists path, cmd = ["sudo"; path] /\ timeout = 600)
  | EUrlopen url timeout =>
      (url = NVIDIA_LINUX_LATEST_URL /\ timeout = 10)
      \/ (exists version, url = get_download_url version /\ timeout = 300)
  | _ => True
  end.

(** Printing and querying [nvidia-smi], nothing else. *)
Definition report_only (e : event) : Prop :=
  match e with
  | EPrint _ => True
  | ERun cmd timeout => (exists args, cmd = "nvidia-smi" :: args) /\ timeout = 5
  | _ => False
  end.

(** What the download-then-install sequence for [version] may do with
    the temporary directory [d]: print and prompt, fetch the installer of
    that version, write the one file in [d] and make it executable, run
    that file with [sudo], and create and remove [d]. *)
Definition sequence_event (version d : string) (e : event) : Prop :=
  let driver_path := path_join d (driver_filename version) in
  match e with
  | EPrint _ | EPrintFileSize _ | EPrintProgress _ _ | EInput _ => True
  | ERun cmd timeout => cmd = ["sudo"; driver_path] /\ timeout = 600
  | EUrlopen url timeout => url = get_download_url version /\ timeout = 300
  | EOpen p | EWrite p _ | EStat p | EChmod p _ => p = driver_path
  | EMkdtemp d' | ERmtree d' => d' = d
  end.

(** The path a file operation works on. *)
Definition file_path (e : event) : option string :=
  match e with
  | EOpen p | EWrite p _ | EStat p | EChmod p _ => Some p
  | _ => None
  end.

(** [files_in_temporaries dirs es]: in the events [es], oldest first,
    every file operation is on a path below a temporary directory that
    exists at that moment, and only such directories are removed; [dirs]
    lists the temporary directories that exist before [es]. *)
Fixpoint files_in_temporaries (dirs : list string) (es : list event) : Prop :=
  match es with
  | [] => True
  | EMkdtemp d :: es' => files_in_temporaries (d :: dirs) es'
  | ERmtree d :: es' =>
      In d dirs /\ files_in_temporaries (remove string_dec d dirs) es'
  | e :: es' =>
      match file_path e with
      | Some p => exists d, In d dirs /\ String.prefix (tree_prefix d) p = true
      | None => True
      end
      /\ files_in_temporaries dirs es'
  end.

(** From [w] to [w'] the files touched were in temporary directories
    created on the way. *)
Definition owns_files (w w' : World) : Prop :=
  exists es, log w' = rev es ++ log w /\ files_in_temporaries [] es.

(** An event that is neither a file operation nor the creation or
    removal of a directory. *)
Definition plain_event (e : event) : Prop :=
  match e with
  | EPrint _ | EPrintFileSize _ | EPrintProgress _ _ | EInput _
  | ERun _ _ | EUrlopen _ _ => True
  | _ => False
  end.

(** What the sequence for [version] does between the creation and the
    removal of its directory [d]. *)
Definition inside_event (version d : string) (e : event) : Prop :=
  match e with
  | EMkdtemp _ | ERmtree _ => False
  | _ => sequence_event version d e
  end.


(** What [install_fresh_driver] prints before it looks the version up. *)
Definition fresh_notice : list event :=
  [EPrint ""; EPrint "🔍 Fetching latest NVIDIA driver version..."].

(** The offer of [install_fresh_driver] and its prompt. *)
Definition fresh_offer (latest : string) : list event :=
  [EPrint ("Latest available version: " +:+ latest);
   EPrint "";
   EInput "Would you like to download and install it? (yes/no): "].

(** What it prints when the offer is declined. *)
Definition fresh_cancelled : list event :=
  [EPrint "Installation cancelled. To install manually, visit:";
   EPrint MANUAL_URL].

(** Where the download-then-install sequence started from [w] stores the
    installer of [version]. *)
Definition sequence_path (env : Env) (version : string) (w : World) : string :=
  path_join (on_mkdtemp env (log w)) (driver_filename version).

(** The size the response announces, as [download_driver] reads it: the
    header converted by [int()], or nothing when the header is missing or
    empty. *)
Definition announced_size (env : Env) (response : Response) : result (option Z) :=
  match resp_content_length response with
  | Some (String c s as header) =>
      result_bind (py_int (int_max_str_digits env) header) (fun n => Ok (Some n))
  | _ => Ok None
  end.

(** The world once the size has been read: the size is printed when
    there is one. *)
Definition after_header (file_size : option Z) (w : World) : World :=
  match file_size with
  | Some n => emits [EPrintFileSize n] w
  | None => w
  end.

(** The failure message of [download_driver]. *)
Definition download_failed (e : exn) : event :=
  EPrint ("❌ Download failed: " +:+ exn_msg e).


(** ** Strings: runs *)

Lemma append_cons c (a b : string) : String c a +:+ b = String c (a +:+ b).
Proof. reflexivity. Qed.

Lemma append_nil_l (s : string) : EmptyString +:+ s = s.
Proof. reflexivity. Qed.

Lemma append_nil_r (s : string) : s +:+ EmptyString = s.
Proof. induction s as [|c s IH]; [reflexivity | rewrite append_cons; congruence]. Qed.

Lemma append_assoc (a b c : string) : (a +:+ b) +:+ c = a +:+ (b +:+ c).
Proof. induction a as [|x a IH]; [reflexivity | rewrite !append_cons; congruence]. Qed.

Lemma str_forallb_app p a b :
  str_forallb p (a +:+ b) = str_forallb p a && str_forallb p b.
Proof.
  induction a as [|c a IH]; [reflexivity|].
  rewrite append_cons. cbn. rewrite IH. apply andb_assoc.
Qed.

Lemma append_snoc_cons (run : string) c s :
  (run +:+ String c EmptyString) +:+ s = run +:+ String c s.
Proof. rewrite append_assoc. reflexivity. Qed.

Lemma append_eq_nil (a b : string) : a +:+ b = EmptyString -> a = EmptyString /\ b = EmptyString.
Proof. destruct a; rewrite ?append_cons; [auto | discriminate]. Qed.

(** Reading a block of [p]-characters extends the current run; the block
    ends where the input ends or a character outside [p] shows up. *)
Lemma runs_from_block p r : forall run s,
  str_forallb p r = true -> starts_outside p s ->
  run +:+ r <> EmptyString ->
  runs_from p run (r +:+ s) = (run +:+ r) :: runs_from p EmptyString s.
Proof.
  induction r as [|c r IH]; intros run s Hr Hs Hne.
  - rewrite append_nil_l. rewrite append_nil_r in *.
    destruct s as [|d s]; cbn in *.
    + destruct run; [congruence | reflexivity].
    + rewrite Hs. destruct run; [congruence | reflexivity].
  - cbn in Hr. apply andb_prop in Hr as [Hc Hr].
    rewrite append_cons. cbn [runs_from]. rewrite Hc.
    rewrite IH; [| assumption | assumption |].
    + now rewrite append_snoc_cons.
    + rewrite append_snoc_cons. destruct run; rewrite ?append_cons; discriminate.
Qed.

Lemma maximal_runs_unique p s rs : maximal_runs p s rs -> runs p s = rs.
Proof.
  unfold runs. induction 1 as [|c s rs Hc _ IH|r s rs Hne Hr Hs _ IH].
  - reflexivity.
  - cbn. now rewrite Hc.
  - rewrite runs_from_block by (rewrite ?append_nil_l; assumption).
    rewrite append_nil_l. now rewrite IH.
Qed.

Lemma maximal_runs_exist p s : exists rs, maximal_runs p s rs.
Proof.
  induction s as [|c s [rs IH]].
  - exists []. constructor.
  - destruct (p c) eqn:Hc.
    + assert (Hone : str_forallb p (String c EmptyString) = true)
        by (cbn; now rewrite Hc).
      inversion IH as [Hs|d s' rs' Hd Hs' Heq|r s' rs' Hne Hr Hs' Hrest Heq]; subst.
      * exists [String c EmptyString].
        apply (MR_run p (String c EmptyString) EmptyString []);
          [discriminate | assumption | exact I | constructor].
      * exists (String c EmptyString :: rs).
        apply (MR_run p (String c EmptyString) (String d s') rs);
          [discriminate | assumption | exact Hd | assumption].
      * exists (String c r :: rs').
        apply (MR_run p (String c r) s' rs');
          [discriminate | cbn; now rewrite Hc | assumption | assumption].
    + exists rs. now constructor.
Qed.

Lemma runs_maximal p s : maximal_runs p s (runs p s).
Proof.
  destruct (maximal_runs_exist p s) as [rs H].
  now rewrite (maximal_runs_unique p s rs H).
Qed.

Lemma maximal_runs_shape p s rs :
  maximal_runs p s rs ->
  Forall (fun r => r <> EmptyString /\ str_forallb p r = true) rs.
Proof. induction 1; auto. Qed.

Lemma runs_shape p s :
  Forall (fun r => r <> EmptyString /\ str_forallb p r = true) (runs p s).
Proof. apply (maximal_runs_shape p s), runs_maximal. Qed.

Lemma runs_none p s : str_forallb (fun c => negb (p c)) s = true -> runs p s = [].
Proof.
  unfold runs. induction s as [|c s IH]; cbn; [reflexivity|].
  intros H. apply andb_prop in H as [Hc Hs].
  apply negb_true_iff in Hc. rewrite Hc. auto.
Qed.

Lemma maximal_runs_nil p s :
  maximal_runs p s [] -> str_forallb (fun c => negb (p c)) s = true.
Proof.
  intros H. remember [] as rs eqn:Hrs.
  induction H as [|c s rs Hc _ IH|]; [reflexivity | | discriminate].
  cbn. rewrite Hc. cbn. auto.
Qed.

Lemma runs_some p s : str_forallb (fun c => negb (p c)) s = false -> runs p s <> [].
Proof.
  intros H Hnil. pose proof (runs_maximal p s) as Hm. rewrite Hnil in Hm.
  apply maximal_runs_nil in Hm. congruence.
Qed.

(** ** [int()] on a run of digits *)

Lemma decimal_char c :
  is_decimal c = true ->
  is_int_space c = false /\ (code c =? 45)%N = false /\ (code c =? 43)%N = false
  /\ (code c =? 95)%N = false /\ 0 <= digit_value c <= 9.
Proof.
  destruct c as [[] [] [] [] [] [] [] []]; vm_compute; intuition congruence.
Qed.

Lemma scan_digits_run r :
  str_forallb is_decimal r = true ->
  scan_digits true r = Some (r, EmptyString).
Proof.
  induction r as [|c r IH]; cbn; [reflexivity|].
  intros H. apply andb_prop in H as [Hc Hr]. rewrite Hc, IH; auto.
Qed.

Lemma digits_value_decimal r : forall acc,
  digits_value acc r = acc * 10 ^ Z.of_nat (String.length r) + decimal_value r.
Proof.
  induction r as [|c r IH]; intros acc; cbn [digits_value decimal_value String.length].
  - cbn. lia.
  - rewrite IH, Nat2Z.inj_succ, Z.pow_succ_r by lia. ring.
Qed.

Lemma py_int_run lim r :
  r <> EmptyString -> str_forallb is_decimal r = true ->
  py_int lim r =
    if over_digit_limit lim (String.length r)
    then Raise (too_many_digits lim (String.length r))
    else Ok (decimal_value r).
Proof.
  intros Hne Hr. destruct r as [|c r]; [congruence|].
  cbn in Hr. apply andb_prop in Hr as [Hc Hr].
  destruct (decimal_char c Hc) as (Hsp & Hminus & Hplus & _).
  unfold py_int. cbn [skip_int_space]. rewrite Hsp.
  unfold split_sign. rewrite Hminus, Hplus.
  cbn [scan_digits]. rewrite Hc, (scan_digits_run r Hr).
  cbn [skip_int_space].
  destruct (over_digit_limit lim (String.length (String c r))); [reflexivity|].
  rewrite digits_value_decimal. cbn [decimal_value]. f_equal; lia.
Qed.

(** ** [version_tuple] *)

Lemma result_map_ok {A B} (f : A -> result B) (g : A -> B) xs :
  Forall (fun x => f x = Ok (g x)) xs -> result_map f xs = Ok (map g xs).
Proof.
  induction 1 as [|x xs Hx _ IH]; cbn; [reflexivity|].
  now rewrite Hx, IH.
Qed.

Lemma result_map_raise {A B} (f : A -> result B) (P : exn -> Prop) xs :
  Forall (fun x => (exists y, f x = Ok y) \/ (exists e, f x = Raise e /\ P e)) xs ->
  (exists ys, result_map f xs = Ok ys) \/ (exists e, result_map f xs = Raise e /\ P e).
Proof.
  induction 1 as [|x xs Hx _ IH]; cbn; [left; eauto|].
  destruct Hx as [[y Hy]|[e [He HP]]]; rewrite ?Hy, ?He; cbn; [|right; eauto].
  destruct IH as [[ys Hys]|[e [He HP]]]; rewrite ?Hys, ?He; cbn; eauto.
Qed.

Lemma version_tuple_ok lim v :
  Forall (within_digit_limit lim) (findall_digits v) ->
  version_tuple lim v = Ok (map decimal_value (findall_digits v)).
Proof.
  intros H. unfold version_tuple. apply result_map_ok.
  pose proof (runs_shape is_decimal v) as Hs. fold (findall_digits v) in Hs.
  rewrite Forall_forall in *. intros r Hin.
  destruct (Hs r Hin) as [Hne Hr]. rewrite py_int_run by assumption.
  now rewrite (H r Hin).
Qed.

(** The only exception [version_tuple] can raise is the [ValueError] of the
    digit limit. *)
Lemma version_tuple_cases lim v :
  (exists t, version_tuple lim v = Ok t)
  \/ (exists e, version_tuple lim v = Raise e /\ exn_cls e = ValueError).
Proof.
  unfold version_tuple. apply result_map_raise.
  pose proof (runs_shape is_decimal v) as Hs. fold (findall_digits v) in Hs.
  rewrite Forall_forall in *. intros r Hin.
  destruct (Hs r Hin) as [Hne Hr]. rewrite py_int_run by assumption.
  destruct (over_digit_limit lim (String.length r)); eauto.
Qed.

Lemma over_digit_limit_off n : over_digit_limit 0 n = false.
Proof. unfold over_digit_limit. cbn. now rewrite andb_false_r. Qed.

(** ** Tuple comparison *)

Lemma tuple_gt_lex a : forall b, tuple_gt a b = true <-> lex_lt b a.
Proof.
  induction a as [|x a IH]; intros [|y b]; cbn.
  - split; [discriminate | inversion 1].
  - split; [discriminate | inversion 1].
  - split; [constructor | reflexivity].
  - destruct (Z.eqb_spec x y) as [->|Hne].
    + rewrite IH. split; [now constructor|].
      inversion 1; subst; [lia | assumption].
    + split.
      * intros H. apply lex_head. apply Z.gtb_lt in H. lia.
      * inversion 1; subst; [apply Z.gtb_lt; lia | congruence].
Qed.

Lemma tuple_eq_eq a : forall b, tuple_eq a b = true <-> a = b.
Proof.
  induction a as [|x a IH]; intros [|y b]; cbn; try (split; congruence).
  rewrite andb_true_iff, Z.eqb_eq, IH. split; [intros [-> ->]; reflexivity|].
  injection 1; auto.
Qed.

Lemma lex_lt_irrefl a : ~ lex_lt a a.
Proof. induction a; inversion 1; subst; [lia | auto]. Qed.

Lemma lex_lt_asym a b : lex_lt a b -> ~ lex_lt b a.
Proof.
  induction 1; inversion 1; subst; try lia. auto.
Qed.

Lemma lex_lt_total a : forall b, lex_lt a b \/ a = b \/ lex_lt b a.
Proof.
  induction a as [|x a IH]; intros [|y b].
  - auto.
  - left. constructor.
  - right. right. constructor.
  - destruct (Z.lt_total x y) as [H|[->|H]].
    + left. now constructor.
    + destruct (IH b) as [H|[->|H]]; [left | auto | right; right]; now constructor.
    + right. right. now constructor.
Qed.

(** ** [compare_versions] *)

Lemma compare_versions_ok lim current latest tc tl :
  version_tuple lim current = Ok tc -> version_tuple lim latest = Ok tl ->
  compare_versions lim current latest =
    Ok (if tuple_gt tl tc then NEWER else if tuple_eq tl tc then EQUAL else OLDER).
Proof.
  intros Hc Hl. unfold compare_versions. rewrite Hc, Hl. cbn.
  destruct (tuple_gt tl tc); [reflexivity|]. destruct (tuple_eq tl tc); reflexivity.
Qed.

Lemma compare_versions_raise lim current latest :
  (exists e, version_tuple lim current = Raise e)
  \/ (exists e, version_tuple lim latest = Raise e) ->
  compare_versions lim current latest = Ok EQUAL.
Proof.
  intros H. unfold compare_versions.
  destruct (version_tuple_cases lim current) as [[tc Hc]|[e [Hc He]]];
    destruct (version_tuple_cases lim latest) as [[tl Hl]|[e' [Hl He']]];
    rewrite ?Hc, ?Hl; cbn.
  - destruct H as [[e H]|[e H]]; congruence.
  - unfold caught_by, isinstance. rewrite He'. reflexivity.
  - unfold caught_by, isinstance. rewrite He. reflexivity.
  - unfold caught_by, isinstance. rewrite He. reflexivity.
Qed.

Lemma compare_versions_total lim current latest :
  exists c, compare_versions lim current latest = Ok c
            /\ (c = NEWER \/ c = EQUAL \/ c = OLDER).
Proof.
  destruct (version_tuple_cases lim current) as [[tc Hc]|[e [Hc He]]].
  - destruct (version_tuple_cases lim latest) as [[tl Hl]|[e' [Hl He']]].
    + rewrite (compare_versions_ok _ _ _ _ _ Hc Hl).
      destruct (tuple_gt tl tc); [eauto|]. destruct (tuple_eq tl tc); eauto 6.
    + rewrite compare_versions_raise by eauto. eauto.
  - rewrite compare_versions_raise by eauto. eauto.
Qed.

Lemma differ_in_non_digits_runs s t :
  differ_in_non_digits s t -> findall_digits s = findall_digits t.
Proof.
  unfold findall_digits, runs. generalize EmptyString as run.
  intros run H. revert run.
  induction H as [|c s t _ IH|a b s t Ha Hb _ IH]; intros run; cbn.
  - reflexivity.
  - destruct (is_decimal c); [apply IH|]. destruct run; now rewrite IH.
  - rewrite Ha, Hb. destruct run; now rewrite IH.
Qed.

Lemma compare_versions_same_runs lim current latest :
  findall_digits current = findall_digits latest ->
  compare_versions lim current latest = Ok EQUAL.
Proof.
  intros H.
  assert (Hv : version_tuple lim current = version_tuple lim latest)
    by (unfold version_tuple; now rewrite H).
  destruct (version_tuple_cases lim latest) as [[tl Hl]|[e [Hl He]]].
  - rewrite (compare_versions_ok lim current latest tl tl) by congruence.
    assert (Hgt : tuple_gt tl tl = false).
    { destruct (tuple_gt tl tl) eqn:E; [|reflexivity].
      apply tuple_gt_lex in E. now apply lex_lt_irrefl in E. }
    rewrite Hgt. now rewrite (proj2 (tuple_eq_eq tl tl) eq_refl).
  - apply compare_versions_raise. eauto.
Qed.

(** ** A version string with an over-long digit run *)

Lemma long_run_shape :
  long_run <> EmptyString /\ str_forallb is_decimal long_run = true
  /\ String.length long_run = 4301%nat.
Proof.
  split; [discriminate | split; vm_compute; reflexivity].
Qed.

Lemma long_version_runs : findall_digits long_version = ["1"; long_run].
Proof. vm_compute. reflexivity. Qed.

(** A short run followed by a run over the limit: the conversion of the
    second one raises. *)
Lemma version_tuple_second_run_over lim v a b :
  findall_digits v = [a; b] ->
  within_digit_limit lim a ->
  over_digit_limit lim (String.length b) = true ->
  version_tuple lim v = Raise (too_many_digits lim (String.length b)).
Proof.
  intros Hruns Ha Hb. unfold version_tuple.
  pose proof (runs_shape is_decimal v) as Hs. fold (findall_digits v) in Hs.
  rewrite Hruns in Hs |- *.
  inversion Hs as [|x xs [Hane Had] Hs']; subst.
  inversion Hs' as [|y ys [Hbne Hbd] _]; subst.
  cbn [result_map].
  rewrite (py_int_run lim a Hane Had), Ha. cbn [result_bind].
  now rewrite (py_int_run lim b Hbne Hbd), Hb.
Qed.

Lemma long_version_tuple :
  version_tuple default_max_str_digits long_version
  = Raise (too_many_digits 4300 4301).
Proof.
  destruct long_run_shape as (_ & _ & Hlen).
  assert (Hover : over_digit_limit default_max_str_digits (String.length long_run) = true)
    by (rewrite Hlen; reflexivity).
  rewrite (version_tuple_second_run_over default_max_str_digits long_version
             "1" long_run long_version_runs eq_refl Hover).
  now rewrite Hlen.
Qed.

Lemma long_version_compares_equal :
  compare_versions default_max_str_digits long_version "2" = Ok EQUAL.
Proof.
  apply compare_versions_raise. left. rewrite long_version_tuple. eauto.
Qed.

(** ** Claims on [compare_versions] *)

Lemma tuple_gt_false tc tl : ~ lex_lt tc tl -> tuple_gt tl tc = false.
Proof.
  intros H. destruct (tuple_gt tl tc) eqn:E; [|reflexivity].
  now apply tuple_gt_lex in E.
Qed.

Lemma tuple_eq_false tc tl : tl <> tc -> tuple_eq tl tc = false.
Proof.
  intros H. destruct (tuple_eq tl tc) eqn:E; [|reflexivity].
  now apply tuple_eq_eq in E.
Qed.

(** The three-way answer computed from the two tuple tests is the answer
    of the lexicographic order. *)
Lemma compare_code_spec tc tl :
  let c := if tuple_gt tl tc then NEWER else if tuple_eq tl tc then EQUAL else OLDER in
  (c = NEWER <-> lex_lt tc tl) /\ (c = EQUAL <-> tc = tl) /\ (c = OLDER <-> lex_lt tl tc).
Proof.
  destruct (lex_lt_total tc tl) as [H|[H|H]].
  - rewrite (proj2 (tuple_gt_lex tl tc) H). cbv zeta.
    repeat split; try discriminate; try tauto.
    + intros ->. now apply lex_lt_irrefl in H.
    + intros H'. now apply lex_lt_asym in H.
  - subst tl. rewrite (tuple_gt_false tc tc (lex_lt_irrefl tc)).
    rewrite (proj2 (tuple_eq_eq tc tc) eq_refl). cbv zeta.
    repeat split; try discriminate; try tauto;
      intros H; now apply lex_lt_irrefl in H.
  - rewrite (tuple_gt_false tc tl (lex_lt_asym tl tc H)).
    rewrite (tuple_eq_false tc tl); [|intros ->; now apply lex_lt_irrefl in H].
    cbv zeta. repeat split; try discriminate; try tauto.
    + intros H'. now apply lex_lt_asym in H.
    + intros ->. now apply lex_lt_irrefl in H.
Qed.

(** Claim C1, as amended.  For every pair of version strings none of whose
    digit runs exceeds the integer conversion limit, [compare_versions]
    returns NEWER, EQUAL or OLDER exactly according to the lexicographic
    comparison of the tuples of integers denoted by the maximal digit runs
    of [current] and [latest], taken in order.  Two strings that differ only
    at positions holding non-digits compare EQUAL, whatever the limit, and
    the three examples of the specification hold. *)
Theorem compare_versions_lexicographic
  (lim : nat) (current latest : string) (rc rl : list string) :
  maximal_runs is_decimal current rc ->
  maximal_runs is_decimal latest rl ->
  Forall (within_digit_limit lim) rc ->
  Forall (within_digit_limit lim) rl ->
  (compare_versions lim current latest = Ok NEWER
   <-> lex_lt (map decimal_value rc) (map decimal_value rl))
  /\ (compare_versions lim current latest = Ok EQUAL
      <-> map decimal_value rc = map decimal_value rl)
  /\ (compare_versions lim current latest = Ok OLDER
      <-> lex_lt (map decimal_value rl) (map decimal_value rc))
  /\ (differ_in_non_digits current latest ->
      compare_versions lim current latest = Ok EQUAL)
  /\ compare_versions lim "580.105.08" "580.105.08" = Ok EQUAL
  /\ compare_versions lim "580.105.08" "580.110.00" = Ok NEWER
  /\ compare_versions lim "580.105.08" "1" = Ok OLDER.
Proof.
  intros Hrc Hrl Hlc Hll.
  apply maximal_runs_unique in Hrc, Hrl. fold (findall_digits current) in Hrc.
  fold (findall_digits latest) in Hrl. subst rc rl.
  set (tc := map decimal_value (findall_digits current)).
  set (tl := map decimal_value (findall_digits latest)).
  assert (Hok := compare_versions_ok lim current latest tc tl
                   (version_tuple_ok lim current Hlc) (version_tuple_ok lim latest Hll)).
  destruct (compare_code_spec tc tl) as (Hn & He & Ho).
  split; [|split; [|split; [|split; [|split; [|split]]]]].
  - rewrite Hok, <- Hn. split; [now injection 1 | congruence].
  - rewrite Hok, <- He. split; [now injection 1 | congruence].
  - rewrite Hok, <- Ho. split; [now injection 1 | congruence].
  - intros H. apply compare_versions_same_runs. now apply differ_in_non_digits_runs.
  - vm_compute. reflexivity.
  - vm_compute. reflexivity.
  - vm_compute. reflexivity.
Qed.

Lemma compare_versions_lexicographic_witness :
  maximal_runs is_decimal "580.105.08" ["580"; "105"; "08"]
  /\ maximal_runs is_decimal "580.110.00" ["580"; "110"; "00"]
  /\ Forall (within_digit_limit default_max_str_digits) ["580"; "105"; "08"]
  /\ Forall (within_digit_limit default_max_str_digits) ["580"; "110"; "00"]
  /\ (compare_versions default_max_str_digits "580.105.08" "580.110.00" = Ok NEWER
      <-> lex_lt [580; 105; 8] [580; 110; 0]).
Proof.
  assert (H1 : maximal_runs is_decimal "580.105.08" ["580"; "105"; "08"])
    by apply (runs_maximal is_decimal "580.105.08").
  assert (H2 : maximal_runs is_decimal "580.110.00" ["580"; "110"; "00"])
    by apply (runs_maximal is_decimal "580.110.00").
  assert (H3 : Forall (within_digit_limit default_max_str_digits) ["580"; "105"; "08"])
    by (repeat constructor).
  assert (H4 : Forall (within_digit_limit default_max_str_digits) ["580"; "110"; "00"])
    by (repeat constructor).
  split; [exact H1 | split; [exact H2 | split; [exact H3 | split; [exact H4 |]]]].
  exact (proj1 (compare_versions_lexicographic default_max_str_digits
                  "580.105.08" "580.110.00" _ _ H1 H2 H3 H4)).
Defined.

(** With the default limit of 4300 digits the run of 4301 digits in
    [long_version] makes [int()] raise and the handler answers EQUAL, while
    the tuples differ in their first component, 1 against 2: their
    comparison says NEWER. *)
Lemma compare_versions_long_run_not_lexicographic :
  maximal_runs is_decimal long_version ["1"; long_run]
  /\ maximal_runs is_decimal "2" ["2"]
  /\ lex_lt (map decimal_value ["1"; long_run]) (map decimal_value ["2"])
  /\ compare_versions default_max_str_digits long_version "2" = Ok EQUAL
  /\ compare_versions default_max_str_digits long_version "2" <> Ok NEWER.
Proof.
  split; [|split; [|split; [|split]]].
  - rewrite <- long_version_runs. apply runs_maximal.
  - apply (runs_maximal is_decimal "2").
  - cbn [map]. apply lex_head. reflexivity.
  - exact long_version_compares_equal.
  - rewrite long_version_compares_equal. discriminate.
Qed.

(** Inserting or deleting a separator is another matter: it changes the
    digit runs, and with them the answer. *)
Remark compare_versions_separator_matters :
  compare_versions default_max_str_digits "12" "1.2" = Ok OLDER
  /\ compare_versions default_max_str_digits "1.08" "1.8" = Ok EQUAL.
Proof. split; reflexivity. Qed.

(** Claim C2, as amended.  [compare_versions] returns EQUAL when neither
    string contains a digit, and when the conversion of a digit run fails on
    either side; so [compare_versions "abc" "xyz"] is EQUAL.  A [latest]
    without digits never yields NEWER: against a [current] whose runs
    convert it yields OLDER when [current] has a digit and EQUAL when it has
    none. *)
Theorem compare_versions_fail_safe (lim : nat) (current latest : string) :
  (no_digit current -> no_digit latest ->
   compare_versions lim current latest = Ok EQUAL)
  /\ ((exists e, version_tuple lim current = Raise e)
      \/ (exists e, version_tuple lim latest = Raise e) ->
      compare_versions lim current latest = Ok EQUAL)
  /\ compare_versions lim "abc" "xyz" = Ok EQUAL
  /\ (no_digit latest -> compare_versions lim current latest <> Ok NEWER)
  /\ (no_digit latest -> ~ no_digit current ->
      Forall (within_digit_limit lim) (findall_digits current) ->
      compare_versions lim current latest = Ok OLDER).
Proof.
  assert (Hnone : forall s, no_digit s -> version_tuple lim s = Ok []).
  { intros s Hs. unfold version_tuple, findall_digits.
    now rewrite (runs_none is_decimal s Hs). }
  split; [|split; [|split; [|split]]].
  - intros Hc Hl. rewrite (compare_versions_ok lim current latest [] []); auto.
  - apply compare_versions_raise.
  - vm_compute. reflexivity.
  - intros Hl.
    destruct (version_tuple_cases lim current) as [[tc Hc]|[e [Hc He]]].
    + rewrite (compare_versions_ok lim current latest tc []); auto.
      destruct tc; discriminate.
    + rewrite compare_versions_raise by eauto. discriminate.
  - intros Hl Hc Hfit.
    rewrite (compare_versions_ok lim current latest
               (map decimal_value (findall_digits current)) []);
      [| now apply version_tuple_ok | auto].
    destruct (findall_digits current) eqn:E; [|reflexivity].
    exfalso. apply Hc. unfold no_digit.
    destruct (str_forallb (fun c => negb (is_decimal c)) current) eqn:E'; [reflexivity|].
    now apply runs_some in E'.
Qed.

Lemma compare_versions_fail_safe_witness :
  no_digit "abc" /\ no_digit "xyz"
  /\ compare_versions default_max_str_digits "abc" "xyz" = Ok EQUAL.
Proof.
  assert (H1 : no_digit "abc") by reflexivity.
  assert (H2 : no_digit "xyz") by reflexivity.
  split; [exact H1 | split; [exact H2 |]].
  exact (proj1 (compare_versions_fail_safe default_max_str_digits "abc" "xyz") H1 H2).
Defined.

(** A [current] without digits against a [latest] with one: NEWER, not
    EQUAL. *)
Lemma compare_versions_malformed_current_newer :
  no_digit "abc"
  /\ compare_versions default_max_str_digits "abc" "1" = Ok NEWER
  /\ compare_versions default_max_str_digits "1" "abc" = Ok OLDER.
Proof.
  split; [reflexivity | split; vm_compute; reflexivity].
Qed.

(** Claim C10, as amended.  [compare_versions] is a function of its two
    strings and the interpreter's digit limit alone; it never raises and
    always returns 1, 0 or -1.  Extracting the digit runs cannot fail, and
    converting one raises only the [ValueError] of the digit limit, which
    the handler turns into 0: with the limit switched off, or with every run
    within it, no exception is raised and the handler is not reached. *)
Theorem compare_versions_total_function (lim : nat) (current latest : string) :
  (exists c, compare_versions lim current latest = Ok c
             /\ (c = 1 \/ c = 0 \/ c = -1))
  /\ (forall v,
        (exists t, version_tuple lim v = Ok t)
        \/ (exists e, version_tuple lim v = Raise e /\ exn_cls e = ValueError
                      /\ Exists (fun r => over_digit_limit lim (String.length r) = true)
                           (findall_digits v)))
  /\ (forall v, Forall (within_digit_limit lim) (findall_digits v) ->
                exists t, version_tuple lim v = Ok t)
  /\ (forall v, exists t, version_tuple 0 v = Ok t).
Proof.
  split; [apply compare_versions_total|]. split; [|split].
  - intros v.
    assert (Hdec : Forall (within_digit_limit lim) (findall_digits v)
                   \/ Exists (fun r => over_digit_limit lim (String.length r) = true)
                        (findall_digits v)).
    { induction (findall_digits v) as [|r rs [IH|IH]]; [left; constructor | |].
      - destruct (over_digit_limit lim (String.length r)) eqn:E.
        + right. now constructor.
        + left. constructor; [exact E | assumption].
      - right. now apply Exists_cons_tl. }
    destruct Hdec as [Hall|Hex].
    + left. rewrite version_tuple_ok by assumption. eauto.
    + destruct (version_tuple_cases lim v) as [Hok|[e [He Hcls]]]; [now left|].
      right. exists e. repeat split; assumption.
  - intros v H. rewrite version_tuple_ok by assumption. eauto.
  - intros v. rewrite version_tuple_ok; [eauto|].
    apply Forall_forall. intros r _. apply over_digit_limit_off.
Qed.

Lemma compare_versions_total_function_witness :
  Forall (within_digit_limit default_max_str_digits) (findall_digits "580.105.08")
  /\ exists t, version_tuple default_max_str_digits "580.105.08" = Ok t.
Proof.
  assert (H : Forall (within_digit_limit default_max_str_digits)
                (findall_digits "580.105.08")) by (repeat constructor).
  split; [exact H|].
  exact (proj1 (proj2 (proj2 (compare_versions_total_function
                                default_max_str_digits "a" "b"))) "580.105.08" H).
Defined.

(** With the default limit the conversion of the run of 4301 digits in
    [long_version] raises [ValueError], and the handler is reached. *)
Lemma version_tuple_raises_on_long_run :
  version_tuple default_max_str_digits long_version
  = Raise (too_many_digits 4300 4301)
  /\ exn_cls (too_many_digits 4300 4301) = ValueError
  /\ compare_versions default_max_str_digits long_version "2" = Ok 0.
Proof.
  split; [exact long_version_tuple | split; [reflexivity |]].
  exact long_version_compares_equal.
Qed.

(** ** Worlds and events *)

Lemma emits_nil w : emits [] w = w.
Proof. now destruct w. Qed.

Lemma emits_app es es' w : emits (es ++ es') w = emits es' (emits es w).
Proof.
  unfold emits. cbn [log fs]. now rewrite rev_app_distr, app_assoc.
Qed.

Lemma emit_emits e w : emit e w = emits [e] w.
Proof. reflexivity. Qed.

Lemma events_since_emits es w : events_since w (emits es w) = es.
Proof.
  unfold events_since, emits. cbn [log].
  rewrite length_app, length_rev.
  replace (length es + length (log w) - length (log w))%nat with (length (rev es)).
  - rewrite firstn_app, Nat.sub_diag, firstn_all. cbn [firstn].
    now rewrite app_nil_r, rev_involutive.
  - rewrite length_rev. lia.
Qed.

(** ** [install_driver] *)

Lemma install_driver_cancelled env driver_path w answer :
  on_input env (log (emits (install_prompt driver_path) w)) = Ok answer ->
  lower (strip answer) <> "yes" ->
  install_driver env driver_path w
  = (Ok false,
     emits (install_prompt driver_path ++ [EPrint "Installation cancelled."]) w).
Proof.
  intros Hin Hno. unfold install_driver, bind, print, input.
  cbn in Hin |- *. rewrite Hin.
  destruct (String.eqb_spec (lower (strip answer)) "yes") as [Heq|_]; [contradiction|].
  reflexivity.
Qed.

Lemma install_driver_confirmed env driver_path w answer :
  on_input env (log (emits (install_prompt driver_path) w)) = Ok answer ->
  lower (strip answer) = "yes" ->
  let w1 := emits (install_prompt driver_path ++ install_launch driver_path) w in
  install_driver env driver_path w =
    match on_run env (log w1) with
    | Ok result =>
        if returncode result =? 0 then
          (Ok true,
           emits [EPrint "";
                  EPrint "✅ Driver installation completed successfully!";
                  EPrint "⚠️  You may need to reboot your system for changes to take effect."]
             w1)
        else
          (Ok false,
           emits [EPrint ("❌ Installation failed with exit code: "
                          +:+ pretty (returncode result))] w1)
    | Raise e =>
        if isinstance e TimeoutExpired then
          (Ok false, emits [EPrint "❌ Installation timed out"] w1)
        else if isinstance e Exception then
          (Ok false, emits [EPrint ("❌ Installation error: " +:+ exn_msg e)] w1)
        else (Raise e, w1)
    end.
Proof.
  intros Hin Hyes. unfold install_driver, bind, print, input.
  cbn in Hin |- *. rewrite Hin, Hyes. cbn.
  unfold try_except, bind, print, subprocess_run. cbn.
  destruct (on_run env _) as [result|e].
  - destruct (returncode result =? 0); reflexivity.
  - cbn. unfold caught_by. cbn [existsb]. rewrite !orb_false_r.
    destruct (isinstance e TimeoutExpired); [reflexivity|].
    destruct (isinstance e Exception); reflexivity.
Qed.

(** Whatever happens, the log only grows, and a privileged call is in it
    only when the answer was affirmative. *)
Lemma install_driver_run_needs_yes env driver_path w :
  forall cmd t,
    In (ERun cmd t) (events_since w (snd (install_driver env driver_path w))) ->
    exists answer,
      on_input env (log (emits (install_prompt driver_path) w)) = Ok answer
      /\ lower (strip answer) = "yes".
Proof.
  intros cmd t Hrun.
  destruct (on_input env (log (emits (install_prompt driver_path) w)))
    as [answer|e] eqn:Hin.
  - destruct (String.eqb_spec (lower (strip answer)) "yes") as [Heq|Hne];
      [eauto|].
    rewrite (install_driver_cancelled env driver_path w answer Hin Hne) in Hrun.
    cbn [snd] in Hrun. rewrite events_since_emits in Hrun.
    cbn in Hrun. intuition discriminate.
  - exfalso. unfold install_driver, bind, print, input in Hrun.
    cbn in Hin, Hrun. rewrite Hin in Hrun. cbn [snd] in Hrun.
    change (In (ERun cmd t) (events_since w (emits (install_prompt driver_path) w)))
      in Hrun.
    rewrite events_since_emits in Hrun. cbn in Hrun. intuition discriminate.
Qed.

(** ** The transfer loop *)

(** One turn of the loop, as the source has it. *)
Lemma read_loop_unfold_turn env dest fsz r k w :
  read_loop env dest fsz r k w =
  match resp_read r chunk_size with
  | Raise e => (Raise e, w)
  | Ok ([], _) => (Ok tt, w)
  | Ok (chunk, r') =>
      match write env dest chunk w with
      | (Raise e, w1) => (Raise e, w1)
      | (Ok _, w1) =>
          let k' := k + Z.of_nat (length chunk) in
          match (if truthy fsz then print_progress k' (default 0 fsz) else ret tt) w1 with
          | (Raise e, w2) => (Raise e, w2)
          | (Ok _, w2) => read_loop env dest fsz r' k' w2
          end
      end
  end.
Proof.
  rewrite read_loop_unfold_eq. unfold read_loop_unfold.
  destruct (Logic.inspect (resp_read r chunk_size)) as [x e]. destruct e.
  unfold read_loop_unfold_clause_1.
  destruct (resp_read r chunk_size) as [[[|b l] r']|e]; reflexivity.
Qed.

Lemma chunk_size_succ : exists m, chunk_size = S m.
Proof. exists (Z.to_nat 8191). unfold chunk_size. lia. Qed.

Lemma chunked_concat n body cs : chunked n body cs -> concat cs = body.
Proof.
  induction 1 as [|c Hc Hlen|c rest cs Hlen Hrest _ IH]; cbn.
  - reflexivity.
  - apply app_nil_r.
  - now rewrite IH.
Qed.

Lemma chunked_empty n cs : chunked n [] cs -> cs = [].
Proof.
  intros H. remember [] as body eqn:Hbody.
  destruct H as [|c Hc Hlen|c rest cs Hlen Hrest Hcs]; [reflexivity | congruence |].
  apply app_eq_nil in Hbody as [_ Hnil]. congruence.
Qed.

(** Cutting off the first [S m] bytes of a non-empty body. *)
Lemma chunked_step m b l cs :
  chunked (S m) (skipn (S m) (b :: l)) cs ->
  chunked (S m) (b :: l) (firstn (S m) (b :: l) :: cs).
Proof.
  intros H. destruct (skipn (S m) (b :: l)) as [|b' rest] eqn:Hskip.
  - apply chunked_empty in H. subst cs.
    pose proof (firstn_skipn (S m) (b :: l)) as Hsplit.
    rewrite Hskip, app_nil_r in Hsplit. rewrite Hsplit.
    apply chunked_last; [discriminate|].
    rewrite <- Hsplit. rewrite length_firstn. lia.
  - rewrite <- (firstn_skipn (S m) (b :: l)) at 1. rewrite Hskip.
    apply chunked_cons; [| discriminate | assumption].
    rewrite length_firstn. apply Nat.min_l.
    assert (Hlen : length (skipn (S m) (b :: l)) = S (length rest))
      by now rewrite Hskip.
    rewrite length_skipn in Hlen. lia.
Qed.

Lemma write_ok env dest chunk w w1 :
  write env dest chunk w = (Ok tt, w1) ->
  w1 = {| log := EWrite dest chunk :: log w;
          fs := alter (fun f => {| f_data := f_data f ++ chunk; f_mode := f_mode f |})
                  dest (fs w) |}.
Proof.
  unfold write. cbn. destruct (on_write env _); [|discriminate].
  now injection 1.
Qed.

Lemma write_cases env dest chunk w :
  (write env dest chunk w
   = (Ok tt, {| log := EWrite dest chunk :: log w;
                fs := alter (fun f => {| f_data := f_data f ++ chunk;
                                         f_mode := f_mode f |}) dest (fs w) |}))
  \/ exists e, write env dest chunk w = (Raise e, emit (EWrite dest chunk) w).
Proof.
  unfold write. cbn. destruct (on_write env _) as [[]|e]; eauto.
Qed.

(** What a successful run of the loop has done: the connection ended
    cleanly, the body was cut into chunks, each chunk was written (and the
    progress printed when the announced size allows), and the file holds
    what it held followed by the body. *)
Lemma read_loop_done env dest fsz : forall n r k w w',
  (length (resp_pending r) <= n)%nat ->
  read_loop env dest fsz r k w = (Ok tt, w') ->
  resp_fault r = None
  /\ exists cs,
       chunked chunk_size (resp_pending r) cs
       /\ log w' = rev (loop_events dest fsz k cs) ++ log w
       /\ (forall f, fs w !! dest = Some f ->
                     fs w' !! dest = Some {| f_data := f_data f ++ resp_pending r;
                                             f_mode := f_mode f |})
       /\ (forall p, p <> dest -> fs w' !! p = fs w !! p).
Proof.
  destruct chunk_size_succ as [m Hm].
  induction n as [|n IH]; intros r k w w' Hlen Hrun;
    rewrite read_loop_unfold_turn in Hrun; unfold resp_read in Hrun;
    destruct (resp_pending r) as [|b l] eqn:Hpending; cbn [length] in Hlen;
    try lia.
  - destruct (resp_fault r); [discriminate|]. injection Hrun as <-.
    split; [reflexivity|]. exists []. split; [constructor|].
    split; [reflexivity|]. split; [|reflexivity].
    intros f Hf. rewrite Hf, app_nil_r. now destruct f.
  - destruct (resp_fault r); [discriminate|]. injection Hrun as <-.
    split; [reflexivity|]. exists []. split; [constructor|].
    split; [reflexivity|]. split; [|reflexivity].
    intros f Hf. rewrite Hf, app_nil_r. now destruct f.
  - rewrite Hm in Hrun |- *. cbn [firstn] in Hrun.
    destruct (write_cases env dest (b :: firstn m l) w) as [Hw|[e Hw]];
      rewrite Hw in Hrun; [|discriminate].
    cbv zeta in Hrun.
    set (k' := k + Z.of_nat (length (b :: firstn m l))) in *.
    set (w1 := {| log := EWrite dest (b :: firstn m l) :: log w;
                  fs := alter _ dest (fs w) |}) in *.
    set (r' := {| resp_content_length := resp_content_length r;
                  resp_pending := skipn (S m) (b :: l);
                  resp_fault := resp_fault r |}) in *.
    assert (Hlen' : (length (resp_pending r') <= n)%nat).
    { subst r'. cbn [resp_pending]. rewrite length_skipn. cbn [length]. lia. }
    assert (Hturn : exists w2,
               read_loop env dest fsz r' k' w2 = (Ok tt, w')
               /\ fs w2 = fs w1
               /\ log w2 = rev (if truthy fsz
                                then [EPrintProgress k' (default 0 fsz)]
                                else []) ++ log w1).
    { destruct (truthy fsz); cbn in Hrun |- *; eauto. }
    destruct Hturn as (w2 & Hrec & Hfs2 & Hlog2).
    destruct (IH r' k' w2 w' Hlen' Hrec) as (Hfault & cs & Hcs & Hlog & Hdest & Hother).
    split; [exact Hfault|].
    rewrite Hm in Hcs. subst r'. cbn [resp_pending resp_fault] in *.
    exists (firstn (S m) (b :: l) :: cs). split; [now apply chunked_step|].
    split; [|split].
    + rewrite Hlog, Hlog2. subst w1. cbn [log loop_events firstn].
      fold k'. cbn [rev]. rewrite !rev_app_distr, <- !app_assoc. reflexivity.
    + intros f Hf.
      rewrite (Hdest {| f_data := f_data f ++ b :: firstn m l; f_mode := f_mode f |}).
      * cbn [f_data f_mode]. f_equal. f_equal.
        rewrite <- app_assoc.
        change (b :: firstn m l) with (firstn (S m) (b :: l)).
        now rewrite (firstn_skipn (S m) (b :: l)).
      * rewrite Hfs2. subst w1. cbn [fs]. rewrite lookup_alter_eq, Hf. reflexivity.
    + intros p Hp. rewrite (Hother p Hp), Hfs2. subst w1. cbn [fs].
      now rewrite lookup_alter_ne.
Qed.

(** ** [download_driver] *)

Lemma read_loop_succeeds env dest fsz : forall n r k w,
  (length (resp_pending r) <= n)%nat ->
  resp_fault r = None -> (forall l, on_write env l = Ok tt) ->
  exists w', read_loop env dest fsz r k w = (Ok tt, w').
Proof.
  destruct chunk_size_succ as [m Hm].
  induction n as [|n IH]; intros r k w Hlen Hfault Hwrite;
    rewrite read_loop_unfold_turn; unfold resp_read; rewrite Hfault;
    destruct (resp_pending r) as [|b l] eqn:Hpending; cbn [length] in Hlen;
    try lia; eauto.
  rewrite Hm. cbn [firstn]. unfold write. cbn [log emit]. rewrite Hwrite.
  cbv zeta.
  match goal with
  | |- context [read_loop env dest fsz ?r' ?k' _] =>
      assert (Hlen' : (length (resp_pending r') <= n)%nat)
        by (cbn [resp_pending]; rewrite length_skipn; cbn [length]; lia);
      pose proof (fun w2 => IH r' k' w2 Hlen' eq_refl Hwrite) as IH'
  end.
  destruct (truthy fsz); cbn; apply IH'.
Qed.

Lemma executable_after_chmod mode :
  executable_by_all (Z.lor (Z.lor (Z.lor mode S_IXUSR) S_IXGRP) S_IXOTH).
Proof.
  unfold executable_by_all. rewrite !Z.lor_spec. cbn.
  rewrite !orb_true_r. auto.
Qed.

Lemma loop_events_transfer dest N k cs :
  (N <> 0 \/ cs = []) ->
  loop_events dest (Some N) k cs = transfer_events dest N k cs.
Proof.
  intros [HN| ->]; [|reflexivity].
  revert k. induction cs as [|c cs IH]; intros k; cbn; [reflexivity|].
  destruct (Z.eqb_spec N 0); [contradiction|]. cbn. now rewrite IH.
Qed.

Lemma py_int_empty lim : py_int lim EmptyString = Raise (invalid_literal EmptyString).
Proof. reflexivity. Qed.

(** The handler of [download_driver] never answers [True]. *)
Lemma download_handler_not_true e w w' :
  dispatch
    [([URLError; Exception],
      fun e0 : exn => print ("❌ Download failed: " +:+ exn_msg e0) ;; ret false)]
    e w <> (Ok true, w').
Proof.
  cbn [dispatch]. destruct (caught_by [URLError; Exception] e); cbn; discriminate.
Qed.

Ltac handler_case H :=
  cbn in H; solve [discriminate H | now apply download_handler_not_true in H].

Lemma download_driver_true env url dest w w' resp hdr N :
  on_urlopen env (log (emits (download_start url) w)) = Ok resp ->
  resp_content_length resp = Some hdr ->
  py_int (int_max_str_digits env) hdr = Ok N ->
  N = Z.of_nat (length (resp_pending resp)) ->
  download_driver env url dest w = (Ok true, w') ->
  resp_fault resp = None
  /\ exists cs mode,
       chunked chunk_size (resp_pending resp) cs
       /\ log w' = rev (download_start url ++ [EPrintFileSize N; EOpen dest]
                        ++ transfer_events dest N 0 cs
                        ++ [EPrint ""; EPrint ("✅ Downloaded to: " +:+ dest);
                            EStat dest; EChmod dest mode]) ++ log w
       /\ fs w' !! dest = Some {| f_data := resp_pending resp; f_mode := mode |}
       /\ mode = Z.lor (Z.lor (Z.lor (mode_after_open env w dest) S_IXUSR) S_IXGRP) S_IXOTH
       /\ executable_by_all mode
       /\ (forall p, p <> dest -> fs w' !! p = fs w !! p).
Proof.
  intros Hopen Hhdr Hint HN Hrun.
  unfold download_driver, try_except in Hrun.
  unfold bind at 1 2 3 4 in Hrun. unfold print at 1 2 3 in Hrun.
  unfold urlopen in Hrun. cbn [emit log fs] in Hrun. cbn in Hopen.
  rewrite Hopen, Hhdr in Hrun.
  destruct hdr as [|c hdr']; [rewrite py_int_empty in Hint; discriminate|].
  unfold bind at 1 2 3 in Hrun. unfold lift, print_file_size in Hrun.
  rewrite Hint in Hrun. cbn [emit log fs ret] in Hrun.
  unfold bind at 1 in Hrun. unfold open_wb in Hrun. cbn [emit log fs] in Hrun.
  destruct (on_open env _) as [[]|e]; [|handler_case Hrun].
  fold (mode_after_open env w dest) in Hrun.
  unfold bind at 1 in Hrun.
  match type of Hrun with
  | context [read_loop env dest (Some N) resp 0 ?w0] =>
      destruct (read_loop env dest (Some N) resp 0 w0) as [[[]|e] w2] eqn:Hloop;
      [|handler_case Hrun]
  end.
  apply (read_loop_done env dest (Some N) _ resp 0 _ w2 (Nat.le_refl _)) in Hloop.
  destruct Hloop as (Hfault & cs & Hcs & Hlog & Hdest & Hother).
  cbn [log fs] in Hlog, Hdest, Hother.
  specialize (Hdest _ (lookup_insert_eq _ _ _)). cbn [f_data f_mode app] in Hdest.
  unfold bind at 1 2 3 in Hrun. unfold print at 1 2 in Hrun.
  unfold stat_mode in Hrun. cbn [emit log fs] in Hrun.
  destruct (on_stat env _) as [[]|e]; [|handler_case Hrun].
  rewrite Hdest in Hrun. cbn [f_mode] in Hrun.
  unfold bind, chmod, ret in Hrun. cbn [emit log fs] in Hrun.
  destruct (on_chmod env _) as [[]|e]; [|handler_case Hrun].
  rewrite Hdest in Hrun. cbn [f_data] in Hrun. injection Hrun as <-.
  split; [exact Hfault|]. exists cs. eexists. split; [exact Hcs|].
  cbn [log fs]. split; [|split; [|split; [reflexivity|split]]].
  - rewrite Hlog, loop_events_transfer.
    + unfold download_start. rewrite !rev_app_distr. cbn [rev app].
      rewrite <- !app_assoc. reflexivity.
    + destruct (Z.eq_dec N 0) as [HN0|HN0]; [right|now left].
      assert (Hnil : resp_pending resp = [])
        by (apply length_zero_iff_nil; lia).
      rewrite Hnil in Hcs. now apply chunked_empty in Hcs.
  - now rewrite lookup_insert_eq.
  - apply executable_after_chmod.
  - intros p Hp. rewrite lookup_insert_ne by congruence.
    rewrite (Hother p Hp). now rewrite lookup_insert_ne by congruence.
Qed.

Lemma download_driver_succeeds env url dest w resp hdr N :
  on_urlopen env (log (emits (download_start url) w)) = Ok resp ->
  resp_content_length resp = Some hdr ->
  py_int (int_max_str_digits env) hdr = Ok N ->
  resp_fault resp = None -> fs_never_fails env ->
  exists w', download_driver env url dest w = (Ok true, w').
Proof.
  intros Hopen Hhdr Hint Hfault (Hfopen & Hfwrite & Hfstat & Hfchmod).
  unfold download_driver, try_except.
  unfold bind at 1 2 3 4. unfold print at 1 2 3.
  unfold urlopen. cbn [emit log fs]. cbn in Hopen.
  rewrite Hopen, Hhdr.
  destruct hdr as [|c hdr']; [rewrite py_int_empty in Hint; discriminate|].
  unfold bind at 1 2 3. unfold lift, print_file_size.
  rewrite Hint. cbn [emit log fs ret].
  unfold bind at 1. unfold open_wb. cbn [emit log fs]. rewrite Hfopen.
  unfold bind at 1.
  match goal with
  | |- context [read_loop env dest (Some N) resp 0 ?w0] =>
      destruct (read_loop_succeeds env dest (Some N) _ resp 0 w0
                  (Nat.le_refl _) Hfault Hfwrite) as [w2 Hloop];
      rewrite Hloop
  end.
  apply (read_loop_done env dest (Some N) _ resp 0 _ w2 (Nat.le_refl _)) in Hloop.
  destruct Hloop as (_ & cs & _ & _ & Hdest & _).
  cbn [log fs] in Hdest.
  specialize (Hdest _ (lookup_insert_eq _ _ _)).
  unfold bind at 1 2 3. unfold print at 1 2.
  unfold stat_mode. cbn [emit log fs]. rewrite Hfstat, Hdest.
  unfold bind, chmod, ret. cbn [emit log fs]. rewrite Hfchmod, Hdest.
  eauto.
Qed.

(** [download_driver] answers [True] or [False]; what it lets through is
    not an [Exception]. *)
Lemma download_driver_classes env url dest w :
  (exists b w', download_driver env url dest w = (Ok b, w'))
  \/ (exists e w', download_driver env url dest w = (Raise e, w')
                   /\ isinstance e Exception = false).
Proof.
  unfold download_driver, try_except.
  match goal with |- context [match ?body w with _ => _ end] =>
    destruct (body w) as [[b|e] w1] end; [eauto|].
  cbn [dispatch]. destruct (caught_by [URLError; Exception] e) eqn:Hc.
  - left. cbn. eauto.
  - right. exists e, w1. split; [reflexivity|].
    unfold caught_by in Hc. cbn [existsb] in Hc.
    now destruct (isinstance e URLError), (isinstance e Exception).
Qed.

(** ** The log only grows *)

Lemma extends_refl w : extends w w.
Proof. now exists []. Qed.

Lemma extends_trans w1 w2 w3 : extends w1 w2 -> extends w2 w3 -> extends w1 w3.
Proof.
  intros [es Hes] [es' Hes']. exists (es ++ es').
  now rewrite Hes', Hes, rev_app_distr, app_assoc.
Qed.

Lemma extends_cons e w w' : log w' = e :: log w -> extends w w'.
Proof. intros H. now exists [e]. Qed.

Lemma extends_emit e w : extends w (emit e w).
Proof. now apply (extends_cons e). Qed.

Lemma monotone_ret {A} (a : A) : log_monotone (ret a).
Proof. intros w. apply extends_refl. Qed.

Lemma monotone_raise {A} e : log_monotone (@raise A e).
Proof. intros w. apply extends_refl. Qed.

Lemma monotone_lift {A} (r : result A) : log_monotone (lift r).
Proof. intros w. apply extends_refl. Qed.

Lemma monotone_bind {A B} (m : M A) (k : A -> M B) :
  log_monotone m -> (forall a, log_monotone (k a)) -> log_monotone (bind m k).
Proof.
  intros Hm Hk w. unfold bind. specialize (Hm w).
  destruct (m w) as [[a|e] w1]; cbn [snd] in *; [|assumption].
  eapply extends_trans; [eassumption | apply Hk].
Qed.

Lemma monotone_dispatch {A} (handlers : list (list exn_class * (exn -> M A))) e :
  Forall (fun h => forall e, log_monotone (snd h e)) handlers ->
  log_monotone (dispatch handlers e).
Proof.
  induction 1 as [|[cs h] rest Hh _ IH]; cbn [dispatch].
  - apply monotone_raise.
  - destruct (caught_by cs e); [apply Hh | apply IH].
Qed.

Lemma monotone_try_except {A} (body : M A) handlers :
  log_monotone body ->
  Forall (fun h => forall e, log_monotone (snd h e)) handlers ->
  log_monotone (try_except body handlers).
Proof.
  intros Hb Hh w. unfold try_except. specialize (Hb w).
  destruct (body w) as [[a|e] w1]; cbn [snd] in *; [assumption|].
  eapply extends_trans; [eassumption | now apply monotone_dispatch].
Qed.

Lemma monotone_print s : log_monotone (print s).
Proof. intros w. apply extends_emit. Qed.

Lemma monotone_print_file_size n : log_monotone (print_file_size n).
Proof. intros w. apply extends_emit. Qed.

Lemma monotone_print_progress a b : log_monotone (print_progress a b).
Proof. intros w. apply extends_emit. Qed.

Lemma monotone_input env p : log_monotone (input env p).
Proof. intros w. apply extends_emit. Qed.

Lemma monotone_subprocess_run env cmd t : log_monotone (subprocess_run env cmd t).
Proof. intros w. apply extends_emit. Qed.

Lemma monotone_urlopen env url t : log_monotone (urlopen env url t).
Proof. intros w. apply extends_emit. Qed.

Lemma monotone_open_wb env p : log_monotone (open_wb env p).
Proof.
  intros w. unfold open_wb. cbn.
  destruct (on_open env _); now apply (extends_cons (EOpen p)).
Qed.

Lemma monotone_write env p c : log_monotone (write env p c).
Proof.
  intros w. unfold write. cbn.
  destruct (on_write env _); now apply (extends_cons (EWrite p c)).
Qed.

Lemma monotone_stat_mode env p : log_monotone (stat_mode env p).
Proof.
  intros w. unfold stat_mode. cbn.
  destruct (on_stat env _); [destruct (fs w !! p)|]; now apply (extends_cons (EStat p)).
Qed.

Lemma monotone_chmod env p m : log_monotone (chmod env p m).
Proof.
  intros w. unfold chmod. cbn.
  destruct (on_chmod env _); [destruct (fs w !! p)|];
    now apply (extends_cons (EChmod p m)).
Qed.

Lemma monotone_read_loop env dest fsz r k : log_monotone (read_loop env dest fsz r k).
Proof.
  intros w. remember (length (resp_pending r)) as n eqn:Hn.
  assert (Hlen : (length (resp_pending r) <= n)%nat) by lia. clear Hn.
  revert r k w Hlen.
  induction n as [|n IH]; intros r k w Hlen;
    rewrite read_loop_unfold_turn; unfold resp_read;
    destruct (resp_pending r) as [|b l] eqn:Hpending; cbn [length] in Hlen;
    try lia; try (destruct (resp_fault r); apply extends_refl).
  pose proof (monotone_write env dest (firstn chunk_size (b :: l)) w) as Hw.
  destruct (firstn chunk_size (b :: l)) as [|b' l'];
    [apply extends_refl|].
  destruct (write env dest (b' :: l') w) as [[[]|e] w1]; cbn [snd] in *;
    [|assumption].
  cbv zeta.
  match goal with
  | |- context [read_loop env dest fsz ?r' ?k' _] =>
      assert (Hlen' : (length (resp_pending r') <= n)%nat);
      [|pose proof (fun w2 => IH r' k' w2 Hlen') as IH']
  end.
  { cbn [resp_pending]. rewrite length_skipn. cbn [length].
    destruct chunk_size_succ as [m ->]. lia. }
  destruct (truthy fsz); cbn.
  - eapply extends_trans; [exact Hw|].
    eapply extends_trans; [apply extends_emit | apply IH'].
  - eapply extends_trans; [exact Hw | apply IH'].
Qed.

Ltac monotone :=
  repeat first
    [ apply monotone_ret | apply monotone_raise | apply monotone_lift
    | apply monotone_print | apply monotone_print_file_size
    | apply monotone_print_progress | apply monotone_input
    | apply monotone_subprocess_run | apply monotone_urlopen
    | apply monotone_open_wb | apply monotone_write | apply monotone_stat_mode
    | apply monotone_chmod | apply monotone_read_loop
    | apply monotone_bind; [|intros ?]
    | apply monotone_try_except
    | match goal with
      | |- Forall _ (_ :: _) => constructor; [intros ?; cbn [snd]|]
      | |- Forall _ [] => constructor
      end
    | match goal with
      | |- log_monotone (if ?b then _ else _) => destruct b
      | |- log_monotone (match ?x with _ => _ end) => destruct x
      end ].

Lemma monotone_download_driver env url dest : log_monotone (download_driver env url dest).
Proof. unfold download_driver. monotone. Qed.

Lemma monotone_install_driver env path : log_monotone (install_driver env path).
Proof. unfold install_driver. monotone. Qed.

(** ** The temporary directory *)

Lemma prefix_append (a b : string) : String.prefix a (a +:+ b) = true.
Proof.
  induction a as [|c a IH]; [now destruct b|].
  rewrite append_cons. cbn. now destruct (ascii_dec c c).
Qed.

(** A file name that does not begin with a slash lands below the
    directory it is joined to. *)
Lemma path_join_below d c name :
  c <> "/"%char ->
  String.prefix (tree_prefix d) (path_join d (String c name)) = true.
Proof.
  intros Hc. unfold tree_prefix, path_join.
  assert (Hrel : forall r, match String c name with
                           | String "/"%char _ => String c name
                           | _ => r
                           end = r).
  { intros r. destruct c as [[] [] [] [] [] [] [] []]; try reflexivity.
    now contradiction Hc. }
  rewrite Hrel. destruct d as [|c' d']; [reflexivity|].
  destruct (ends_with_slash (String c' d')).
  - rewrite append_nil_r. apply prefix_append.
  - rewrite append_nil_r. rewrite <- append_assoc. apply prefix_append.
Qed.

Lemma with_temporary_directory_log {A} env (body : string -> M A) w :
  (forall d, log_monotone (body d)) ->
  let d := on_mkdtemp env (log w) in
  exists es,
    log (snd (with_temporary_directory env body w))
    = ERmtree d :: rev es ++ EMkdtemp d :: log w.
Proof.
  intros Hbody d. unfold with_temporary_directory. fold d.
  destruct (Hbody d (emit (EMkdtemp d) w)) as [es Hes].
  destruct (body d (emit (EMkdtemp d) w)) as [r w1]. cbn [snd log rmtree] in *.
  exists es. now rewrite Hes.
Qed.

Lemma with_temporary_directory_removes {A} env (body : string -> M A) w p :
  String.prefix (tree_prefix (on_mkdtemp env (log w))) p = true ->
  fs (snd (with_temporary_directory env body w)) !! p = None.
Proof.
  intros Hp. unfold with_temporary_directory.
  destruct (body _ _) as [r w1]. cbn [snd fs rmtree].
  apply map_lookup_filter_None_2. right. intros f _. cbn [fst]. congruence.
Qed.

(** ** [_download_and_install_driver] *)

Lemma monotone_download_and_install env version :
  log_monotone (_download_and_install_driver env version).
Proof.
  intros w. unfold _download_and_install_driver.
  match goal with |- context [with_temporary_directory env ?body w] =>
    destruct (with_temporary_directory_log env body w) as [es Hes] end.
  { intros d. apply monotone_bind; [apply monotone_download_driver|].
    intros []; [apply monotone_install_driver | monotone]. }
  exists (EMkdtemp (on_mkdtemp env (log w)) :: es ++ [ERmtree (on_mkdtemp env (log w))]).
  rewrite Hes. cbn [rev]. rewrite rev_app_distr. cbn [rev app].
  now rewrite <- app_assoc.
Qed.

(** [_download_and_install_driver] step by step. *)
Lemma download_and_install_unfold env version w :
  let temp_dir := on_mkdtemp env (log w) in
  let driver_path :=
    path_join temp_dir ("NVIDIA-Linux-x86_64-" +:+ version +:+ ".run") in
  _download_and_install_driver env version w =
    match download_driver env (get_download_url version) driver_path
            (emit (EMkdtemp temp_dir) w) with
    | (Ok true, w1) =>
        let '(r, w2) := install_driver env driver_path w1 in (r, rmtree temp_dir w2)
    | (Ok false, w1) =>
        (Ok false,
         rmtree temp_dir
           (emits [EPrint "❌ Download failed. Please try manually:";
                   EPrint ("Visit: " +:+ MANUAL_URL)] w1))
    | (Raise e, w1) => (Raise e, rmtree temp_dir w1)
    end.
Proof.
  intros temp_dir driver_path.
  unfold _download_and_install_driver, with_temporary_directory.
  fold temp_dir. fold driver_path. unfold bind at 1.
  destruct (download_driver _ _ _ _) as [[[]|e] w1]; reflexivity.
Qed.

(** ** [strip] and [split] *)

Lemma split_ws_skip ws s :
  str_forallb is_space ws = true -> split_ws (ws +:+ s) = split_ws s.
Proof.
  unfold split_ws, runs. induction ws as [|c ws IH]; [reflexivity|].
  cbn [str_forallb]. intros H. apply andb_prop in H as [Hc Hws].
  rewrite append_cons. cbn [runs_from]. rewrite Hc. cbn [negb]. auto.
Qed.

Lemma split_ws_blank s : str_forallb is_space s = true -> split_ws s = [].
Proof.
  intros H. rewrite <- (append_nil_r s). now rewrite split_ws_skip.
Qed.

Lemma split_ws_lstrip s : split_ws (lstrip s) = split_ws s.
Proof.
  unfold split_ws, runs. induction s as [|c s IH]; [reflexivity|].
  cbn [lstrip]. destruct (is_space c) eqn:Hc; [|reflexivity].
  cbn [runs_from]. rewrite Hc. exact IH.
Qed.

Lemma runs_from_cons p run c s :
  runs_from p run (String c s) =
    if p c then runs_from p (run +:+ String c EmptyString) s
    else match run with
         | EmptyString => runs_from p EmptyString s
         | _ => run :: runs_from p EmptyString s
         end.
Proof. reflexivity. Qed.

Lemma runs_from_rstrip p s :
  (forall c, p c = negb (is_space c)) ->
  forall run, runs_from p run (rstrip s) = runs_from p run s.
Proof.
  intros Hp. induction s as [|c s IH]; intros run; [reflexivity|].
  cbn [rstrip]. destruct (rstrip s) as [|c' r] eqn:Hr.
  - rewrite (runs_from_cons p run c s), Hp.
    destruct (is_space c) eqn:Hc; cbn [negb].
    + destruct run; now rewrite <- IH.
    + rewrite runs_from_cons, Hp, Hc. cbn [negb]. now rewrite <- IH.
  - rewrite !(runs_from_cons p run c).
    destruct (p c); [apply IH|]. destruct run; now rewrite IH.
Qed.

Lemma split_ws_strip s : split_ws (strip s) = split_ws s.
Proof.
  unfold strip. rewrite <- (split_ws_lstrip s). unfold split_ws, runs.
  now apply runs_from_rstrip.
Qed.

(** The first white-space-delimited token: white space, then the token,
    then the end or more white space and anything. *)
Lemma split_ws_first_token ws token rest :
  str_forallb is_space ws = true ->
  token <> EmptyString ->
  str_forallb (fun c => negb (is_space c)) token = true ->
  starts_outside (fun c => negb (is_space c)) rest ->
  hd_error (split_ws (strip (ws +:+ token +:+ rest))) = Some token.
Proof.
  intros Hws Hne Htok Hrest.
  rewrite split_ws_strip, split_ws_skip by assumption.
  unfold split_ws, runs. now rewrite runs_from_block.
Qed.

(** ** [get_latest_driver_version] *)

Lemma caught_as_exception e : caught_by [URLError; Exception] e = isinstance e Exception.
Proof.
  destruct e as [c msg]. now destruct c.
Qed.

Lemma get_latest_driver_version_unfold env w :
  let w1 := emits [EUrlopen NVIDIA_LINUX_LATEST_URL 10] w in
  get_latest_driver_version env w =
    match fetched_text env (log w1) with
    | Ok text => (Ok (hd_error (split_ws (strip text))), w1)
    | Raise e =>
        if isinstance e Exception then
          (Ok None,
           emits [EPrint ("⚠️  Could not fetch latest driver version: " +:+ exn_msg e)] w1)
        else (Raise e, w1)
    end.
Proof.
  intros w1. unfold get_latest_driver_version, try_except, fetched_text.
  unfold bind at 1. unfold urlopen. cbn [emit log fs].
  change (EUrlopen NVIDIA_LINUX_LATEST_URL 10 :: log w) with (log w1).
  destruct (on_urlopen env (log w1)) as [response|e]; cbn [result_bind].
  - unfold bind at 1. unfold lift at 1.
    destruct (resp_read_all response) as [body|e]; cbn [result_bind].
    + unfold bind, lift. destruct (decode_utf8 env body) as [text|e].
      * destruct (split_ws (strip text)); reflexivity.
      * cbn [dispatch]. rewrite caught_as_exception.
        destruct (isinstance e Exception); reflexivity.
    + cbn [dispatch]. rewrite caught_as_exception.
      destruct (isinstance e Exception); reflexivity.
  - cbn [dispatch]. rewrite caught_as_exception.
    destruct (isinstance e Exception); reflexivity.
Qed.

(** A version that was resolved is a token: it is not empty, and the
    only event of the call is the opening of the connection. *)
Lemma get_latest_driver_version_some env w latest w' :
  get_latest_driver_version env w = (Ok (Some latest), w') ->
  latest <> EmptyString /\ w' = emits [EUrlopen NVIDIA_LINUX_LATEST_URL 10] w.
Proof.
  rewrite get_latest_driver_version_unfold. cbv zeta.
  destruct (fetched_text env _) as [text|e].
  - injection 1 as Hhd <-. split; [|reflexivity].
    pose proof (runs_shape (fun c => negb (is_space c)) (strip text)) as Hs.
    fold (split_ws (strip text)) in Hs.
    destruct (split_ws (strip text)) as [|t ts]; [discriminate|].
    injection Hhd as <-. now inversion Hs.
  - destruct (isinstance e Exception); discriminate.
Qed.

(** ** [get_driver_version] and [check_nvidia_smi] *)

Lemma get_driver_version_log env w :
  snd (get_driver_version env w)
  = emits [ERun ["nvidia-smi"; "--query-gpu=driver_version"; "--format=csv,noheader"] 5] w.
Proof.
  unfold get_driver_version, try_except, bind, subprocess_run. cbn [emit log fs].
  destruct (on_run env _) as [result|e].
  - destruct (returncode result =? 0); reflexivity.
  - cbn [dispatch]. destruct (caught_by _ e); reflexivity.
Qed.

(** ** [check_for_updates] *)

Lemma check_for_updates_known env w current latest w0 w2 :
  get_driver_version env w = (Ok (Some current), w0) ->
  current <> EmptyString ->
  get_latest_driver_version env
    (emits [EPrint ""; EPrint "🔍 Checking for driver updates..."] w0)
  = (Ok (Some latest), w2) ->
  check_for_updates env w =
    let w3 := emits (update_report current latest) w2 in
    match compare_versions (int_max_str_digits env) current latest with
    | Raise e => (Raise e, w3)
    | Ok comparison =>
        if comparison <? 0 then
          (Ok tt,
           emits [EPrint "✅ Your driver is up to date (or newer than latest release)"] w3)
        else if comparison =? 0 then
          (Ok tt, emits [EPrint "✅ Your driver is up to date"] w3)
        else
          let w4 := emits update_offer w3 in
          match on_input env (log w4) with
          | Raise e => (Raise e, w4)
          | Ok answer =>
              if (lower (strip answer) =? "yes")%string then
                let '(r, w5) := _download_and_install_driver env latest w4 in
                (result_bind r (fun _ => Ok tt), w5)
              else
                (Ok tt,
                 emits [EPrint "Update cancelled. To update manually, visit:";
                        EPrint MANUAL_URL] w4)
          end
    end.
Proof.
  intros Hcur Hne Hlat.
  destruct (get_latest_driver_version_some _ _ _ _ Hlat) as [Hlne _].
  unfold check_for_updates. unfold bind at 1. rewrite Hcur.
  destruct current as [|c current']; [congruence|].
  unfold bind at 1 2 3. unfold print at 1 2.
  change (emit (EPrint "🔍 Checking for driver updates...") (emit (EPrint "") w0))
    with (emits [EPrint ""; EPrint "🔍 Checking for driver updates..."] w0).
  rewrite Hlat. destruct latest as [|d latest']; [congruence|].
  unfold bind at 1 2 3 4. unfold print at 1 2 3. unfold lift.
  cbv zeta.
  change (emit (EPrint "") (emit (EPrint ("Latest version:  " +:+ String d latest'))
            (emit (EPrint ("Current version: " +:+ String c current')) w2)))
    with (emits (update_report (String c current') (String d latest')) w2).
  destruct (compare_versions _ _ _) as [comparison|e]; [|reflexivity].
  destruct (comparison <? 0); [reflexivity|].
  destruct (comparison =? 0); [reflexivity|].
  unfold bind at 1 2 3. unfold print at 1 2. unfold input. cbn [emit log fs].
  change {| log := EInput "Would you like to download and install it? (yes/no): "
                   :: EPrint ""
                   :: EPrint "🆕 A newer driver version is available!"
                   :: log (emits (update_report (String c current') (String d latest')) w2);
            fs := fs (emits (update_report (String c current') (String d latest')) w2) |}
    with (emits update_offer
            (emits (update_report (String c current') (String d latest')) w2)).
  change (EInput "Would you like to download and install it? (yes/no): "
          :: EPrint ""
          :: EPrint "🆕 A newer driver version is available!"
          :: log (emits (update_report (String c current') (String d latest')) w2))
    with (log (emits update_offer
                 (emits (update_report (String c current') (String d latest')) w2))).
  destruct (on_input env _) as [answer|e]; [|reflexivity].
  destruct (lower (strip answer) =? "yes")%string.
  - unfold bind, ret.
    destruct (_download_and_install_driver env _ _) as [[b|e] w5]; reflexivity.
  - reflexivity.
Qed.

Lemma check_for_updates_unknown_latest env w current w0 w2 :
  get_driver_version env w = (Ok (Some current), w0) ->
  current <> EmptyString ->
  get_latest_driver_version env
    (emits [EPrint ""; EPrint "🔍 Checking for driver updates..."] w0)
  = (Ok None, w2) ->
  check_for_updates env w = (Ok tt, emits unknown_latest_advice w2).
Proof.
  intros Hcur Hne Hlat.
  unfold check_for_updates. unfold bind at 1. rewrite Hcur.
  destruct current as [|c current']; [congruence|].
  unfold bind at 1 2 3. unfold print at 1 2.
  change (emit (EPrint "🔍 Checking for driver updates...") (emit (EPrint "") w0))
    with (emits [EPrint ""; EPrint "🔍 Checking for driver updates..."] w0).
  rewrite Hlat. reflexivity.
Qed.

(** ** [install_fresh_driver] *)

Lemma install_fresh_driver_unknown_latest env w w2 :
  get_latest_driver_version env
    (emits [EPrint ""; EPrint "🔍 Fetching latest NVIDIA driver version..."] w)
  = (Ok None, w2) ->
  install_fresh_driver env w = (Ok false, emits unknown_latest_advice w2).
Proof.
  intros Hlat. unfold install_fresh_driver.
  unfold bind at 1 2 3. unfold print at 1 2.
  change (emit (EPrint "🔍 Fetching latest NVIDIA driver version...")
            (emit (EPrint "") w))
    with (emits [EPrint ""; EPrint "🔍 Fetching latest NVIDIA driver version..."] w).
  rewrite Hlat. reflexivity.
Qed.

(** ** [run_check] *)



Lemma run_check_unfold env skip w :
  let w0 := emits banner w in
  run_check env skip w =
    match check_nvidia_smi env w0 with
    | (Raise e, w1) => (Raise e, w1)
    | (Ok false, w1) =>
        match install_fresh_driver env (emits no_driver_notice w1) with
        | (Ok true, w2) =>
            (Ok 0,
             emits [EPrint (NL +:+ "✅ Installation process completed!");
                    EPrint "⚠️  Please reboot your system and run this tool again to verify."]
               w2)
        | (Ok false, w2) =>
            (Ok 1,
             emits [EPrint (NL +:+ "For manual installation, visit:");
                    EPrint MANUAL_URL] w2)
        | (Raise e, w2) => (Raise e, w2)
        end
    | (Ok true, w1) =>
        (print "✅ NVIDIA driver is installed" ;;
         print "" ;;
         driver_version <- get_driver_version env ;;
         match driver_version with
         | None | Some EmptyString => ret tt
         | Some driver_version => print ("Driver Version: " +:+ driver_version)
         end ;;
         gpu_info <- get_gpu_info env ;;
         print_gpu_info gpu_info ;;
         (if negb skip then check_for_updates env else ret tt) ;;
         print "" ;;
         print (str_repeat "=" 60) ;;
         ret 0) w1
    end.
Proof.
  intros w0. unfold run_check.
  unfold bind at 1 2 3 4 5. unfold print at 1 2 3 4.
  change (emit (EPrint "") (emit (EPrint (str_repeat "=" 60))
            (emit (EPrint "NVIDIA Driver Check")
               (emit (EPrint (str_repeat "=" 60)) w))))
    with w0.
  destruct (check_nvidia_smi env w0) as [[[]|e] w1]; cbn [negb]; [reflexivity | |reflexivity].
  unfold bind at 1 2 3. unfold print at 1 2.
  change (emit (EPrint (NL +:+ "Would you like to install the latest NVIDIA driver?"))
            (emit (EPrint "❌ NVIDIA driver not found or nvidia-smi not available") w1))
    with (emits no_driver_notice w1).
  destruct (install_fresh_driver env _) as [[[]|e] w2]; reflexivity.
Qed.


(** ** What is returned and what is raised *)

Lemma hoare_ret {A} (a : A) (post : A -> Prop) exc : post a -> hoare (ret a) post exc.
Proof. intros H w. exact H. Qed.

Lemma hoare_bind {A B} (m : M A) (k : A -> M B) (mid : A -> Prop)
  (post : B -> Prop) (exc : exn -> Prop) :
  hoare m mid exc -> (forall a, mid a -> hoare (k a) post exc) ->
  hoare (bind m k) post exc.
Proof.
  intros Hm Hk w. unfold bind. specialize (Hm w).
  destruct (m w) as [[a|e] w1]; cbn [fst] in *; [apply (Hk a Hm) | exact Hm].
Qed.

Lemma hoare_print s exc : hoare (print s) (fun _ => True) exc.
Proof. intros w. exact I. Qed.

Lemma hoare_dict_get (d : gmap string string) k exc :
  is_Some (d !! k) -> hoare (dict_get d k) (fun _ => True) exc.
Proof.
  intros [v Hv]. unfold dict_get. rewrite Hv. now apply hoare_ret.
Qed.

Lemma hoare_print_gpu_info info :
  memory_entries_together info ->
  hoare (print_gpu_info info) (fun _ => True) (fun _ => False).
Proof.
  intros Hmem. unfold print_gpu_info.
  destruct (decide (info = ∅)); [now apply hoare_ret|].
  do 3 (apply (hoare_bind _ _ (fun _ => True)); [apply hoare_print | intros _ _]).
  apply (hoare_bind _ _ (fun _ => True)).
  { destruct (decide (is_Some (info !! "gpu_name"))); [|now apply hoare_ret].
    apply (hoare_bind _ _ (fun _ => True)); [now apply hoare_dict_get | intros v _].
    apply hoare_print. }
  intros _ _. apply (hoare_bind _ _ (fun _ => True)).
  { destruct (decide (is_Some (info !! "cuda_version"))); [|now apply hoare_ret].
    apply (hoare_bind _ _ (fun _ => True)); [now apply hoare_dict_get | intros v _].
    apply hoare_print. }
  intros _ _.
  destruct (decide (is_Some (info !! "memory_total"))) as [Htotal|]; [|now apply hoare_ret].
  destruct (Hmem Htotal) as [Hused Hfree].
  apply (hoare_bind _ _ (fun _ => True)); [now apply hoare_dict_get | intros v _].
  apply (hoare_bind _ _ (fun _ => True)); [apply hoare_print | intros _ _].
  apply (hoare_bind _ _ (fun _ => True)); [now apply hoare_dict_get | intros v' _].
  apply (hoare_bind _ _ (fun _ => True)); [apply hoare_print | intros _ _].
  apply (hoare_bind _ _ (fun _ => True)); [now apply hoare_dict_get | intros v'' _].
  apply hoare_print.
Qed.

(** ** Claims on [install_driver] *)

(** Claim C4, as amended.  For every answer to the confirmation prompt
    whose form without surrounding white space and in lower case is not
    "yes", [install_driver] prints the cancellation, returns [False]
    without raising, and has made no sub-process call; and whatever the
    answer, a sub-process call appears in what [install_driver] did only
    when the answer, stripped and lower-cased, was "yes". *)
Theorem install_driver_declined_never_privileged
  (env : Env) (driver_path : string) (w : World) :
  (forall answer,
      on_input env (log (emits (install_prompt driver_path) w)) = Ok answer ->
      lower (strip answer) <> "yes" ->
      install_driver env driver_path w
      = (Ok false,
         emits (install_prompt driver_path ++ [EPrint "Installation cancelled."]) w)
      /\ existsb is_run
           (events_since w (snd (install_driver env driver_path w))) = false)
  /\ (forall cmd t,
         In (ERun cmd t) (events_since w (snd (install_driver env driver_path w))) ->
         exists answer,
           on_input env (log (emits (install_prompt driver_path) w)) = Ok answer
           /\ lower (strip answer) = "yes").
Proof.
  split.
  - intros answer Hin Hno.
    rewrite (install_driver_cancelled env driver_path w answer Hin Hno).
    split; [reflexivity|]. cbn [snd]. now rewrite events_since_emits.
  - apply install_driver_run_needs_yes.
Qed.

Lemma install_driver_declined_never_privileged_witness :
  let env := scripted_env ["maybe"] (completed 0 "580.105.08") (completed 0 "")
               (serves None "580.110.00") (serves (Some "3") "abc") in
  on_input env (log (emits (install_prompt "/tmp/d.run") empty_world)) = Ok "maybe"
  /\ lower (strip "maybe") <> "yes"
  /\ install_driver env "/tmp/d.run" empty_world
     = (Ok false,
        emits (install_prompt "/tmp/d.run" ++ [EPrint "Installation cancelled."])
          empty_world).
Proof.
  cbv zeta.
  assert (H1 : on_input (scripted_env ["maybe"] (completed 0 "580.105.08")
                           (completed 0 "") (serves None "580.110.00")
                           (serves (Some "3") "abc"))
                 (log (emits (install_prompt "/tmp/d.run") empty_world)) = Ok "maybe")
    by reflexivity.
  assert (H2 : lower (strip "maybe") <> "yes") by (vm_compute; discriminate).
  split; [exact H1 | split; [exact H2 |]].
  exact (proj1 (proj1 (install_driver_declined_never_privileged _ _ _) _ H1 H2)).
Defined.

(** The answer " yes", with a blank in front, is not the word "yes" in any
    letter case, and the installer is run with [sudo] all the same. *)
Lemma install_driver_runs_on_padded_yes :
  let env := scripted_env [" yes"] (completed 0 "580.105.08") (completed 0 "")
               (serves None "580.110.00") (serves (Some "3") "abc") in
  lower " yes" <> "yes"
  /\ fst (install_driver env "/tmp/d.run" empty_world) = Ok true
  /\ In (ERun ["sudo"; "/tmp/d.run"] 600)
       (events_since empty_world (snd (install_driver env "/tmp/d.run" empty_world))).
Proof.
  cbv zeta. split; [vm_compute; discriminate|].
  split; [vm_compute; reflexivity|]. vm_compute. tauto.
Qed.

(** Claim C7.  Once the answer is affirmative, [install_driver] runs
    [sudo driver_path] with a timeout of 600 seconds and: returns [True]
    when the exit code is zero; prints the exit code and returns [False]
    when it is not zero; prints that the installation timed out and returns
    [False] when [TimeoutExpired] is raised.  In the three cases it returns
    and does not raise. *)
Theorem install_driver_outcomes
  (env : Env) (driver_path : string) (w : World) (answer : string) :
  on_input env (log (emits (install_prompt driver_path) w)) = Ok answer ->
  lower (strip answer) = "yes" ->
  let w1 := emits (install_prompt driver_path ++ install_launch driver_path) w in
  hd_error (log w1) = Some (ERun ["sudo"; driver_path] 600)
  /\ (forall result,
         on_run env (log w1) = Ok result -> returncode result = 0 ->
         install_driver env driver_path w
         = (Ok true,
            emits [EPrint "";
                   EPrint "✅ Driver installation completed successfully!";
                   EPrint "⚠️  You may need to reboot your system for changes to take effect."]
              w1))
  /\ (forall result,
         on_run env (log w1) = Ok result -> returncode result <> 0 ->
         install_driver env driver_path w
         = (Ok false,
            emits [EPrint ("❌ Installation failed with exit code: "
                           +:+ pretty (returncode result))] w1))
  /\ (forall e,
         on_run env (log w1) = Raise e -> isinstance e TimeoutExpired = true ->
         install_driver env driver_path w
         = (Ok false, emits [EPrint "❌ Installation timed out"] w1)).
Proof.
  intros Hin Hyes w1.
  pose proof (install_driver_confirmed env driver_path w answer Hin Hyes) as Heq.
  cbv zeta in Heq. fold w1 in Heq.
  split; [reflexivity|]. split; [|split].
  - intros result Hrun Hcode. rewrite Heq, Hrun, Hcode. reflexivity.
  - intros result Hrun Hcode. rewrite Heq, Hrun.
    now destruct (Z.eqb_spec (returncode result) 0).
  - intros e Hrun Htime. now rewrite Heq, Hrun, Htime.
Qed.

Lemma install_driver_outcomes_witness :
  let env := scripted_env ["YES "] (completed 0 "580.105.08") (completed 3 "")
               (serves None "580.110.00") (serves (Some "3") "abc") in
  let w1 := emits (install_prompt "/tmp/d.run" ++ install_launch "/tmp/d.run")
              empty_world in
  on_input env (log (emits (install_prompt "/tmp/d.run") empty_world)) = Ok "YES "
  /\ lower (strip "YES ") = "yes"
  /\ on_run env (log w1) = Ok {| returncode := 3; stdout := "" |}
  /\ install_driver env "/tmp/d.run" empty_world
     = (Ok false, emits [EPrint "❌ Installation failed with exit code: 3"] w1).
Proof.
  cbv zeta.
  assert (H1 : on_input (scripted_env ["YES "] (completed 0 "580.105.08")
                           (completed 3 "") (serves None "580.110.00")
                           (serves (Some "3") "abc"))
                 (log (emits (install_prompt "/tmp/d.run") empty_world)) = Ok "YES ")
    by reflexivity.
  assert (H2 : lower (strip "YES ") = "yes") by reflexivity.
  split; [exact H1 | split; [exact H2 | split; [reflexivity|]]].
  refine (proj1 (proj2 (proj2 (install_driver_outcomes _ _ _ _ H1 H2)))
            {| returncode := 3; stdout := "" |} eq_refl _).
  cbn. discriminate.
Defined.

(** ** Claim on [download_driver] *)

(** Claim C5.  Let the server answer with a response whose body has [N]
    bytes and whose [Content-Length] header converts to [N].  Whenever
    [download_driver] returns [True]: the connection ended cleanly; the body
    was written in order in chunks of [chunk_size] = 8192 bytes (the last
    one possibly shorter), the progress being reported after each chunk;
    the destination holds exactly the [N] bytes of the body; and its mode
    has the execute bits of owner, group and others.  It does return
    [True] when neither the connection nor the file system fails, and
    otherwise it returns [False] or lets through something that is not an
    [Exception]. *)
Theorem download_driver_transfers
  (env : Env) (url dest_path : string) (w : World)
  (response : Response) (header : string) (N : Z) :
  on_urlopen env (log (emits (download_start url) w)) = Ok response ->
  resp_content_length response = Some header ->
  py_int (int_max_str_digits env) header = Ok N ->
  N = Z.of_nat (length (resp_pending response)) ->
  Z.of_nat chunk_size = 8192
  /\ (forall w',
         download_driver env url dest_path w = (Ok true, w') ->
         resp_fault response = None
         /\ exists cs mode,
              chunked chunk_size (resp_pending response) cs
              /\ log w' = rev (download_start url
                               ++ [EPrintFileSize N; EOpen dest_path]
                               ++ transfer_events dest_path N 0 cs
                               ++ [EPrint "";
                                   EPrint ("✅ Downloaded to: " +:+ dest_path);
                                   EStat dest_path; EChmod dest_path mode])
                          ++ log w
              /\ fs w' !! dest_path
                 = Some {| f_data := resp_pending response; f_mode := mode |}
              /\ Z.of_nat (length (resp_pending response)) = N
              /\ executable_by_all mode)
  /\ (resp_fault response = None -> fs_never_fails env ->
      exists w', download_driver env url dest_path w = (Ok true, w'))
  /\ ((exists b w', download_driver env url dest_path w = (Ok b, w'))
      \/ (exists e w', download_driver env url dest_path w = (Raise e, w')
                       /\ isinstance e Exception = false)).
Proof.
  intros Hopen Hhdr Hint HN.
  split; [reflexivity|]. split; [|split].
  - intros w' Hrun.
    destruct (download_driver_true env url dest_path w w' response header N
                Hopen Hhdr Hint HN Hrun)
      as (Hfault & cs & mode & Hcs & Hlog & Hfile & _ & Hexec & _).
    split; [exact Hfault|]. exists cs, mode. auto 6.
  - intros Hfault Hfs.
    exact (download_driver_succeeds env url dest_path w response header N
             Hopen Hhdr Hint Hfault Hfs).
  - apply download_driver_classes.
Qed.

Lemma download_driver_transfers_witness :
  let env := scripted_env [] (completed 0 "580.105.08") (completed 0 "")
               (serves None "580.110.00") (serves (Some "3") "abc") in
  let response := {| resp_content_length := Some "3";
                     resp_pending := list_byte_of_string "abc";
                     resp_fault := None |} in
  on_urlopen env (log (emits (download_start "http://host/d.run") empty_world))
  = Ok response
  /\ py_int (int_max_str_digits env) "3" = Ok 3
  /\ fs_never_fails env
  /\ exists w', download_driver env "http://host/d.run" "/tmp/d.run" empty_world
                = (Ok true, w').
Proof.
  cbv zeta.
  set (env := scripted_env [] (completed 0 "580.105.08") (completed 0 "")
                (serves None "580.110.00") (serves (Some "3") "abc")).
  set (response := {| resp_content_length := Some "3";
                      resp_pending := list_byte_of_string "abc";
                      resp_fault := None |}).
  assert (H1 : on_urlopen env
                 (log (emits (download_start "http://host/d.run") empty_world))
               = Ok response) by reflexivity.
  assert (H2 : py_int (int_max_str_digits env) "3" = Ok 3) by reflexivity.
  assert (H3 : fs_never_fails env) by (repeat split).
  split; [exact H1 | split; [exact H2 | split; [exact H3 |]]].
  exact (proj1 (proj2 (proj2 (download_driver_transfers env "http://host/d.run"
                                "/tmp/d.run" empty_world response "3" 3
                                H1 eq_refl H2 eq_refl)))
           eq_refl H3).
Defined.

(** ** Claim on [_download_and_install_driver] *)

(** Claim C8.  Every run of [_download_and_install_driver] creates a
    temporary directory first and removes it last, whether the run returns
    [True], returns [False] or raises; afterwards no file is left below
    that directory, the downloaded installer included.  When the download
    fails the run prints the manual-download address and returns [False],
    and the installer is not entered: nothing happens between the failed
    download, the two lines of advice and the removal. *)
Theorem download_and_install_cleans_up (env : Env) (version : string) (w : World) :
  let temp_dir := on_mkdtemp env (log w) in
  let driver_path :=
    path_join temp_dir ("NVIDIA-Linux-x86_64-" +:+ version +:+ ".run") in
  let w' := snd (_download_and_install_driver env version w) in
  (exists es, log w' = ERmtree temp_dir :: rev es ++ EMkdtemp temp_dir :: log w)
  /\ (forall p, String.prefix (tree_prefix temp_dir) p = true -> fs w' !! p = None)
  /\ fs w' !! driver_path = None
  /\ (forall w1,
         download_driver env (get_download_url version) driver_path
           (emit (EMkdtemp temp_dir) w) = (Ok false, w1) ->
         fst (_download_and_install_driver env version w) = Ok false
         /\ log w' = ERmtree temp_dir
                     :: EPrint ("Visit: " +:+ MANUAL_URL)
                     :: EPrint "❌ Download failed. Please try manually:"
                     :: log w1).
Proof.
  intros temp_dir driver_path w'. subst w'. unfold _download_and_install_driver.
  split; [|split; [|split]].
  - apply with_temporary_directory_log.
    intros d. apply monotone_bind; [apply monotone_download_driver|].
    intros []; [apply monotone_install_driver | monotone].
  - intros p Hp. now apply with_temporary_directory_removes.
  - apply with_temporary_directory_removes.
    apply (path_join_below _ "N"%char). discriminate.
  - intros w1 Hdl. fold (_download_and_install_driver env version w).
    pose proof (download_and_install_unfold env version w) as Heq.
    cbv zeta in Heq. fold temp_dir in Heq. fold driver_path in Heq.
    rewrite Hdl in Heq. rewrite Heq. split; reflexivity.
Qed.

Lemma download_and_install_cleans_up_witness :
  let env := scripted_env [] (completed 0 "580.105.08") (completed 0 "")
               (serves None "580.110.00")
               (Raise (Exn URLError "<urlopen error timed out>")) in
  let version := "580.110.00" in
  let driver_path := "/tmp/tmpdir/NVIDIA-Linux-x86_64-580.110.00.run" in
  let w1 :=
    emits (EMkdtemp "/tmp/tmpdir"
           :: download_start (get_download_url version)
           ++ [EPrint "❌ Download failed: <urlopen error timed out>"])
      empty_world in
  download_driver env (get_download_url version) driver_path
    (emit (EMkdtemp "/tmp/tmpdir") empty_world) = (Ok false, w1)
  /\ fst (_download_and_install_driver env version empty_world) = Ok false.
Proof.
  cbv zeta.
  set (env := scripted_env [] (completed 0 "580.105.08") (completed 0 "")
                (serves None "580.110.00")
                (Raise (Exn URLError "<urlopen error timed out>"))).
  assert (H1 : download_driver env (get_download_url "580.110.00")
                 "/tmp/tmpdir/NVIDIA-Linux-x86_64-580.110.00.run"
                 (emit (EMkdtemp "/tmp/tmpdir") empty_world)
               = (Ok false,
                  emits (EMkdtemp "/tmp/tmpdir"
                         :: download_start (get_download_url "580.110.00")
                         ++ [EPrint "❌ Download failed: <urlopen error timed out>"])
                    empty_world)) by (vm_compute; reflexivity).
  split; [exact H1|].
  exact (proj1 (proj2 (proj2 (proj2
           (download_and_install_cleans_up env "580.110.00" empty_world))) _ H1)).
Defined.

(** ** Claim on [get_latest_driver_version] *)

(** Claim C6.  [get_latest_driver_version] opens the index with a timeout
    of 10 seconds.  When the body is read and decoded, the result is its
    first white-space-delimited token, whatever follows the token; a body
    that is empty or all white space gives [None].  When opening, reading
    or decoding raises an [Exception] (network failure, timeout, undecodable
    body), a warning is printed and the result is [None]: nothing is
    raised.  The callers go on: [install_fresh_driver] prints the advice
    and returns [False], [check_for_updates] prints the advice and
    returns. *)
Theorem get_latest_driver_version_contract (env : Env) (w : World) :
  let w1 := emits [EUrlopen NVIDIA_LINUX_LATEST_URL 10] w in
  (forall text ws token rest,
      fetched_text env (log w1) = Ok text ->
      text = ws +:+ token +:+ rest ->
      str_forallb is_space ws = true ->
      token <> EmptyString ->
      str_forallb (fun c => negb (is_space c)) token = true ->
      starts_outside (fun c => negb (is_space c)) rest ->
      get_latest_driver_version env w = (Ok (Some token), w1))
  /\ (forall text,
         fetched_text env (log w1) = Ok text ->
         str_forallb is_space text = true ->
         get_latest_driver_version env w = (Ok None, w1))
  /\ (forall e,
         fetched_text env (log w1) = Raise e ->
         isinstance e Exception = true ->
         get_latest_driver_version env w
         = (Ok None,
            emits [EPrint ("⚠️  Could not fetch latest driver version: " +:+ exn_msg e)]
              w1))
  /\ (forall w2,
         get_latest_driver_version env
           (emits [EPrint ""; EPrint "🔍 Fetching latest NVIDIA driver version..."] w)
         = (Ok None, w2) ->
         install_fresh_driver env w = (Ok false, emits unknown_latest_advice w2))
  /\ (forall current w0 w2,
         get_driver_version env w = (Ok (Some current), w0) ->
         current <> EmptyString ->
         get_latest_driver_version env
           (emits [EPrint ""; EPrint "🔍 Checking for driver updates..."] w0)
         = (Ok None, w2) ->
         check_for_updates env w = (Ok tt, emits unknown_latest_advice w2)).
Proof.
  intros w1.
  pose proof (get_latest_driver_version_unfold env w) as Heq.
  cbv zeta in Heq. fold w1 in Heq.
  split; [|split; [|split; [|split]]].
  - intros text ws token rest Htext -> Hws Hne Htok Hrest.
    rewrite Heq, Htext. now rewrite split_ws_first_token.
  - intros text Htext Hblank.
    rewrite Heq, Htext, split_ws_strip, split_ws_blank by assumption. reflexivity.
  - intros e Htext Hexn. now rewrite Heq, Htext, Hexn.
  - apply install_fresh_driver_unknown_latest.
  - apply check_for_updates_unknown_latest.
Qed.

Lemma get_latest_driver_version_contract_witness :
  let env := scripted_env [] (completed 0 "580.105.08") (completed 0 "")
               (serves None "580.110.00 580.110.00/NVIDIA-Linux-x86_64-580.110.00.run")
               (serves (Some "3") "abc") in
  let w1 := emits [EUrlopen NVIDIA_LINUX_LATEST_URL 10] empty_world in
  fetched_text env (log w1)
  = Ok "580.110.00 580.110.00/NVIDIA-Linux-x86_64-580.110.00.run"
  /\ get_latest_driver_version env empty_world = (Ok (Some "580.110.00"), w1).
Proof.
  cbv zeta.
  set (env := scripted_env [] (completed 0 "580.105.08") (completed 0 "")
                (serves None "580.110.00 580.110.00/NVIDIA-Linux-x86_64-580.110.00.run")
                (serves (Some "3") "abc")).
  assert (H1 : fetched_text env
                 (log (emits [EUrlopen NVIDIA_LINUX_LATEST_URL 10] empty_world))
               = Ok "580.110.00 580.110.00/NVIDIA-Linux-x86_64-580.110.00.run")
    by reflexivity.
  split; [exact H1|].
  refine (proj1 (get_latest_driver_version_contract env empty_world)
            _ "" "580.110.00" " 580.110.00/NVIDIA-Linux-x86_64-580.110.00.run"
            H1 eq_refl eq_refl _ eq_refl eq_refl).
  discriminate.
Defined.

(** ** Claim on [check_for_updates] *)

(** Claim C3.  In a run of [check_for_updates] where the current version
    is available and the latest version is resolved: when [compare_versions]
    answers OLDER or EQUAL, the up-to-date message is printed and the run
    ends, with no prompt and no temporary directory (so no download and no
    installation) in anything the run did; when it answers NEWER, the offer
    is printed and the user is prompted, the download-then-install sequence
    runs when the answer is affirmative, and the advice to update manually
    is printed when it is not. *)
Theorem check_for_updates_prompts_only_when_newer
  (env : Env) (w : World) (current latest : string) (w0 w2 : World) :
  get_driver_version env w = (Ok (Some current), w0) ->
  current <> EmptyString ->
  get_latest_driver_version env
    (emits [EPrint ""; EPrint "🔍 Checking for driver updates..."] w0)
  = (Ok (Some latest), w2) ->
  let comparison := compare_versions (int_max_str_digits env) current latest in
  let w3 := emits (update_report current latest) w2 in
  let w4 := emits update_offer w3 in
  (comparison = Ok OLDER ->
   check_for_updates env w
   = (Ok tt,
      emits [EPrint "✅ Your driver is up to date (or newer than latest release)"] w3))
  /\ (comparison = Ok EQUAL ->
      check_for_updates env w
      = (Ok tt, emits [EPrint "✅ Your driver is up to date"] w3))
  /\ (comparison <> Ok NEWER ->
      existsb (fun e => is_input e || is_mkdtemp e)
        (events_since w (snd (check_for_updates env w))) = false)
  /\ (comparison = Ok NEWER ->
      hd_error (log w4)
      = Some (EInput "Would you like to download and install it? (yes/no): ")
      /\ (forall answer,
             on_input env (log w4) = Ok answer -> lower (strip answer) = "yes" ->
             check_for_updates env w
             = (result_bind (fst (_download_and_install_driver env latest w4))
                  (fun _ => Ok tt),
                snd (_download_and_install_driver env latest w4)))
      /\ (forall answer,
             on_input env (log w4) = Ok answer -> lower (strip answer) <> "yes" ->
             check_for_updates env w
             = (Ok tt,
                emits [EPrint "Update cancelled. To update manually, visit:";
                       EPrint MANUAL_URL] w4))
      /\ (forall e,
             on_input env (log w4) = Raise e ->
             check_for_updates env w = (Raise e, w4))).
Proof.
  intros Hcur Hne Hlat comparison w3 w4.
  pose proof (check_for_updates_known env w current latest w0 w2 Hcur Hne Hlat) as Heq.
  cbv zeta in Heq. fold comparison w3 w4 in Heq.
  assert (Hw0 : w0 = emits [ERun ["nvidia-smi"; "--query-gpu=driver_version";
                                  "--format=csv,noheader"] 5] w)
    by (rewrite <- (get_driver_version_log env w), Hcur; reflexivity).
  destruct (get_latest_driver_version_some _ _ _ _ Hlat) as [_ Hw2].
  split; [|split; [|split]].
  - intros Hc. now rewrite Heq, Hc.
  - intros Hc. now rewrite Heq, Hc.
  - intros Hc.
    destruct (compare_versions_total (int_max_str_digits env) current latest)
      as (c & Hcmp & Hcases).
    fold comparison in Hcmp. rewrite Heq, Hcmp. rewrite Hcmp in Hc.
    subst w3 w2 w0.
    destruct Hcases as [-> | [-> | ->]]; [now contradiction Hc | |];
      cbn [Z.ltb Z.eqb Z.compare EQUAL OLDER snd];
      rewrite <- !emits_app, events_since_emits; reflexivity.
  - intros Hc. rewrite Heq, Hc. cbn [Z.ltb Z.eqb Z.compare NEWER].
    split; [reflexivity|]. split; [|split].
    + intros answer Hin Hyes. rewrite Hin, Hyes. cbn [String.eqb].
      now destruct (_download_and_install_driver env latest w4).
    + intros answer Hin Hno. rewrite Hin.
      now destruct (String.eqb_spec (lower (strip answer)) "yes").
    + intros e Hin. now rewrite Hin.
Qed.

Lemma check_for_updates_prompts_only_when_newer_witness :
  let env := scripted_env [] (completed 0 "580.105.08") (completed 0 "")
               (serves None "580.105.08 580.105.08/NVIDIA-Linux-x86_64-580.105.08.run")
               (serves (Some "3") "abc") in
  let w0 := emits [ERun ["nvidia-smi"; "--query-gpu=driver_version";
                         "--format=csv,noheader"] 5] empty_world in
  let w2 := emits [EPrint ""; EPrint "🔍 Checking for driver updates...";
                   EUrlopen NVIDIA_LINUX_LATEST_URL 10] w0 in
  get_driver_version env empty_world = (Ok (Some "580.105.08"), w0)
  /\ get_latest_driver_version env
       (emits [EPrint ""; EPrint "🔍 Checking for driver updates..."] w0)
     = (Ok (Some "580.105.08"), w2)
  /\ compare_versions (int_max_str_digits env) "580.105.08" "580.105.08" = Ok EQUAL
  /\ check_for_updates env empty_world
     = (Ok tt,
        emits [EPrint "✅ Your driver is up to date"]
          (emits (update_report "580.105.08" "580.105.08") w2)).
Proof.
  cbv zeta.
  set (env := scripted_env [] (completed 0 "580.105.08") (completed 0 "")
                (serves None "580.105.08 580.105.08/NVIDIA-Linux-x86_64-580.105.08.run")
                (serves (Some "3") "abc")).
  set (w0 := emits [ERun ["nvidia-smi"; "--query-gpu=driver_version";
                          "--format=csv,noheader"] 5] empty_world).
  set (w2 := emits [EPrint ""; EPrint "🔍 Checking for driver updates...";
                    EUrlopen NVIDIA_LINUX_LATEST_URL 10] w0).
  assert (H1 : get_driver_version env empty_world = (Ok (Some "580.105.08"), w0))
    by reflexivity.
  assert (H2 : "580.105.08" <> EmptyString) by discriminate.
  assert (H3 : get_latest_driver_version env
                 (emits [EPrint ""; EPrint "🔍 Checking for driver updates..."] w0)
               = (Ok (Some "580.105.08"), w2)) by reflexivity.
  assert (H4 : compare_versions (int_max_str_digits env) "580.105.08" "580.105.08"
               = Ok EQUAL) by reflexivity.
  split; [exact H1 | split; [exact H3 | split; [exact H4 |]]].
  exact (proj1 (proj2 (check_for_updates_prompts_only_when_newer
                         env empty_world "580.105.08" "580.105.08" w0 w2 H1 H2 H3))
           H4).
Defined.

(** ** Claim on [run_check] *)



(** A driver is detected, a newer version is on offer and the user
    declines: [run_check] returns 0. *)
Remark run_check_detected_declined :
  let env := scripted_env ["no"] (completed 0 "580.105.08") (completed 0 "")
               (serves None "580.110.00 580.110.00/NVIDIA-Linux-x86_64-580.110.00.run")
               (serves (Some "3") "abc") in
  fst (check_nvidia_smi env (emits banner empty_world)) = Ok true
  /\ fst (run_check env false empty_world) = Ok 0.
Proof.
  cbv zeta. split; [reflexivity | vm_compute; reflexivity].
Qed.


(** ** More on strings *)

Lemma length_append (a b : string) :
  String.length (a +:+ b) = (String.length a + String.length b)%nat.
Proof.
  induction a as [|c a IH]; [reflexivity|].
  rewrite append_cons. cbn [String.length]. now rewrite IH.
Qed.

Lemma append_inv_head (a x y : string) : a +:+ x = a +:+ y -> x = y.
Proof.
  induction a as [|c a IH]; [auto|]. rewrite !append_cons. injection 1. auto.
Qed.

Lemma append_inv_same_length (x y r r' : string) :
  String.length x = String.length y -> x +:+ r = y +:+ r' -> x = y /\ r = r'.
Proof.
  revert y. induction x as [|c x IH]; intros [|d y] Hlen Heq;
    try discriminate; [auto|].
  rewrite !append_cons in Heq. injection Heq as -> Heq.
  injection Hlen as Hlen. destruct (IH y Hlen Heq) as [-> ->]. auto.
Qed.

Lemma blank_app a b : blank a -> blank b -> blank (a +:+ b).
Proof. unfold blank. intros Ha Hb. now rewrite str_forallb_app, Ha, Hb. Qed.

Lemma lstrip_blank ws : blank ws -> lstrip ws = EmptyString.
Proof.
  unfold blank. induction ws as [|c ws IH]; [reflexivity|].
  cbn [str_forallb]. intros H. apply andb_prop in H as [Hc Hws].
  cbn [lstrip]. rewrite Hc. auto.
Qed.

Lemma lstrip_blank_prefix ws s : blank ws -> lstrip (ws +:+ s) = lstrip s.
Proof.
  unfold blank. induction ws as [|c ws IH]; [reflexivity|].
  cbn [str_forallb]. intros H. apply andb_prop in H as [Hc Hws].
  rewrite append_cons. cbn [lstrip]. rewrite Hc. auto.
Qed.

Lemma lstrip_fixed s : starts_outside is_space s -> lstrip s = s.
Proof. destruct s as [|c s]; [reflexivity|]. cbn. now intros ->. Qed.

Lemma lstrip_split s : exists ws, s = ws +:+ lstrip s /\ blank ws.
Proof.
  induction s as [|c s (ws & Hs & Hws)]; [now exists EmptyString|].
  cbn [lstrip]. destruct (is_space c) eqn:Hc.
  - exists (String c ws). rewrite append_cons. split; [congruence|].
    unfold blank in *. cbn. now rewrite Hc.
  - now exists EmptyString.
Qed.

Lemma lstrip_starts_outside s : starts_outside is_space (lstrip s).
Proof.
  induction s as [|c s IH]; [exact I|]. cbn [lstrip].
  destruct (is_space c) eqn:Hc; [exact IH | exact Hc].
Qed.

Lemma rstrip_cons c s :
  rstrip (String c s) =
    match rstrip s with
    | EmptyString => if is_space c then EmptyString else String c EmptyString
    | r => String c r
    end.
Proof. reflexivity. Qed.

Lemma rstrip_blank ws : blank ws -> rstrip ws = EmptyString.
Proof.
  unfold blank. induction ws as [|c ws IH]; [reflexivity|].
  cbn [str_forallb]. intros H. apply andb_prop in H as [Hc Hws].
  now rewrite rstrip_cons, IH, Hc.
Qed.

Lemma rstrip_blank_suffix s ws : blank ws -> rstrip (s +:+ ws) = rstrip s.
Proof.
  intros Hws. induction s as [|c s IH]; [now apply rstrip_blank|].
  now rewrite append_cons, !rstrip_cons, IH.
Qed.

Lemma rstrip_split s : exists ws, s = rstrip s +:+ ws /\ blank ws.
Proof.
  induction s as [|c s (ws & Hs & Hws)]; [now exists EmptyString|].
  rewrite rstrip_cons. destruct (rstrip s) as [|d r] eqn:Hr.
  - rewrite append_nil_l in Hs. subst ws.
    destruct (is_space c) eqn:Hc.
    + exists (String c s). split; [reflexivity|].
      unfold blank in *. cbn. now rewrite Hc.
    + exists s. now rewrite append_cons.
  - exists ws. rewrite !append_cons. split; [|assumption].
    rewrite append_cons in Hs. congruence.
Qed.

Lemma rstrip_idempotent s : rstrip (rstrip s) = rstrip s.
Proof.
  induction s as [|c s IH]; [reflexivity|].
  rewrite rstrip_cons. destruct (rstrip s) as [|d r] eqn:Hr.
  - destruct (is_space c) eqn:Hc; [reflexivity|].
    rewrite rstrip_cons. cbn [rstrip]. now rewrite Hc.
  - rewrite rstrip_cons, IH. reflexivity.
Qed.

Lemma rstrip_starts_outside s :
  starts_outside is_space s -> starts_outside is_space (rstrip s).
Proof.
  destruct s as [|c s]; [auto|]. cbn [starts_outside]. intros Hc.
  rewrite rstrip_cons. destruct (rstrip s); [now rewrite Hc | exact Hc].
Qed.

(** [strip] takes white space off both ends and nothing else. *)
Lemma strip_split s :
  exists ws1 ws2, s = ws1 +:+ strip s +:+ ws2 /\ blank ws1 /\ blank ws2.
Proof.
  destruct (lstrip_split s) as (ws1 & H1 & Hb1).
  destruct (rstrip_split (lstrip s)) as (ws2 & H2 & Hb2).
  exists ws1, ws2. unfold strip. split; [|auto]. now rewrite <- H2.
Qed.

Lemma strip_idempotent s : strip (strip s) = strip s.
Proof.
  unfold strip.
  rewrite (lstrip_fixed (rstrip (lstrip s))).
  - apply rstrip_idempotent.
  - apply rstrip_starts_outside, lstrip_starts_outside.
Qed.

(** White space around a text that begins and ends with something else
    is all that [strip] removes. *)
Lemma strip_padded ws1 core ws2 :
  blank ws1 -> blank ws2 ->
  starts_outside is_space core -> rstrip core = core ->
  strip (ws1 +:+ core +:+ ws2) = core.
Proof.
  intros H1 H2 Hout Hr. unfold strip. rewrite lstrip_blank_prefix by assumption.
  destruct core as [|c core].
  - rewrite append_nil_l, lstrip_blank by assumption. reflexivity.
  - rewrite lstrip_fixed by (rewrite append_cons; exact Hout).
    now rewrite rstrip_blank_suffix.
Qed.

Lemma lower_char_y c : lower_char c = "y"%char <-> c = "y"%char \/ c = "Y"%char.
Proof.
  split; [|intros [-> | ->]; reflexivity].
  destruct c as [[] [] [] [] [] [] [] []]; vm_compute; intros H;
    first [discriminate H | now left | now right].
Qed.

Lemma lower_char_e c : lower_char c = "e"%char <-> c = "e"%char \/ c = "E"%char.
Proof.
  split; [|intros [-> | ->]; reflexivity].
  destruct c as [[] [] [] [] [] [] [] []]; vm_compute; intros H;
    first [discriminate H | now left | now right].
Qed.

Lemma lower_char_s c : lower_char c = "s"%char <-> c = "s"%char \/ c = "S"%char.
Proof.
  split; [|intros [-> | ->]; reflexivity].
  destruct c as [[] [] [] [] [] [] [] []]; vm_compute; intros H;
    first [discriminate H | now left | now right].
Qed.

Lemma lower_char_idempotent c : lower_char (lower_char c) = lower_char c.
Proof. destruct c as [[] [] [] [] [] [] [] []]; vm_compute; reflexivity. Qed.

Lemma lower_char_space c : is_space (lower_char c) = is_space c.
Proof. destruct c as [[] [] [] [] [] [] [] []]; vm_compute; reflexivity. Qed.

Lemma lex_lt_trans a : forall b c, lex_lt a b -> lex_lt b c -> lex_lt a c.
Proof.
  induction a as [|x a IH]; intros b c Hab Hbc.
  - inversion Hab; subst. inversion Hbc; subst; constructor.
  - inversion Hab; subst; inversion Hbc; subst.
    + apply lex_head. lia.
    + now apply lex_head.
    + now apply lex_head.
    + apply lex_tail. eauto.
Qed.

(** A comparison that does not come out as equal had both versions
    converted. *)
Lemma compare_versions_decided lim a b c :
  compare_versions lim a b = Ok c -> c <> EQUAL ->
  exists ta tb,
    version_tuple lim a = Ok ta /\ version_tuple lim b = Ok tb
    /\ c = (if tuple_gt tb ta then NEWER else if tuple_eq tb ta then EQUAL else OLDER).
Proof.
  intros Hc Hne.
  destruct (version_tuple lim a) as [ta|e] eqn:Ha.
  - destruct (version_tuple lim b) as [tb|e] eqn:Hb.
    + rewrite (compare_versions_ok lim a b ta tb Ha Hb) in Hc.
      injection Hc as <-. eauto.
    + rewrite compare_versions_raise in Hc by eauto. congruence.
  - rewrite compare_versions_raise in Hc by eauto. congruence.
Qed.

(** Property X1.  [compare_versions] is antisymmetric and reflexive:
    exchanging the two versions negates the result, and a version
    compared with itself gives 0.  This holds for every pair of strings,
    also those whose conversion fails. *)
Theorem compare_versions_antisymmetric (lim : nat) (a b : string) :
  compare_versions lim a a = Ok EQUAL
  /\ compare_versions lim b a
     = result_bind (compare_versions lim a b) (fun c => Ok (- c)).
Proof.
  split; [now apply compare_versions_same_runs|].
  destruct (version_tuple lim a) as [ta|e] eqn:Ha.
  - destruct (version_tuple lim b) as [tb|e] eqn:Hb.
    + rewrite (compare_versions_ok lim a b ta tb Ha Hb).
      rewrite (compare_versions_ok lim b a tb ta Hb Ha).
      cbn [result_bind]. f_equal.
      destruct (compare_code_spec ta tb) as (Hn & He & Ho).
      destruct (compare_code_spec tb ta) as (Hn' & He' & Ho').
      cbv zeta in *.
      destruct (lex_lt_total ta tb) as [Hlt | [Heq | Hgt]].
      * rewrite (proj2 Hn Hlt), (proj2 Ho' Hlt). reflexivity.
      * rewrite (proj2 He Heq), (proj2 He' (eq_sym Heq)). reflexivity.
      * rewrite (proj2 Ho Hgt), (proj2 Hn' Hgt). reflexivity.
    + rewrite !compare_versions_raise by eauto. reflexivity.
  - rewrite !compare_versions_raise by eauto. reflexivity.
Qed.

(** Property X2.  "Newer" is transitive: when [b] is newer than [a] and
    [c] is newer than [b], then [c] is newer than [a]. *)
Theorem compare_versions_newer_transitive (lim : nat) (a b c : string) :
  compare_versions lim a b = Ok NEWER ->
  compare_versions lim b c = Ok NEWER ->
  compare_versions lim a c = Ok NEWER.
Proof.
  intros Hab Hbc.
  destruct (compare_versions_decided lim a b NEWER Hab) as (ta & tb & Ha & Hb & Hc1);
    [discriminate|].
  destruct (compare_versions_decided lim b c NEWER Hbc) as (tb' & tc & Hb' & Hc & Hc2);
    [discriminate|].
  assert (tb' = tb) by congruence. subst tb'.
  rewrite (compare_versions_ok lim a c ta tc Ha Hc). f_equal.
  apply (proj1 (compare_code_spec ta tc)).
  apply (lex_lt_trans ta tb tc).
  - now apply (proj1 (compare_code_spec ta tb)).
  - now apply (proj1 (compare_code_spec tb tc)).
Qed.

Lemma compare_versions_newer_transitive_witness :
  compare_versions default_max_str_digits "535.54" "535.104.05" = Ok NEWER
  /\ compare_versions default_max_str_digits "535.104.05" "580.65" = Ok NEWER
  /\ compare_versions default_max_str_digits "535.54" "580.65" = Ok NEWER.
Proof.
  assert (H1 : compare_versions default_max_str_digits "535.54" "535.104.05" = Ok NEWER)
    by (vm_compute; reflexivity).
  assert (H2 : compare_versions default_max_str_digits "535.104.05" "580.65" = Ok NEWER)
    by (vm_compute; reflexivity).
  split; [exact H1|]. split; [exact H2|].
  exact (compare_versions_newer_transitive _ _ _ _ H1 H2).
Defined.

Lemma lower_yes s :
  lower s = "yes" <->
  exists y e z, s = String y (String e (String z EmptyString))
                /\ (y = "y"%char \/ y = "Y"%char)
                /\ (e = "e"%char \/ e = "E"%char)
                /\ (z = "s"%char \/ z = "S"%char).
Proof.
  split.
  - destruct s as [|y [|e [|z [|? ?]]]]; cbn [lower]; try discriminate.
    intros H. injection H as Hy He Hz. exists y, e, z.
    rewrite <- lower_char_y, <- lower_char_e, <- lower_char_s. auto.
  - intros (y & e & z & -> & Hy & He & Hz). cbn [lower].
    apply lower_char_y in Hy. apply lower_char_e in He. apply lower_char_s in Hz.
    now rewrite Hy, He, Hz.
Qed.

Lemma affirmative_iff answer : lower (strip answer) = "yes" <-> affirmative answer.
Proof.
  split.
  - intros H. apply lower_yes in H as (y & e & z & Hs & Hy & He & Hz).
    destruct (strip_split answer) as (ws1 & ws2 & Hsplit & H1 & H2).
    exists ws1, y, e, z, ws2. rewrite Hs in Hsplit.
    rewrite !append_cons, append_nil_l in Hsplit. repeat split; assumption.
  - intros (ws1 & y & e & z & ws2 & -> & H1 & H2 & Hy & He & Hz).
    change (String y (String e (String z ws2)))
      with (String y (String e (String z EmptyString)) +:+ ws2).
    rewrite strip_padded; auto.
    + apply lower_yes. exists y, e, z. auto.
    + cbn. destruct Hy as [-> | ->]; reflexivity.
    + destruct Hy as [-> | ->], He as [-> | ->], Hz as [-> | ->]; reflexivity.
Qed.

(** Property X3.  The answers the three prompts accept: after [strip()]
    and [lower()] the answer equals ['yes'] exactly when it is the word
    yes in any mix of capitals and small letters with nothing but white
    space before and after it. *)
Theorem prompts_accept_affirmative (answer : string) :
  lower (strip answer) = "yes" <-> affirmative answer.
Proof. exact (affirmative_iff answer). Qed.

(** Property X4.  Download URLs: the URL of a version ends with the name
    under which the installer is stored, and different versions have
    different URLs. *)
Theorem get_download_url_injective (v v' : string) :
  get_download_url v
  = NVIDIA_LINUX_DOWNLOAD_BASE +:+ "/" +:+ v +:+ "/" +:+ driver_filename v
  /\ (get_download_url v = get_download_url v' <-> v = v').
Proof.
  split; [reflexivity|]. split; [|now intros ->].
  unfold get_download_url. intros H.
  apply append_inv_head in H. rewrite !append_cons, !append_nil_l in H.
  injection H as H.
  assert (Hlen : String.length v = String.length v').
  { apply (f_equal String.length) in H. rewrite !length_append in H.
    cbn [String.length] in H. rewrite !length_append in H. lia. }
  now destruct (append_inv_same_length _ _ _ _ Hlen H).
Qed.

(** ** [split] with a separator *)

Lemma split_from_skip sep t : forall cur s,
  split_from sep (String.length t) cur (t +:+ s) = split_from sep 0 cur s.
Proof.
  induction t as [|c t IH]; intros cur s; [now destruct s|].
  rewrite append_cons. cbn [String.length split_from]. apply IH.
Qed.

Lemma prefix_split a : forall s,
  String.prefix a s = true -> exists rest, s = a +:+ rest.
Proof.
  induction a as [|c a IH]; intros s H; [now exists s|].
  destruct s as [|d s]; [discriminate|]. cbn [String.prefix] in H.
  destruct (ascii_dec c d) as [->|]; [|discriminate].
  destruct (IH s H) as [rest ->]. exists rest. now rewrite append_cons.
Qed.

Lemma split_from_not_nil sep : forall s k cur, split_from sep k cur s <> [].
Proof.
  induction s as [|c s IH]; intros k cur; cbn [split_from]; [discriminate|].
  destruct k; [|apply IH]. destruct (String.prefix sep (String c s)); [discriminate | apply IH].
Qed.

Lemma join_cons sep p rest :
  rest <> [] -> join sep (p :: rest) = p +:+ sep +:+ join sep rest.
Proof. destruct rest; [congruence | reflexivity]. Qed.

(** Joining the fields with the separator gives the string back. *)
Lemma join_split_from sep :
  sep <> EmptyString ->
  forall n s cur, (String.length s <= n)%nat ->
                  join sep (split_from sep 0 cur s) = cur +:+ s.
Proof.
  intros Hsep. destruct sep as [|d sep']; [congruence|].
  induction n as [|n IH]; intros s cur Hlen;
    destruct s as [|c s]; cbn [String.length] in Hlen; try lia;
    try (cbn; now rewrite append_nil_r).
  cbn [split_from].
  destruct (String.prefix (String d sep') (String c s)) eqn:Hp.
  - apply prefix_split in Hp as [rest Hrest]. rewrite append_cons in Hrest.
    injection Hrest as -> ->.
    cbn [String.length].
    replace (S (String.length sep') - 1)%nat with (String.length sep') by lia.
    rewrite split_from_skip.
    rewrite join_cons by apply split_from_not_nil.
    rewrite IH by (rewrite length_append in Hlen; lia).
    now rewrite append_nil_l, <- append_cons.
  - rewrite IH by lia. now rewrite append_snoc_cons.
Qed.

Lemma join_split_sep sep s : sep <> EmptyString -> join sep (split_sep sep s) = s.
Proof.
  intros Hsep. unfold split_sep.
  now rewrite (join_split_from sep Hsep (String.length s) s EmptyString (Nat.le_refl _)).
Qed.

(** ** [check_nvidia_smi], [get_driver_version] and [get_gpu_info] *)

Lemma check_nvidia_smi_unfold env w :
  let w1 := emits [ERun ["nvidia-smi"; "--version"] 5] w in
  check_nvidia_smi env w =
    match on_run env (log w1) with
    | Ok result => (Ok (returncode result =? 0), w1)
    | Raise e => if smi_failure e then (Ok false, w1) else (Raise e, w1)
    end.
Proof.
  intros w1. unfold check_nvidia_smi, try_except, bind, subprocess_run.
  cbn [emit log fs]. change (ERun ["nvidia-smi"; "--version"] 5 :: log w) with (log w1).
  destruct (on_run env (log w1)) as [result|e]; [reflexivity|].
  cbn [dispatch]. unfold smi_failure. now destruct (caught_by _ e).
Qed.

Lemma get_driver_version_unfold env w :
  let w1 := emits [ERun (gpu_query "driver_version") 5] w in
  get_driver_version env w =
    match on_run env (log w1) with
    | Ok result =>
        (Ok (if returncode result =? 0 then Some (strip (stdout result)) else None), w1)
    | Raise e => if smi_failure e then (Ok None, w1) else (Raise e, w1)
    end.
Proof.
  intros w1. unfold get_driver_version, try_except, bind, subprocess_run.
  cbn [emit log fs].
  change (ERun ["nvidia-smi"; "--query-gpu=driver_version"; "--format=csv,noheader"] 5
          :: log w) with (log w1).
  destruct (on_run env (log w1)) as [result|e].
  - now destruct (returncode result =? 0).
  - cbn [dispatch]. unfold smi_failure. now destruct (caught_by _ e).
Qed.

Lemma get_gpu_info_unfold env w :
  let w1 := emits [ERun (gpu_query "name") 5] w in
  let w2 := emits [ERun (gpu_query "cuda_version") 5] w1 in
  let w3 := emits [ERun (gpu_query memory_fields) 5] w2 in
  get_gpu_info env w =
    match on_run env (log w1) with
    | Raise e => if smi_failure e then (Ok ∅, w1) else (Raise e, w1)
    | Ok r1 =>
        let info1 := with_field "gpu_name" r1 ∅ in
        match on_run env (log w2) with
        | Raise e => if smi_failure e then (Ok info1, w2) else (Raise e, w2)
        | Ok r2 =>
            let info2 := with_field "cuda_version" r2 info1 in
            match on_run env (log w3) with
            | Raise e => if smi_failure e then (Ok info2, w3) else (Raise e, w3)
            | Ok r3 =>
                (Ok (if returncode r3 =? 0 then
                       match split_sep ", " (strip (stdout r3)) with
                       | [total; used; free] =>
                           <["memory_free" := free]>
                             (<["memory_used" := used]>
                                (<["memory_total" := total]> info2))
                       | _ => info2
                       end
                     else info2), w3)
            end
        end
    end.
Proof.
  intros w1 w2 w3. subst w1 w2 w3.
  unfold get_gpu_info, or_return, subprocess_run, ret, with_field.
  cbv [emits emit gpu_query memory_fields rev app log fs String.append].
  destruct (on_run env _) as [r1|e]; [|reflexivity].
  destruct (on_run env _) as [r2|e]; [|reflexivity].
  destruct (on_run env _) as [r3|e]; reflexivity.
Qed.

Lemma strip_blank s : blank s -> strip s = EmptyString.
Proof. intros H. unfold strip. now rewrite lstrip_blank. Qed.

Lemma with_field_lookup key r info k :
  is_Some (with_field key r info !! k) -> k = key \/ is_Some (info !! k).
Proof.
  unfold with_field. destruct (returncode r =? 0); [|auto].
  destruct (decide (k = key)) as [->|Hne]; [auto|].
  rewrite lookup_insert_ne by congruence. auto.
Qed.

Lemma with_field_lookup_ne key r info k :
  k <> key -> with_field key r info !! k = info !! k.
Proof.
  intros Hne. unfold with_field. destruct (returncode r =? 0); [|reflexivity].
  now rewrite lookup_insert_ne by congruence.
Qed.

(** What the dictionary of [get_gpu_info] can hold before the memory
    query. *)
Lemma gpu_info_before_memory r1 r2 k :
  is_Some (with_field "cuda_version" r2 (with_field "gpu_name" r1 ∅) !! k) ->
  k = "gpu_name" \/ k = "cuda_version".
Proof.
  intros H. apply with_field_lookup in H as [->|H]; [auto|].
  apply with_field_lookup in H as [->|H]; [auto|].
  rewrite lookup_empty in H. now destruct H.
Qed.

Lemma get_gpu_info_shape env w info w' :
  get_gpu_info env w = (Ok info, w') ->
  (forall k, is_Some (info !! k) -> In k gpu_info_keys)
  /\ (is_Some (info !! "memory_total") <-> is_Some (info !! "memory_used"))
  /\ (is_Some (info !! "memory_total") <-> is_Some (info !! "memory_free")).
Proof.
  intros Hrun. rewrite get_gpu_info_unfold in Hrun. cbv zeta in Hrun.
  assert (Hempty : forall k,
             is_Some ((∅ : gmap string string) !! k) -> In k gpu_info_keys).
  { intros k H. rewrite lookup_empty in H. now destruct H. }
  assert (Hone : forall r1 k,
             is_Some (with_field "gpu_name" r1 ∅ !! k) -> k = "gpu_name").
  { intros r1 k H. apply with_field_lookup in H as [->|H]; [auto|].
    rewrite lookup_empty in H. now destruct H. }
  assert (Hnomem : forall (i : gmap string string),
             (forall k, is_Some (i !! k) -> k = "gpu_name" \/ k = "cuda_version") ->
             (forall k, is_Some (i !! k) -> In k gpu_info_keys)
             /\ (is_Some (i !! "memory_total") <-> is_Some (i !! "memory_used"))
             /\ (is_Some (i !! "memory_total") <-> is_Some (i !! "memory_free"))).
  { intros i Hi. split; [|split].
    - intros k Hk. destruct (Hi k Hk) as [-> | ->]; cbn; auto.
    - split; intros H; destruct (Hi _ H); discriminate.
    - split; intros H; destruct (Hi _ H); discriminate. }
  destruct (on_run env _) as [r1|e].
  2:{ destruct (smi_failure e); [|discriminate]. injection Hrun as <- _.
      apply Hnomem. intros k H. rewrite lookup_empty in H. now destruct H. }
  destruct (on_run env _) as [r2|e].
  2:{ destruct (smi_failure e); [|discriminate]. injection Hrun as <- _.
      apply Hnomem. intros k H. left. eauto. }
  pose proof (gpu_info_before_memory r1 r2) as Hbefore.
  destruct (on_run env _) as [r3|e].
  2:{ destruct (smi_failure e); [|discriminate]. injection Hrun as <- _.
      now apply Hnomem. }
  injection Hrun as <- _.
  destruct (returncode r3 =? 0); [|now apply Hnomem].
  destruct (split_sep ", " (strip (stdout r3))) as [|total [|used [|free [|? ?]]]];
    try now apply Hnomem.
  split; [|split].
  - intros k Hk.
    destruct (decide (k = "memory_free")) as [->|H1]; [cbn; auto 6|].
    rewrite lookup_insert_ne in Hk by congruence.
    destruct (decide (k = "memory_used")) as [->|H2]; [cbn; auto 6|].
    rewrite lookup_insert_ne in Hk by congruence.
    destruct (decide (k = "memory_total")) as [->|H3]; [cbn; auto 6|].
    rewrite lookup_insert_ne in Hk by congruence.
    destruct (Hbefore k Hk) as [-> | ->]; cbn; auto.
  - split; intros _.
    + rewrite lookup_insert_ne by discriminate. rewrite lookup_insert_eq. eauto.
    + rewrite !lookup_insert_ne by discriminate. rewrite lookup_insert_eq. eauto.
  - split; intros _.
    + rewrite lookup_insert_eq. eauto.
    + rewrite !lookup_insert_ne by discriminate. rewrite lookup_insert_eq. eauto.
Qed.

(** Property X5.  [check_nvidia_smi] runs [nvidia-smi --version] once
    with a timeout of 5 seconds and does nothing else.  It answers
    [True] exactly when the command ran and ended with code 0; a missing
    program or a timeout gives [False]; an exception of any other kind
    from the call is raised to the caller unchanged. *)
Theorem check_nvidia_smi_outcomes (env : Env) (w : World) :
  let w1 := emits [ERun ["nvidia-smi"; "--version"] 5] w in
  snd (check_nvidia_smi env w) = w1
  /\ (fst (check_nvidia_smi env w) = Ok true
      <-> exists result, on_run env (log w1) = Ok result /\ returncode result = 0)
  /\ (forall e,
         on_run env (log w1) = Raise e ->
         isinstance e FileNotFoundError = true \/ isinstance e TimeoutExpired = true ->
         fst (check_nvidia_smi env w) = Ok false)
  /\ (forall e,
         fst (check_nvidia_smi env w) = Raise e
         <-> on_run env (log w1) = Raise e
             /\ isinstance e FileNotFoundError = false
             /\ isinstance e TimeoutExpired = false).
Proof.
  intros w1. pose proof (check_nvidia_smi_unfold env w) as Heq.
  cbv zeta in Heq. fold w1 in Heq. rewrite Heq.
  assert (Hfail : forall e,
             smi_failure e = false
             <-> isinstance e FileNotFoundError = false
                 /\ isinstance e TimeoutExpired = false).
  { intros e. unfold smi_failure, caught_by. cbn [existsb].
    rewrite orb_false_r. apply orb_false_iff. }
  destruct (on_run env (log w1)) as [result|e].
  - split; [reflexivity|]. split; [|split].
    + cbn [fst]. split.
      * intros H. injection H as H. exists result. split; [reflexivity|].
        now apply Z.eqb_eq.
      * intros (r & Hr & Hcode). injection Hr as <-.
        now rewrite (proj2 (Z.eqb_eq _ _) Hcode).
    + discriminate.
    + intros e. cbn [fst]. split; [discriminate | intros [H _]; discriminate].
  - destruct (smi_failure e) eqn:He.
    + split; [reflexivity|]. split; [|split].
      * cbn [fst]. split; [discriminate | intros (r & Hr & _); discriminate].
      * reflexivity.
      * intros e'. cbn [fst]. split; [discriminate|].
        intros (H & Hno). injection H as <-. apply Hfail in Hno. congruence.
    + split; [reflexivity|]. split; [|split].
      * cbn [fst]. split; [discriminate | intros (r & Hr & _); discriminate].
      * intros e' H Hor. injection H as <-. apply Hfail in He as [H1 H2].
        destruct Hor; congruence.
      * intros e'. cbn [fst]. split.
        -- intros H. injection H as <-. split; [reflexivity | now apply Hfail].
        -- intros [H _]. congruence.
Qed.

(** Property X6.  A version returned by [get_driver_version] is the
    output of a query that ended with code 0, without the white space
    around it: stripping it again changes nothing. *)
Theorem get_driver_version_stripped
  (env : Env) (w w' : World) (version : string) :
  get_driver_version env w = (Ok (Some version), w') ->
  strip version = version
  /\ w' = emits [ERun (gpu_query "driver_version") 5] w
  /\ exists result,
       on_run env (log w') = Ok result /\ returncode result = 0
       /\ version = strip (stdout result).
Proof.
  intros Hrun. rewrite get_driver_version_unfold in Hrun. cbv zeta in Hrun.
  destruct (on_run env _) as [result|e] eqn:Hres.
  - destruct (Z.eqb_spec (returncode result) 0) as [Hcode|]; [|discriminate].
    injection Hrun as <- <-. split; [apply strip_idempotent|].
    split; [reflexivity|]. exists result. auto.
  - destruct (smi_failure e); discriminate.
Qed.

Lemma get_driver_version_stripped_witness :
  let env := smi_env (completed 0 (" 580.105.08" +:+ NL)) in
  let w' := emits [ERun (gpu_query "driver_version") 5] empty_world in
  get_driver_version env empty_world = (Ok (Some "580.105.08"), w')
  /\ strip "580.105.08" = "580.105.08".
Proof.
  cbv zeta.
  assert (H : get_driver_version (smi_env (completed 0 (" 580.105.08" +:+ NL)))
                empty_world
              = (Ok (Some "580.105.08"),
                 emits [ERun (gpu_query "driver_version") 5] empty_world))
    by (vm_compute; reflexivity).
  split; [exact H|].
  exact (proj1 (get_driver_version_stripped _ _ _ _ H)).
Defined.

(** Property X7.  The dictionary returned by [get_gpu_info] has no keys
    but [gpu_name], [cuda_version], [memory_total], [memory_used] and
    [memory_free], and the three memory entries are all there or all
    missing. *)
Theorem get_gpu_info_keys
  (env : Env) (w w' : World) (info : gmap string string) :
  get_gpu_info env w = (Ok info, w') ->
  (forall k, is_Some (info !! k) -> In k gpu_info_keys)
  /\ (is_Some (info !! "memory_total") <-> is_Some (info !! "memory_used"))
  /\ (is_Some (info !! "memory_total") <-> is_Some (info !! "memory_free")).
Proof. apply get_gpu_info_shape. Qed.

Lemma get_gpu_info_keys_witness :
  get_gpu_info sample_env empty_world = (Ok sample_gpu_info, emits gpu_queries empty_world)
  /\ (forall k, is_Some (sample_gpu_info !! k) -> In k gpu_info_keys)
  /\ (is_Some (sample_gpu_info !! "memory_total")
      <-> is_Some (sample_gpu_info !! "memory_used"))
  /\ (is_Some (sample_gpu_info !! "memory_total")
      <-> is_Some (sample_gpu_info !! "memory_free")).
Proof.
  assert (H : get_gpu_info sample_env empty_world
              = (Ok sample_gpu_info, emits gpu_queries empty_world))
    by (rewrite get_gpu_info_unfold; reflexivity).
  split; [exact H|].
  exact (get_gpu_info_keys _ _ _ _ H).
Defined.

(** Property X8.  When a query of [get_gpu_info] finds no program or
    times out, the function returns what the queries before it gave and
    makes no further query: with the name obtained and the second query
    failing, the result holds the name alone and the memory query is never
    run. *)
Theorem get_gpu_info_partial
  (env : Env) (w : World) (r1 : CompletedProcess) (e : exn) :
  let w1 := emits [ERun (gpu_query "name") 5] w in
  let w2 := emits [ERun (gpu_query "cuda_version") 5] w1 in
  on_run env (log w1) = Ok r1 ->
  on_run env (log w2) = Raise e ->
  smi_failure e = true ->
  get_gpu_info env w = (Ok (with_field "gpu_name" r1 ∅), w2)
  /\ events_since w w2 = [ERun (gpu_query "name") 5; ERun (gpu_query "cuda_version") 5].
Proof.
  intros w1 w2 H1 H2 He. rewrite get_gpu_info_unfold. cbv zeta.
  fold w1. fold w2. rewrite H1, H2, He. split; [reflexivity|].
  subst w2 w1. rewrite <- emits_app. apply events_since_emits.
Qed.

Lemma get_gpu_info_partial_witness :
  let env := with_on_run smi_hangs_after_first sample_env in
  let name := {| returncode := 0; stdout := "NVIDIA GeForce RTX 3080" |} in
  let w2 := emits [ERun (gpu_query "name") 5; ERun (gpu_query "cuda_version") 5]
              empty_world in
  get_gpu_info env empty_world = (Ok (with_field "gpu_name" name ∅), w2)
  /\ events_since empty_world w2
     = [ERun (gpu_query "name") 5; ERun (gpu_query "cuda_version") 5].
Proof.
  cbv zeta.
  exact (get_gpu_info_partial
           (with_on_run smi_hangs_after_first sample_env)
           empty_world
           {| returncode := 0; stdout := "NVIDIA GeForce RTX 3080" |}
           (Exn TimeoutExpired "Command timed out after 5 seconds")
           eq_refl eq_refl eq_refl).
Defined.

(** Property X9.  The memory entries are the fields of the line
    [nvidia-smi] printed: when [memory_total] is present, so are
    [memory_used] and [memory_free], the memory query ended with code 0,
    and the three values joined by a comma and a blank give back its
    stripped output. *)
Theorem get_gpu_info_memory_fields
  (env : Env) (w w' : World) (info : gmap string string) (total : string) :
  get_gpu_info env w = (Ok info, w') ->
  info !! "memory_total" = Some total ->
  exists used free result,
    info !! "memory_used" = Some used
    /\ info !! "memory_free" = Some free
    /\ on_run env (log w') = Ok result
    /\ returncode result = 0
    /\ strip (stdout result) = total +:+ ", " +:+ used +:+ ", " +:+ free.
Proof.
  intros Hrun Htotal. rewrite get_gpu_info_unfold in Hrun. cbv zeta in Hrun.
  assert (Hno : forall r1 r2,
             with_field "cuda_version" r2 (with_field "gpu_name" r1 ∅)
               !! "memory_total" = None).
  { intros r1 r2. rewrite !with_field_lookup_ne by discriminate. apply lookup_empty. }
  assert (Hno1 : forall r1,
             with_field "gpu_name" r1 ∅ !! "memory_total" = (None : option string)).
  { intros r1. rewrite with_field_lookup_ne by discriminate. apply lookup_empty. }
  destruct (on_run env _) as [r1|e].
  2:{ destruct (smi_failure e); [|discriminate]. injection Hrun as <- _.
      rewrite lookup_empty in Htotal. discriminate. }
  destruct (on_run env _) as [r2|e].
  2:{ destruct (smi_failure e); [|discriminate]. injection Hrun as <- _.
      rewrite Hno1 in Htotal. discriminate. }
  destruct (on_run env _) as [r3|e] eqn:H3.
  2:{ destruct (smi_failure e); [|discriminate]. injection Hrun as <- _.
      rewrite Hno in Htotal. discriminate. }
  injection Hrun as <- <-.
  destruct (Z.eqb_spec (returncode r3) 0) as [Hcode|];
    [|rewrite Hno in Htotal; discriminate].
  pose proof (join_split_sep ", " (strip (stdout r3))) as Hjoin.
  destruct (split_sep ", " (strip (stdout r3))) as [|t [|u [|f [|? ?]]]];
    try (rewrite Hno in Htotal; discriminate).
  rewrite lookup_insert_ne in Htotal by discriminate.
  rewrite lookup_insert_ne in Htotal by discriminate.
  rewrite lookup_insert_eq in Htotal. injection Htotal as <-.
  exists u, f, r3. split; [|split; [|split; [|split]]].
  - rewrite lookup_insert_ne by discriminate. apply lookup_insert_eq.
  - apply lookup_insert_eq.
  - exact H3.
  - exact Hcode.
  - symmetry. apply Hjoin. discriminate.
Qed.

Lemma get_gpu_info_memory_fields_witness :
  get_gpu_info sample_env empty_world = (Ok sample_gpu_info, emits gpu_queries empty_world)
  /\ sample_gpu_info !! "memory_total" = Some "10240 MiB"
  /\ exists used free result,
       sample_gpu_info !! "memory_used" = Some used
       /\ sample_gpu_info !! "memory_free" = Some free
       /\ on_run sample_env (log (emits gpu_queries empty_world)) = Ok result
       /\ returncode result = 0
       /\ strip (stdout result) = "10240 MiB" +:+ ", " +:+ used +:+ ", " +:+ free.
Proof.
  assert (H : get_gpu_info sample_env empty_world
              = (Ok sample_gpu_info, emits gpu_queries empty_world))
    by (rewrite get_gpu_info_unfold; reflexivity).
  assert (Htotal : sample_gpu_info !! "memory_total" = Some "10240 MiB").
  { unfold sample_gpu_info. rewrite !lookup_insert_ne by discriminate.
    apply lookup_insert_eq. }
  split; [exact H|]. split; [exact Htotal|].
  exact (get_gpu_info_memory_fields _ _ _ _ _ H Htotal).
Defined.

(** Property X10.  [run_check] can print every dictionary that
    [get_gpu_info] returns: [print_gpu_info] reads [memory_used] and
    [memory_free] whenever [memory_total] is there, and on such a
    dictionary it never fails with a [KeyError]. *)
Theorem print_gpu_info_after_get_gpu_info
  (env : Env) (w w' : World) (info : gmap string string) :
  get_gpu_info env w = (Ok info, w') ->
  forall w0, exists w1, print_gpu_info info w0 = (Ok tt, w1).
Proof.
  intros Hrun w0.
  destruct (get_gpu_info_shape env w info w' Hrun) as (_ & Hused & Hfree).
  assert (Htogether : memory_entries_together info).
  { intros H. split; [now apply Hused | now apply Hfree]. }
  pose proof (hoare_print_gpu_info info Htogether w0) as Hprint.
  destruct (print_gpu_info info w0) as [[[]|e] w1]; cbn [fst] in Hprint;
    [eauto | contradiction].
Qed.

Lemma print_gpu_info_after_get_gpu_info_witness :
  get_gpu_info sample_env empty_world = (Ok sample_gpu_info, emits gpu_queries empty_world)
  /\ exists w1, print_gpu_info sample_gpu_info (emits gpu_queries empty_world) = (Ok tt, w1).
Proof.
  assert (H : get_gpu_info sample_env empty_world
              = (Ok sample_gpu_info, emits gpu_queries empty_world))
    by (rewrite get_gpu_info_unfold; reflexivity).
  split; [exact H|].
  exact (print_gpu_info_after_get_gpu_info _ _ _ _ H _).
Defined.

(** Property X11.  When the installed version cannot be told (the query
    finds no program, times out, ends with a code other than 0, or prints
    nothing but white space), [check_for_updates] prints one warning and
    returns: it makes no network request and asks nothing. *)
Theorem check_for_updates_unknown_current (env : Env) (w : World) :
  let w1 := emits [ERun (gpu_query "driver_version") 5] w in
  (exists e, on_run env (log w1) = Raise e /\ smi_failure e = true)
  \/ (exists result,
        on_run env (log w1) = Ok result
        /\ (returncode result <> 0 \/ blank (stdout result))) ->
  check_for_updates env w = (Ok tt, emits [unknown_current_warning] w1)
  /\ events_since w (snd (check_for_updates env w))
     = [ERun (gpu_query "driver_version") 5; unknown_current_warning].
Proof.
  intros w1 Hcase.
  assert (Hrun : check_for_updates env w = (Ok tt, emits [unknown_current_warning] w1)).
  { unfold check_for_updates. unfold bind at 1.
    pose proof (get_driver_version_unfold env w) as Heq.
    cbv zeta in Heq. fold w1 in Heq. rewrite Heq.
    destruct Hcase as [(e & -> & ->) | (result & -> & Hres)]; [reflexivity|].
    destruct (Z.eqb_spec (returncode result) 0) as [Hcode|Hcode]; [|reflexivity].
    destruct Hres as [Hne|Hblank]; [contradiction|].
    now rewrite (strip_blank _ Hblank). }
  split; [exact Hrun|]. rewrite Hrun. cbn [snd]. subst w1.
  rewrite <- emits_app. apply events_since_emits.
Qed.

Lemma check_for_updates_unknown_current_witness :
  let env := smi_env (completed 0 NL) in
  check_for_updates env empty_world
  = (Ok tt,
     emits [ERun (gpu_query "driver_version") 5; unknown_current_warning] empty_world).
Proof.
  cbv zeta.
  assert (H : exists result,
             on_run (smi_env (completed 0 NL))
               (log (emits [ERun (gpu_query "driver_version") 5] empty_world))
             = Ok result
             /\ (returncode result <> 0 \/ blank (stdout result))).
  { exists {| returncode := 0; stdout := NL |}. split; [reflexivity|].
    right. reflexivity. }
  exact (proj1 (check_for_updates_unknown_current (smi_env (completed 0 NL))
                  empty_world (or_intror H))).
Defined.

(** ** Invariants of a run *)

Section Steps.

Context (R : World -> World -> Prop) `{!PreOrder R}.

Lemma steps_ret {A} (a : A) : steps R (ret a).
Proof. intros w. reflexivity. Qed.

Lemma steps_raise {A} e : steps R (@raise A e).
Proof. intros w. reflexivity. Qed.

Lemma steps_lift {A} (r : result A) : steps R (lift r).
Proof. intros w. reflexivity. Qed.

Lemma steps_bind {A B} (m : M A) (k : A -> M B) :
  steps R m -> (forall a, steps R (k a)) -> steps R (bind m k).
Proof.
  intros Hm Hk w. unfold bind. specialize (Hm w).
  destruct (m w) as [[a|e] w1]; cbn [snd] in *; [|assumption].
  etransitivity; [eassumption | apply Hk].
Qed.

Lemma steps_dispatch {A} (handlers : list (list exn_class * (exn -> M A))) e :
  Forall (fun h => forall e, steps R (snd h e)) handlers ->
  steps R (dispatch handlers e).
Proof.
  induction 1 as [|[cs h] rest Hh _ IH]; cbn [dispatch].
  - apply steps_raise.
  - destruct (caught_by cs e); [apply Hh | apply IH].
Qed.

Lemma steps_try_except {A} (body : M A) handlers :
  steps R body ->
  Forall (fun h => forall e, steps R (snd h e)) handlers ->
  steps R (try_except body handlers).
Proof.
  intros Hb Hh w. unfold try_except. specialize (Hb w).
  destruct (body w) as [[a|e] w1]; cbn [snd] in *; [assumption|].
  etransitivity; [eassumption | now apply steps_dispatch].
Qed.

Lemma steps_or_return {A} info (m : M A) k :
  steps R m -> (forall a, steps R (k a)) -> steps R (or_return info m k).
Proof.
  intros Hm Hk w. unfold or_return. specialize (Hm w).
  destruct (m w) as [[a|e] w1]; cbn [snd] in *.
  - etransitivity; [eassumption | apply Hk].
  - now destruct (caught_by _ e).
Qed.

Lemma steps_read_loop env dest fsz r k :
  (forall chunk, steps R (write env dest chunk)) ->
  (forall a b, steps R (print_progress a b)) ->
  steps R (read_loop env dest fsz r k).
Proof.
  intros Hwrite Hprogress w. remember (length (resp_pending r)) as n eqn:Hn.
  assert (Hlen : (length (resp_pending r) <= n)%nat) by lia. clear Hn.
  revert r k w Hlen.
  induction n as [|n IH]; intros r k w Hlen;
    rewrite read_loop_unfold_turn; unfold resp_read;
    destruct (resp_pending r) as [|b l] eqn:Hpending; cbn [length] in Hlen;
    try lia; try (destruct (resp_fault r); reflexivity).
  pose proof (Hwrite (firstn chunk_size (b :: l)) w) as Hw.
  destruct (firstn chunk_size (b :: l)) as [|b' l']; [reflexivity|].
  destruct (write env dest (b' :: l') w) as [[[]|e] w1]; cbn [snd] in *;
    [|assumption].
  cbv zeta.
  match goal with
  | |- context [read_loop env dest fsz ?r' ?k' _] =>
      assert (Hlen' : (length (resp_pending r') <= n)%nat);
      [|pose proof (fun w2 => IH r' k' w2 Hlen') as IH']
  end.
  { cbn [resp_pending]. rewrite length_skipn. cbn [length].
    destruct chunk_size_succ as [m ->]. lia. }
  destruct (truthy fsz).
  - match goal with
    | |- context [print_progress ?a ?b w1] => pose proof (Hprogress a b w1) as Hp
    end.
    unfold print_progress in Hp |- *. cbn [snd] in Hp.
    etransitivity; [exact Hw|]. etransitivity; [exact Hp | apply IH'].
  - cbn. etransitivity; [exact Hw | apply IH'].
Qed.

Lemma steps_with_temporary_directory {A} env (body : string -> M A) :
  (forall l, let d := on_mkdtemp env l in
             (forall w, R w (emit (EMkdtemp d) w))
             /\ (forall w, R w (rmtree d w))
             /\ steps R (body d)) ->
  steps R (with_temporary_directory env body).
Proof.
  intros H w. unfold with_temporary_directory.
  destruct (H (log w)) as (Hmk & Hrm & Hbody).
  specialize (Hbody (emit (EMkdtemp (on_mkdtemp env (log w))) w)).
  destruct (body _ _) as [r w1]. cbn [snd] in *.
  etransitivity; [apply Hmk|]. etransitivity; [exact Hbody | apply Hrm].
Qed.

End Steps.

(** *** The events of a run *)

#[global] Instance only_events_preorder P : PreOrder (only_events P).
Proof.
  split.
  - intros w. now exists [].
  - intros w1 w2 w3 (es & Hes & HP) (es' & Hes' & HP'). exists (es ++ es').
    split; [|now apply Forall_app].
    now rewrite Hes', Hes, rev_app_distr, app_assoc.
Qed.

Lemma only_events_cons P e w w' : log w' = e :: log w -> P e -> only_events P w w'.
Proof. intros H HP. exists [e]. split; [exact H | now constructor]. Qed.

Lemma only_events_since P w w' :
  only_events P w w' -> Forall P (events_since w w').
Proof.
  intros (es & Hes & HP).
  replace w' with {| log := log w'; fs := fs w' |} by now destruct w'.
  unfold events_since. rewrite Hes. cbn [log].
  rewrite length_app, length_rev.
  replace (length es + length (log w) - length (log w))%nat with (length (rev es))
    by (rewrite length_rev; lia).
  rewrite firstn_app, Nat.sub_diag, firstn_all. cbn [firstn].
  now rewrite app_nil_r, rev_involutive.
Qed.

Lemma only_events_weaken (P P' : event -> Prop) w w' :
  (forall e, P e -> P' e) -> only_events P w w' -> only_events P' w w'.
Proof.
  intros Himp (es & Hes & HP). exists es. split; [exact Hes|].
  eapply Forall_impl; eassumption.
Qed.

Section OnlyEvents.

Variable P : event -> Prop.
Variable env : Env.

Lemma only_print s : P (EPrint s) -> steps (only_events P) (print s).
Proof. intros HP w. now apply (only_events_cons P (EPrint s)). Qed.

Lemma only_print_file_size n :
  P (EPrintFileSize n) -> steps (only_events P) (print_file_size n).
Proof. intros HP w. now apply (only_events_cons P (EPrintFileSize n)). Qed.

Lemma only_print_progress a b :
  P (EPrintProgress a b) -> steps (only_events P) (print_progress a b).
Proof. intros HP w. now apply (only_events_cons P (EPrintProgress a b)). Qed.

Lemma only_input p : P (EInput p) -> steps (only_events P) (input env p).
Proof. intros HP w. now apply (only_events_cons P (EInput p)). Qed.

Lemma only_subprocess_run cmd t :
  P (ERun cmd t) -> steps (only_events P) (subprocess_run env cmd t).
Proof. intros HP w. now apply (only_events_cons P (ERun cmd t)). Qed.

Lemma only_urlopen url t :
  P (EUrlopen url t) -> steps (only_events P) (urlopen env url t).
Proof. intros HP w. now apply (only_events_cons P (EUrlopen url t)). Qed.

Lemma only_open_wb p : P (EOpen p) -> steps (only_events P) (open_wb env p).
Proof.
  intros HP w. unfold open_wb. cbn.
  destruct (on_open env _); now apply (only_events_cons P (EOpen p)).
Qed.

Lemma only_write p c : P (EWrite p c) -> steps (only_events P) (write env p c).
Proof.
  intros HP w. unfold write. cbn.
  destruct (on_write env _); now apply (only_events_cons P (EWrite p c)).
Qed.

Lemma only_stat_mode p : P (EStat p) -> steps (only_events P) (stat_mode env p).
Proof.
  intros HP w. unfold stat_mode. cbn.
  destruct (on_stat env _); [destruct (fs w !! p)|];
    now apply (only_events_cons P (EStat p)).
Qed.

Lemma only_chmod p m : P (EChmod p m) -> steps (only_events P) (chmod env p m).
Proof.
  intros HP w. unfold chmod. cbn.
  destruct (on_chmod env _); [destruct (fs w !! p)|];
    now apply (only_events_cons P (EChmod p m)).
Qed.

Lemma only_dict_get d k : steps (only_events P) (dict_get d k).
Proof. unfold dict_get. destruct (d !! k); [apply steps_ret | apply steps_raise]; exact _. Qed.

End OnlyEvents.

(** *** The files of a run *)

#[global] Instance keeps_files_preorder Q : PreOrder (keeps_files Q).
Proof.
  split.
  - intros w p _. reflexivity.
  - intros w1 w2 w3 H12 H23 p Hp. now rewrite (H23 p Hp), (H12 p Hp).
Qed.

Lemma keeps_files_same Q w w' : fs w' = fs w -> keeps_files Q w w'.
Proof. intros H p _. now rewrite H. Qed.

Section KeepsFiles.

Variable Q : string -> Prop.
Variable env : Env.

Lemma keeps_print s : steps (keeps_files Q) (print s).
Proof. intros w. now apply keeps_files_same. Qed.

Lemma keeps_print_file_size n : steps (keeps_files Q) (print_file_size n).
Proof. intros w. now apply keeps_files_same. Qed.

Lemma keeps_print_progress a b : steps (keeps_files Q) (print_progress a b).
Proof. intros w. now apply keeps_files_same. Qed.

Lemma keeps_input p : steps (keeps_files Q) (input env p).
Proof. intros w. now apply keeps_files_same. Qed.

Lemma keeps_subprocess_run cmd t : steps (keeps_files Q) (subprocess_run env cmd t).
Proof. intros w. now apply keeps_files_same. Qed.

Lemma keeps_urlopen url t : steps (keeps_files Q) (urlopen env url t).
Proof. intros w. now apply keeps_files_same. Qed.

Lemma keeps_stat_mode p : steps (keeps_files Q) (stat_mode env p).
Proof.
  intros w. unfold stat_mode. cbn.
  destruct (on_stat env _); [destruct (fs w !! p)|]; now apply keeps_files_same.
Qed.

Lemma keeps_dict_get d k : steps (keeps_files Q) (dict_get d k).
Proof. unfold dict_get. destruct (d !! k); [apply steps_ret | apply steps_raise]; exact _. Qed.

Lemma keeps_open_wb p : Q p -> steps (keeps_files Q) (open_wb env p).
Proof.
  intros HQ w. unfold open_wb. cbn.
  destruct (on_open env _); [|now apply keeps_files_same].
  intros p' Hp'. cbn [snd fs]. apply lookup_insert_ne. congruence.
Qed.

Lemma keeps_write p c : Q p -> steps (keeps_files Q) (write env p c).
Proof.
  intros HQ w. unfold write. cbn.
  destruct (on_write env _); [|now apply keeps_files_same].
  intros p' Hp'. cbn [snd fs]. apply lookup_alter_ne. congruence.
Qed.

Lemma keeps_chmod p m : Q p -> steps (keeps_files Q) (chmod env p m).
Proof.
  intros HQ w. unfold chmod. cbn.
  destruct (on_chmod env _); [|now apply keeps_files_same].
  destruct (fs w !! p); [|now apply keeps_files_same].
  intros p' Hp'. cbn [snd fs]. apply lookup_insert_ne. congruence.
Qed.

Lemma keeps_rmtree d w :
  (forall p, String.prefix (tree_prefix d) p = true -> Q p) ->
  keeps_files Q w (rmtree d w).
Proof.
  intros HQ p Hp. unfold rmtree. cbn [fs].
  destruct (fs w !! p) as [f|] eqn:Hf.
  - apply map_lookup_filter_Some_2; [exact Hf|]. cbn [fst].
    destruct (String.prefix (tree_prefix d) p) eqn:Hpre; [|reflexivity].
    now contradiction Hp; apply HQ.
  - apply map_lookup_filter_None_2. now left.
Qed.

End KeepsFiles.

Ltac steps_with prim :=
  repeat first
    [ prim
    | apply steps_ret; exact _
    | apply steps_raise; exact _
    | apply steps_lift; exact _
    | apply steps_bind; [exact _ | | intros ?]
    | apply steps_try_except; [exact _ | |]
    | apply steps_or_return; [exact _ | | intros ?]
    | apply steps_read_loop; [exact _ | intros ? | intros ? ?]
    | progress cbv beta iota zeta
    | match goal with
      | |- Forall _ (_ :: _) => constructor; [intros ?; cbn [snd]|]
      | |- Forall _ [] => constructor
      | |- steps _ (if ?b then _ else _) => destruct b
      | |- steps _ (match ?x with _ => _ end) => destruct x
      end ].

Ltac only_prim :=
  first
    [ apply only_print | apply only_print_file_size | apply only_print_progress
    | apply only_input | apply only_subprocess_run | apply only_urlopen
    | apply only_open_wb | apply only_write | apply only_stat_mode
    | apply only_chmod | apply only_dict_get ].

Ltac keeps_prim :=
  first
    [ apply keeps_print | apply keeps_print_file_size | apply keeps_print_progress
    | apply keeps_input | apply keeps_subprocess_run | apply keeps_urlopen
    | apply keeps_stat_mode | apply keeps_dict_get
    | apply keeps_open_wb | apply keeps_write | apply keeps_chmod ].

(** *** The report: [nvidia-smi] queries and printing *)

Lemma report_only_allowed e : report_only e -> allowed_call e.
Proof.
  destruct e; cbn; try tauto. intros [[args ->] ->]. left. eauto.
Qed.

Ltac report_side := cbn; first [exact I | split; [eexists; reflexivity | reflexivity]].

Lemma report_check_nvidia_smi env : steps (only_events report_only) (check_nvidia_smi env).
Proof. unfold check_nvidia_smi. steps_with only_prim; report_side. Qed.

Lemma report_get_driver_version env :
  steps (only_events report_only) (get_driver_version env).
Proof. unfold get_driver_version. steps_with only_prim; report_side. Qed.

Lemma report_get_gpu_info env : steps (only_events report_only) (get_gpu_info env).
Proof. unfold get_gpu_info. steps_with only_prim; report_side. Qed.

Lemma report_print_gpu_info info : steps (only_events report_only) (print_gpu_info info).
Proof. unfold print_gpu_info. steps_with only_prim; report_side. Qed.

Lemma unchanged_get_driver_version env Q :
  steps (keeps_files Q) (get_driver_version env).
Proof. unfold get_driver_version. steps_with keeps_prim. Qed.

Lemma unchanged_check_nvidia_smi env Q :
  steps (keeps_files Q) (check_nvidia_smi env).
Proof. unfold check_nvidia_smi. steps_with keeps_prim. Qed.

Lemma unchanged_get_gpu_info env Q : steps (keeps_files Q) (get_gpu_info env).
Proof. unfold get_gpu_info. steps_with keeps_prim. Qed.

Lemma unchanged_print_gpu_info info Q : steps (keeps_files Q) (print_gpu_info info).
Proof. unfold print_gpu_info. steps_with keeps_prim. Qed.

Lemma unchanged_get_latest_driver_version env Q :
  steps (keeps_files Q) (get_latest_driver_version env).
Proof. unfold get_latest_driver_version. steps_with keeps_prim. Qed.

Lemma unchanged_install_driver env Q path :
  steps (keeps_files Q) (install_driver env path).
Proof. unfold install_driver. steps_with keeps_prim. Qed.

(** *** The download-then-install sequence *)

Ltac sequence_side := cbn; first [exact I | reflexivity | split; reflexivity].

Lemma sequence_download_driver env version d :
  steps (only_events (sequence_event version d))
    (download_driver env (get_download_url version)
       (path_join d (driver_filename version))).
Proof. unfold download_driver. steps_with only_prim; sequence_side. Qed.

Lemma sequence_install_driver env version d :
  steps (only_events (sequence_event version d))
    (install_driver env (path_join d (driver_filename version))).
Proof. unfold install_driver. steps_with only_prim; sequence_side. Qed.

Lemma sequence_download_and_install env version w :
  only_events (sequence_event version (on_mkdtemp env (log w))) w
    (snd (_download_and_install_driver env version w)).
Proof.
  unfold _download_and_install_driver, with_temporary_directory.
  set (d := on_mkdtemp env (log w)).
  match goal with |- context [?body (emit (EMkdtemp d) w)] =>
    assert (Hbody : steps (only_events (sequence_event version d)) body) end.
  { apply steps_bind; [exact _ | apply sequence_download_driver |].
    intros []; [apply sequence_install_driver|].
    steps_with only_prim; sequence_side. }
  specialize (Hbody (emit (EMkdtemp d) w)).
  cbv beta in Hbody |- *.
  match type of Hbody with
  | only_events _ _ (snd ?t) => destruct t as [r w1]
  end.
  cbn [snd] in *.
  transitivity (emit (EMkdtemp d) w).
  - now apply (only_events_cons _ (EMkdtemp d)).
  - etransitivity; [exact Hbody|]. now apply (only_events_cons _ (ERmtree d)).
Qed.

Lemma sequence_event_allowed version d e : sequence_event version d e -> allowed_call e.
Proof.
  destruct e; cbn; try tauto.
  - intros [-> ->]. right. eauto.
  - intros [-> ->]. right. eauto.
Qed.

(** *** The calls of the whole tool *)

Ltac allowed_side :=
  cbn; first [exact I | left; split; reflexivity | left; eexists; split; reflexivity].

Lemma allowed_report {A} (m : M A) :
  steps (only_events report_only) m -> steps (only_events allowed_call) m.
Proof.
  intros H w. eapply only_events_weaken; [apply report_only_allowed | apply H].
Qed.

Lemma allowed_download_and_install env version :
  steps (only_events allowed_call) (_download_and_install_driver env version).
Proof.
  intros w. eapply only_events_weaken; [apply sequence_event_allowed|].
  apply sequence_download_and_install.
Qed.

Lemma allowed_get_latest_driver_version env :
  steps (only_events allowed_call) (get_latest_driver_version env).
Proof. unfold get_latest_driver_version. steps_with only_prim; allowed_side. Qed.

Lemma allowed_install_fresh_driver env :
  steps (only_events allowed_call) (install_fresh_driver env).
Proof.
  unfold install_fresh_driver.
  steps_with ltac:(first [ apply allowed_get_latest_driver_version
                         | apply allowed_download_and_install | only_prim ]);
    allowed_side.
Qed.

Lemma allowed_check_for_updates env :
  steps (only_events allowed_call) (check_for_updates env).
Proof.
  unfold check_for_updates.
  steps_with ltac:(first [ apply allowed_get_latest_driver_version
                         | apply allowed_download_and_install
                         | apply allowed_report, report_get_driver_version
                         | only_prim ]);
    allowed_side.
Qed.

Lemma allowed_run_check env skip : steps (only_events allowed_call) (run_check env skip).
Proof.
  unfold run_check.
  steps_with ltac:(first [ apply allowed_install_fresh_driver
                         | apply allowed_check_for_updates
                         | apply allowed_report, report_check_nvidia_smi
                         | apply allowed_report, report_get_driver_version
                         | apply allowed_report, report_get_gpu_info
                         | apply allowed_report, report_print_gpu_info
                         | only_prim ]);
    allowed_side.
Qed.

(** *** The files of the whole tool *)

Lemma files_in_temporaries_mono es : forall dirs dirs',
  incl dirs dirs' -> files_in_temporaries dirs es -> files_in_temporaries dirs' es.
Proof.
  induction es as [|e es IH]; intros dirs dirs' Hincl H; [exact I|].
  destruct e; cbn [files_in_temporaries file_path] in *.
  1-10: destruct H as [Hp H]; (split; [|now apply (IH dirs)]).
  1-6: exact I.
  1-4: destruct Hp as (d & Hd & Hpre); exists d; auto.
  - apply (IH (dir :: dirs)); [|exact H].
    intros x [Hx|Hx]; [now left | right; now apply Hincl].
  - destruct H as [Hin H]. split; [now apply Hincl|].
    apply (IH (remove string_dec dir dirs)); [|exact H].
    intros x Hx. apply in_remove in Hx as [Hx Hne].
    apply in_in_remove; auto.
Qed.

Lemma files_in_temporaries_app es es' : forall dirs,
  files_in_temporaries dirs es -> files_in_temporaries [] es' ->
  files_in_temporaries dirs (es ++ es').
Proof.
  induction es as [|e es IH]; intros dirs H H'.
  - apply (files_in_temporaries_mono es' []); [apply incl_nil_l | exact H'].
  - destruct e; cbn [app files_in_temporaries] in *.
    1-10: destruct H as [Hp H]; (split; [exact Hp | now apply IH]).
    + now apply IH.
    + destruct H as [Hin H]. split; [exact Hin | now apply IH].
Qed.

#[global] Instance owns_files_preorder : PreOrder owns_files.
Proof.
  split.
  - intros w. now exists [].
  - intros w1 w2 w3 (es & Hes & HP) (es' & Hes' & HP'). exists (es ++ es').
    split; [|now apply files_in_temporaries_app].
    now rewrite Hes', Hes, rev_app_distr, app_assoc.
Qed.

Lemma files_in_temporaries_plain es dirs :
  Forall plain_event es -> files_in_temporaries dirs es.
Proof.
  induction 1 as [|e es He _ IH]; [exact I|].
  destruct e; cbn in He |- *; try contradiction; auto.
Qed.

(** Inside its directory the sequence works on a path below it, and
    the directory is still there afterwards. *)
Lemma files_in_temporaries_inside version d es tail dirs :
  In d dirs -> Forall (inside_event version d) es ->
  files_in_temporaries dirs tail -> files_in_temporaries dirs (es ++ tail).
Proof.
  intros Hd Hes Htail. induction Hes as [|e es He _ IH]; [exact Htail|].
  assert (Hbelow : String.prefix (tree_prefix d)
                     (path_join d (driver_filename version)) = true)
    by (apply (path_join_below _ "N"%char); discriminate).
  destruct e; cbn in He |- *; try contradiction;
    try (split; [exact I | exact IH]);
    subst path; (split; [eauto | exact IH]).
Qed.

Lemma owns_plain {A} (m : M A) :
  steps (only_events plain_event) m -> steps owns_files m.
Proof.
  intros H w. destruct (H w) as (es & Hes & HP). exists es.
  split; [exact Hes | now apply files_in_temporaries_plain].
Qed.

Ltac plain_prim := apply owns_plain; only_prim; exact I.

Ltac inside_side := cbn; first [exact I | reflexivity | split; reflexivity].

Lemma inside_download_driver env version d :
  steps (only_events (inside_event version d))
    (download_driver env (get_download_url version)
       (path_join d (driver_filename version))).
Proof. unfold download_driver. steps_with only_prim; inside_side. Qed.

Lemma inside_install_driver env version d :
  steps (only_events (inside_event version d))
    (install_driver env (path_join d (driver_filename version))).
Proof. unfold install_driver. steps_with only_prim; inside_side. Qed.

(** The whole sequence: the directory is created, the work is done
    inside it, the directory is removed. *)
Lemma owns_download_and_install env version :
  steps owns_files (_download_and_install_driver env version).
Proof.
  intros w. unfold _download_and_install_driver, with_temporary_directory.
  set (d := on_mkdtemp env (log w)).
  match goal with |- context [?body (emit (EMkdtemp d) w)] =>
    assert (Hbody : steps (only_events (inside_event version d)) body) end.
  { apply steps_bind; [exact _ | apply inside_download_driver |].
    intros []; [apply inside_install_driver|].
    steps_with only_prim; inside_side. }
  specialize (Hbody (emit (EMkdtemp d) w)).
  cbv beta in Hbody |- *.
  match type of Hbody with
  | only_events _ _ (snd ?t) => destruct t as [r w1]
  end.
  cbn [snd] in *. destruct Hbody as (es & Hes & Hinside).
  exists (EMkdtemp d :: es ++ [ERmtree d]). split.
  - cbn [rmtree log emit rev] in *. rewrite Hes, rev_app_distr. cbn [rev app].
    now rewrite <- app_assoc.
  - cbn [files_in_temporaries].
    apply (files_in_temporaries_inside version d); [now left | exact Hinside |].
    cbn. split; [now left | exact I].
Qed.

Lemma plain_check_nvidia_smi env : steps (only_events plain_event) (check_nvidia_smi env).
Proof. unfold check_nvidia_smi. steps_with only_prim; exact I. Qed.

Lemma plain_get_driver_version env :
  steps (only_events plain_event) (get_driver_version env).
Proof. unfold get_driver_version. steps_with only_prim; exact I. Qed.

Lemma plain_get_gpu_info env : steps (only_events plain_event) (get_gpu_info env).
Proof. unfold get_gpu_info. steps_with only_prim; exact I. Qed.

Lemma plain_print_gpu_info info : steps (only_events plain_event) (print_gpu_info info).
Proof. unfold print_gpu_info. steps_with only_prim; exact I. Qed.

Lemma plain_get_latest_driver_version env :
  steps (only_events plain_event) (get_latest_driver_version env).
Proof. unfold get_latest_driver_version. steps_with only_prim; exact I. Qed.

Lemma owns_install_fresh_driver env : steps owns_files (install_fresh_driver env).
Proof.
  unfold install_fresh_driver.
  steps_with ltac:(first [ apply owns_plain, plain_get_latest_driver_version
                         | apply owns_download_and_install | plain_prim ]).
Qed.

Lemma owns_check_for_updates env : steps owns_files (check_for_updates env).
Proof.
  unfold check_for_updates.
  steps_with ltac:(first [ apply owns_plain, plain_get_latest_driver_version
                         | apply owns_plain, plain_get_driver_version
                         | apply owns_download_and_install | plain_prim ]).
Qed.

Lemma owns_run_check env skip : steps owns_files (run_check env skip).
Proof.
  unfold run_check.
  steps_with ltac:(first [ apply owns_install_fresh_driver
                         | apply owns_check_for_updates
                         | apply owns_plain, plain_check_nvidia_smi
                         | apply owns_plain, plain_get_driver_version
                         | apply owns_plain, plain_get_gpu_info
                         | apply owns_plain, plain_print_gpu_info
                         | plain_prim ]).
Qed.

(** A file outside every temporary directory of the run, or a file in a
    directory that has been removed, does not pass. *)
Remark files_in_temporaries_is_strict :
  ~ files_in_temporaries [] [EOpen "/etc/driver.run"]
  /\ ~ files_in_temporaries []
         [EMkdtemp "/tmp/t"; ERmtree "/tmp/t"; EOpen "/tmp/t/driver.run"]
  /\ files_in_temporaries []
       [EMkdtemp "/tmp/t"; EOpen "/tmp/t/driver.run"; ERmtree "/tmp/t"].
Proof.
  split; [|split].
  - intros [(d & [] & _) _].
  - cbn. intros (_ & (d & Hd & _) & _).
    destruct (string_dec "/tmp/t" "/tmp/t") as [_|Hne]; [destruct Hd | now apply Hne].
  - cbn. split; [|split; [now left | exact I]].
    exists "/tmp/t". split; [now left | reflexivity].
Qed.

(** Property X12.  Whatever the environment does, the tool starts no
    program other than [nvidia-smi] (with a timeout of 5 seconds) and
    [sudo] with one argument (600 seconds), and opens no URL other than
    the version index (10 seconds) and the download URL of a driver
    version (300 seconds): every call to the outside has a timeout. *)
Theorem main_allowed_calls (env : Env) (skip_update_check : bool) (w : World) :
  only_events allowed_call w (snd (main env skip_update_check w)).
Proof.
  unfold main. pose proof (allowed_run_check env skip_update_check w) as H.
  now destruct (run_check env skip_update_check w) as [r w'].
Qed.

(** Property X13.  The tool works on files of its own only: in every
    run, however it ends, each file the tool opens, writes, inspects or
    makes executable lies below a temporary directory (its path begins
    with [os.path.join(d, '')] for the directory [d]) that this run has
    created before and not yet removed; and the tool removes no directory
    but one it has created in this run.  (What the programs it starts do,
    the installer under [sudo] among them, is their own affair.) *)
Theorem main_files_in_temporaries
  (env : Env) (skip_update_check : bool) (w : World) :
  owns_files w (snd (main env skip_update_check w)).
Proof.
  unfold main. pose proof (owns_run_check env skip_update_check w) as H.
  now destruct (run_check env skip_update_check w) as [r w'].
Qed.

(** Property X14.  With the update check skipped and [nvidia-smi]
    answering, [run_check] only prints and queries [nvidia-smi]: it opens
    no connection, asks nothing, and leaves every file as it was. *)
Theorem run_check_skip_reports_only
  (env : Env) (w : World) (result : CompletedProcess) :
  on_run env (log (emits (banner ++ [ERun ["nvidia-smi"; "--version"] 5]) w))
  = Ok result ->
  returncode result = 0 ->
  only_events report_only w (snd (run_check env true w))
  /\ fs (snd (run_check env true w)) = fs w.
Proof.
  intros Hrun Hcode.
  pose proof (run_check_unfold env true w) as Heq. cbv zeta in Heq.
  pose proof (check_nvidia_smi_unfold env (emits banner w)) as Hsmi.
  cbv zeta in Hsmi. rewrite <- emits_app, Hrun, Hcode in Hsmi.
  rewrite Hsmi in Heq. cbn [Z.eqb negb] in Heq. rewrite Heq. clear Heq Hsmi.
  match goal with |- context [snd (?m ?w1)] =>
    assert (Hev : steps (only_events report_only) m);
    [|assert (Hfs : steps (keeps_files (fun _ => False)) m)]
  end.
  - steps_with ltac:(first [ apply report_get_driver_version
                           | apply report_get_gpu_info
                           | apply report_print_gpu_info | only_prim ]);
      report_side.
  - steps_with ltac:(first [ apply unchanged_get_driver_version
                           | apply unchanged_get_gpu_info
                           | apply unchanged_print_gpu_info | keeps_prim ]).
  - split.
    + transitivity (emits (banner ++ [ERun ["nvidia-smi"; "--version"] 5]) w);
        [|apply Hev].
      eexists. split; [reflexivity|].
      repeat constructor; cbn; eauto.
    + apply map_eq. intros p.
      match goal with |- context [snd (?m ?w1)] => now rewrite (Hfs w1 p) end.
Qed.

Lemma run_check_skip_reports_only_witness :
  let result := {| returncode := 0; stdout := "NVIDIA-SMI 550.54.14" |} in
  on_run sample_env
    (log (emits (banner ++ [ERun ["nvidia-smi"; "--version"] 5]) empty_world))
  = Ok result
  /\ returncode result = 0
  /\ only_events report_only empty_world (snd (run_check sample_env true empty_world))
  /\ fs (snd (run_check sample_env true empty_world)) = fs empty_world.
Proof.
  cbv zeta.
  split; [reflexivity|]. split; [reflexivity|].
  exact (run_check_skip_reports_only sample_env empty_world
           {| returncode := 0; stdout := "NVIDIA-SMI 550.54.14" |} eq_refl eq_refl).
Defined.

(** Property X15.  The download-then-install sequence for a version
    works on one file: it fetches the installer of that version only,
    opens, writes and changes no file but the installer path inside the
    temporary directory it created, runs nothing but [sudo] on that same
    path, and removes that directory. *)
Theorem download_and_install_one_file (env : Env) (version : string) (w : World) :
  only_events (sequence_event version (on_mkdtemp env (log w))) w
    (snd (_download_and_install_driver env version w)).
Proof. apply sequence_download_and_install. Qed.

(** ** More on [install_driver] *)

Lemma install_driver_no_answer env driver_path w e :
  on_input env (log (emits (install_prompt driver_path) w)) = Raise e ->
  install_driver env driver_path w = (Raise e, emits (install_prompt driver_path) w).
Proof.
  intros Hin. unfold install_driver, bind, print, input.
  cbn in Hin |- *. now rewrite Hin.
Qed.

(** [install_driver] in full: the answer, then the installer. *)
Lemma install_driver_cases env driver_path w :
  let w0 := emits (install_prompt driver_path) w in
  let w1 := emits (install_prompt driver_path ++ install_launch driver_path) w in
  (exists e, on_input env (log w0) = Raise e
             /\ install_driver env driver_path w = (Raise e, w0))
  \/ (exists answer,
        on_input env (log w0) = Ok answer /\ lower (strip answer) <> "yes"
        /\ install_driver env driver_path w
           = (Ok false, emits [EPrint "Installation cancelled."] w0))
  \/ (exists answer,
        on_input env (log w0) = Ok answer /\ lower (strip answer) = "yes"
        /\ ((exists result,
               on_run env (log w1) = Ok result /\ returncode result = 0
               /\ fst (install_driver env driver_path w) = Ok true)
            \/ (exists result,
                  on_run env (log w1) = Ok result /\ returncode result <> 0
                  /\ fst (install_driver env driver_path w) = Ok false)
            \/ (exists e,
                  on_run env (log w1) = Raise e /\ isinstance e Exception = true
                  /\ fst (install_driver env driver_path w) = Ok false)
            \/ (exists e,
                  on_run env (log w1) = Raise e /\ isinstance e Exception = false
                  /\ install_driver env driver_path w = (Raise e, w1)))).
Proof.
  intros w0 w1.
  destruct (on_input env (log w0)) as [answer|e] eqn:Hin.
  - destruct (String.eqb_spec (lower (strip answer)) "yes") as [Hyes|Hno].
    + right. right. exists answer. split; [reflexivity|]. split; [exact Hyes|].
      pose proof (install_driver_confirmed env driver_path w answer Hin Hyes) as Heq.
      cbv zeta in Heq. fold w1 in Heq. rewrite Heq.
      destruct (on_run env (log w1)) as [result|e].
      * destruct (Z.eqb_spec (returncode result) 0); [left | right; left]; eauto.
      * right. right.
        assert (Htime : isinstance e TimeoutExpired = true -> isinstance e Exception = true).
        { unfold isinstance. destruct (exn_cls e); cbn; congruence. }
        destruct (isinstance e TimeoutExpired) eqn:Ht.
        -- left. exists e. auto.
        -- destruct (isinstance e Exception) eqn:Hex; [left | right]; eauto.
    + right. left. exists answer. split; [reflexivity|]. split; [exact Hno|].
      rewrite (install_driver_cancelled env driver_path w answer Hin Hno).
      now rewrite emits_app.
  - left. exists e. split; [reflexivity|]. now apply install_driver_no_answer.
Qed.

(** Property X16.  When the call of the installer raises (no [sudo], no
    permission, a timeout), [install_driver] prints what went wrong and
    returns [False]: every [Exception] is handled, the timeout with its
    own message.  Only an exception that is not an [Exception], such as
    an interrupt from the keyboard, leaves the function. *)
Theorem install_driver_installer_raises
  (env : Env) (driver_path : string) (w : World) (answer : string) (e : exn) :
  let w1 := emits (install_prompt driver_path ++ install_launch driver_path) w in
  on_input env (log (emits (install_prompt driver_path) w)) = Ok answer ->
  lower (strip answer) = "yes" ->
  on_run env (log w1) = Raise e ->
  install_driver env driver_path w =
    if isinstance e Exception then
      (Ok false,
       emits [EPrint (if isinstance e TimeoutExpired
                      then "❌ Installation timed out"
                      else "❌ Installation error: " +:+ exn_msg e)] w1)
    else (Raise e, w1).
Proof.
  intros w1 Hin Hyes Hrun.
  pose proof (install_driver_confirmed env driver_path w answer Hin Hyes) as Heq.
  cbv zeta in Heq. fold w1 in Heq. rewrite Heq, Hrun.
  assert (Htime : isinstance e TimeoutExpired = true -> isinstance e Exception = true).
  { unfold isinstance. destruct (exn_cls e); cbn; congruence. }
  destruct (isinstance e TimeoutExpired); [now rewrite Htime|].
  reflexivity.
Qed.

Lemma install_driver_installer_raises_witness :
  let env := scripted_env ["yes"] (completed 0 "580.105.08")
               (Raise (Exn FileNotFoundError
                         "[Errno 2] No such file or directory: 'sudo'"))
               (serves None "580.110.00") (serves (Some "3") "abc") in
  let w1 := emits (install_prompt "/tmp/d.run" ++ install_launch "/tmp/d.run")
              empty_world in
  install_driver env "/tmp/d.run" empty_world
  = (Ok false,
     emits [EPrint "❌ Installation error: [Errno 2] No such file or directory: 'sudo'"]
       w1).
Proof.
  cbv zeta.
  exact (install_driver_installer_raises
           (scripted_env ["yes"] (completed 0 "580.105.08")
              (Raise (Exn FileNotFoundError
                        "[Errno 2] No such file or directory: 'sudo'"))
              (serves None "580.110.00") (serves (Some "3") "abc"))
           "/tmp/d.run" empty_world "yes"
           (Exn FileNotFoundError "[Errno 2] No such file or directory: 'sudo'")
           eq_refl eq_refl eq_refl).
Defined.

Lemma install_driver_true env driver_path w w' :
  install_driver env driver_path w = (Ok true, w') ->
  exists answer result,
    on_input env (log (emits (install_prompt driver_path) w)) = Ok answer
    /\ affirmative answer
    /\ on_run env
         (log (emits (install_prompt driver_path ++ install_launch driver_path) w))
       = Ok result
    /\ returncode result = 0.
Proof.
  intros H.
  destruct (install_driver_cases env driver_path w)
    as [(e0 & Hin & Heq) | [(answer & Hin & Hno & Heq) | (answer & Hin & Hyes & Hrun)]].
  - rewrite Heq in H. discriminate.
  - rewrite Heq in H. discriminate.
  - destruct Hrun as [(result & Hres & Hcode & Hfst) | [(result & Hres & Hcode & Hfst)
                     | [(e0 & Hres & Hex & Hfst) | (e0 & Hres & Hex & Heq)]]].
    + exists answer, result. rewrite <- affirmative_iff. auto.
    + rewrite H in Hfst. discriminate.
    + rewrite H in Hfst. discriminate.
    + rewrite Heq in H. discriminate.
Qed.

Lemma install_driver_raise env driver_path w e w' :
  install_driver env driver_path w = (Raise e, w') ->
  on_input env (log (emits (install_prompt driver_path) w)) = Raise e
  \/ (on_run env
        (log (emits (install_prompt driver_path ++ install_launch driver_path) w))
      = Raise e
      /\ isinstance e Exception = false).
Proof.
  intros H.
  destruct (install_driver_cases env driver_path w)
    as [(e0 & Hin & Heq) | [(answer & Hin & Hno & Heq) | (answer & Hin & Hyes & Hrun)]].
  - rewrite Heq in H. injection H as <- _. now left.
  - rewrite Heq in H. discriminate.
  - destruct Hrun as [(result & Hres & Hcode & Hfst) | [(result & Hres & Hcode & Hfst)
                     | [(e0 & Hres & Hex & Hfst) | (e0 & Hres & Hex & Heq)]]].
    + rewrite H in Hfst. discriminate.
    + rewrite H in Hfst. discriminate.
    + rewrite H in Hfst. discriminate.
    + rewrite Heq in H. injection H as <- _. now right.
Qed.

(** Property X17.  [install_driver] returns [True] only when the user
    gave an affirmative answer and the installer, run with [sudo], ended
    with code 0; and it raises only what [input()] raised or what the
    installer call raised that is not an [Exception]. *)
Theorem install_driver_true_only_if
  (env : Env) (driver_path : string) (w : World) :
  let w0 := emits (install_prompt driver_path) w in
  let w1 := emits (install_prompt driver_path ++ install_launch driver_path) w in
  (forall w',
      install_driver env driver_path w = (Ok true, w') ->
      exists answer result,
        on_input env (log w0) = Ok answer /\ affirmative answer
        /\ on_run env (log w1) = Ok result /\ returncode result = 0)
  /\ (forall e w',
         install_driver env driver_path w = (Raise e, w') ->
         on_input env (log w0) = Raise e
         \/ (on_run env (log w1) = Raise e /\ isinstance e Exception = false)).
Proof.
  intros w0 w1. split.
  - intros w'. apply install_driver_true.
  - intros e w'. apply install_driver_raise.
Qed.

Lemma install_driver_true_only_if_witness :
  let env := scripted_env [" Yes "] (completed 0 "580.105.08") (completed 0 "")
               (serves None "580.110.00") (serves (Some "3") "abc") in
  let w0 := emits (install_prompt "/tmp/d.run") empty_world in
  let w1 := emits (install_prompt "/tmp/d.run" ++ install_launch "/tmp/d.run")
              empty_world in
  fst (install_driver env "/tmp/d.run" empty_world) = Ok true
  /\ exists answer result,
       on_input env (log w0) = Ok answer /\ affirmative answer
       /\ on_run env (log w1) = Ok result /\ returncode result = 0.
Proof.
  cbv zeta.
  destruct (install_driver
              (scripted_env [" Yes "] (completed 0 "580.105.08") (completed 0 "")
                 (serves None "580.110.00") (serves (Some "3") "abc"))
              "/tmp/d.run" empty_world) as [r w'] eqn:Hrun.
  assert (Hr : r = Ok true).
  { change r with (fst (r, w')). rewrite <- Hrun. vm_compute. reflexivity. }
  subst r. split; [reflexivity|].
  exact (proj1 (install_driver_true_only_if _ _ _) w' Hrun).
Defined.

(** ** More on the download-then-install sequence *)

Lemma sequence_true env version w w' :
  _download_and_install_driver env version w = (Ok true, w') ->
  let d := on_mkdtemp env (log w) in
  let path := sequence_path env version w in
  exists w1 answer result,
    download_driver env (get_download_url version) path (emit (EMkdtemp d) w)
    = (Ok true, w1)
    /\ on_input env (log (emits (install_prompt path) w1)) = Ok answer
    /\ affirmative answer
    /\ on_run env (log (emits (install_prompt path ++ install_launch path) w1))
       = Ok result
    /\ returncode result = 0.
Proof.
  intros Hrun d path.
  pose proof (download_and_install_unfold env version w) as Heq.
  cbv zeta in Heq. fold d in Heq.
  change (path_join d ("NVIDIA-Linux-x86_64-" +:+ version +:+ ".run")) with path in Heq.
  rewrite Heq in Hrun. clear Heq.
  destruct (download_driver env _ path _) as [[[]|e] w1]; try discriminate.
  destruct (install_driver env path w1) as [r w2] eqn:Hinst.
  injection Hrun as -> _.
  destruct (install_driver_true env path w1 w2 Hinst)
    as (answer & result & Hin & Hyes & Hres & Hcode).
  exists w1, answer, result. auto.
Qed.

(** Property X18.  The download-then-install sequence returns [True]
    only when the download returned [True], the user then gave an
    affirmative answer to the installer's prompt, and the installer, run
    with [sudo] on the downloaded file, ended with code 0. *)
Theorem download_and_install_true_only_if
  (env : Env) (version : string) (w w' : World) :
  _download_and_install_driver env version w = (Ok true, w') ->
  let d := on_mkdtemp env (log w) in
  let path := sequence_path env version w in
  exists w1 answer result,
    download_driver env (get_download_url version) path (emit (EMkdtemp d) w)
    = (Ok true, w1)
    /\ on_input env (log (emits (install_prompt path) w1)) = Ok answer
    /\ affirmative answer
    /\ on_run env (log (emits (install_prompt path ++ install_launch path) w1))
       = Ok result
    /\ returncode result = 0.
Proof. apply sequence_true. Qed.

Lemma download_and_install_true_only_if_witness :
  let env := scripted_env ["YES"] (completed 0 "580.105.08") (completed 0 "")
               (serves None "580.110.00") (serves (Some "3") "abc") in
  let path := sequence_path env "580.110.00" empty_world in
  fst (_download_and_install_driver env "580.110.00" empty_world) = Ok true
  /\ exists w1 answer result,
       download_driver env (get_download_url "580.110.00") path
         (emit (EMkdtemp "/tmp/tmpdir") empty_world) = (Ok true, w1)
       /\ on_input env (log (emits (install_prompt path) w1)) = Ok answer
       /\ affirmative answer
       /\ on_run env (log (emits (install_prompt path ++ install_launch path) w1))
          = Ok result
       /\ returncode result = 0.
Proof.
  cbv zeta.
  destruct (_download_and_install_driver
              (scripted_env ["YES"] (completed 0 "580.105.08") (completed 0 "")
                 (serves None "580.110.00") (serves (Some "3") "abc"))
              "580.110.00" empty_world) as [r w'] eqn:Hrun.
  assert (Hr : r = Ok true).
  { change r with (fst (r, w')). rewrite <- Hrun. vm_compute. reflexivity. }
  subst r. split; [reflexivity|].
  exact (download_and_install_true_only_if _ _ _ _ Hrun).
Defined.

(** ** More on [install_fresh_driver] *)

Lemma install_fresh_driver_known env w latest w2 :
  get_latest_driver_version env (emits fresh_notice w) = (Ok (Some latest), w2) ->
  install_fresh_driver env w =
    let w4 := emits (fresh_offer latest) w2 in
    match on_input env (log w4) with
    | Raise e => (Raise e, w4)
    | Ok answer =>
        if (lower (strip answer) =? "yes")%string
        then _download_and_install_driver env latest w4
        else (Ok false, emits fresh_cancelled w4)
    end.
Proof.
  intros Hlat.
  destruct (get_latest_driver_version_some _ _ _ _ Hlat) as [Hne _].
  unfold install_fresh_driver.
  unfold bind at 1 2 3. unfold print at 1 2.
  change (emit (EPrint "🔍 Fetching latest NVIDIA driver version...")
            (emit (EPrint "") w))
    with (emits fresh_notice w).
  rewrite Hlat. destruct latest as [|c latest']; [congruence|].
  unfold bind at 1 2 3. unfold print at 1 2. unfold input. cbn [emit log fs].
  cbv zeta.
  match goal with
  | |- match on_input env ?l with _ => _ end = _ =>
      change l with (log (emits (fresh_offer (String c latest')) w2))
  end.
  destruct (on_input env _) as [answer|e]; [|reflexivity].
  destruct (lower (strip answer) =? "yes")%string; reflexivity.
Qed.

(** Property X19.  A fresh installation needs two confirmations:
    [install_fresh_driver] returns [True] only when the latest version
    was resolved, the user accepted the offer, and the
    download-then-install sequence returned [True], which in turn takes
    an affirmative answer to the installer's own prompt and an installer
    that ends with code 0. *)
Theorem install_fresh_driver_true_only_if (env : Env) (w w' : World) :
  install_fresh_driver env w = (Ok true, w') ->
  exists latest w2 answer,
    get_latest_driver_version env (emits fresh_notice w) = (Ok (Some latest), w2)
    /\ on_input env (log (emits (fresh_offer latest) w2)) = Ok answer
    /\ affirmative answer
    /\ let w4 := emits (fresh_offer latest) w2 in
       let path := sequence_path env latest w4 in
       _download_and_install_driver env latest w4 = (Ok true, w')
       /\ exists w5 answer' result,
            on_input env (log (emits (install_prompt path) w5)) = Ok answer'
            /\ affirmative answer'
            /\ on_run env (log (emits (install_prompt path ++ install_launch path) w5))
               = Ok result
            /\ returncode result = 0.
Proof.
  intros Hrun.
  destruct (get_latest_driver_version env (emits fresh_notice w))
    as [[[latest|]|e] w2] eqn:Hlat.
  - rewrite (install_fresh_driver_known env w latest w2 Hlat) in Hrun.
    cbv zeta in Hrun.
    destruct (on_input env _) as [answer|e] eqn:Hin; [|discriminate].
    destruct (String.eqb_spec (lower (strip answer)) "yes") as [Hyes|]; [|discriminate].
    exists latest, w2, answer. split; [reflexivity|]. split; [exact Hin|].
    split; [now apply affirmative_iff|]. cbv zeta. split; [exact Hrun|].
    destruct (sequence_true env latest _ w' Hrun)
      as (w5 & answer' & result & _ & Hin' & Hyes' & Hres & Hcode).
    exists w5, answer', result. auto.
  - rewrite (install_fresh_driver_unknown_latest env w w2 Hlat) in Hrun. discriminate.
  - exfalso. unfold install_fresh_driver in Hrun.
    unfold bind at 1 2 3 in Hrun. unfold print at 1 2 in Hrun.
    change (emit (EPrint "🔍 Fetching latest NVIDIA driver version...")
              (emit (EPrint "") w))
      with (emits fresh_notice w) in Hrun.
    rewrite Hlat in Hrun. discriminate.
Qed.

Lemma install_fresh_driver_true_only_if_witness :
  let env := scripted_env ["yes"; "yes"] (Raise (Exn FileNotFoundError "nvidia-smi"))
               (completed 0 "") (serves None "580.110.00") (serves (Some "3") "abc") in
  fst (install_fresh_driver env empty_world) = Ok true
  /\ exists latest w2 answer,
       get_latest_driver_version env (emits fresh_notice empty_world)
       = (Ok (Some latest), w2)
       /\ on_input env (log (emits (fresh_offer latest) w2)) = Ok answer
       /\ affirmative answer.
Proof.
  cbv zeta.
  destruct (install_fresh_driver
              (scripted_env ["yes"; "yes"] (Raise (Exn FileNotFoundError "nvidia-smi"))
                 (completed 0 "") (serves None "580.110.00") (serves (Some "3") "abc"))
              empty_world) as [r w'] eqn:Hrun.
  assert (Hr : r = Ok true).
  { change r with (fst (r, w')). rewrite <- Hrun. vm_compute. reflexivity. }
  subst r. split; [reflexivity|].
  destruct (install_fresh_driver_true_only_if _ _ _ Hrun)
    as (latest & w2 & answer & Hlat & Hin & Hyes & _).
  exists latest, w2, answer. auto.
Defined.

(** Property X20.  When the offer of [install_fresh_driver] is not
    accepted, the function prints where to find the driver and returns
    [False]; all it has done is to print, fetch the version index and ask
    once: no temporary directory, no download, no installer. *)
Theorem install_fresh_driver_declined
  (env : Env) (w w2 : World) (latest answer : string) :
  get_latest_driver_version env (emits fresh_notice w) = (Ok (Some latest), w2) ->
  on_input env (log (emits (fresh_offer latest) w2)) = Ok answer ->
  ~ affirmative answer ->
  install_fresh_driver env w
  = (Ok false,
     emits (fresh_notice ++ [EUrlopen NVIDIA_LINUX_LATEST_URL 10]
            ++ fresh_offer latest ++ fresh_cancelled) w).
Proof.
  intros Hlat Hin Hno.
  rewrite (install_fresh_driver_known env w latest w2 Hlat). cbv zeta.
  rewrite Hin.
  destruct (String.eqb_spec (lower (strip answer)) "yes") as [Hyes|_].
  - now apply affirmative_iff in Hyes.
  - destruct (get_latest_driver_version_some _ _ _ _ Hlat) as [_ ->].
    now rewrite !emits_app.
Qed.

Lemma install_fresh_driver_declined_witness :
  let env := scripted_env ["y"] (Raise (Exn FileNotFoundError "nvidia-smi"))
               (completed 0 "") (serves None "580.110.00") (serves (Some "3") "abc") in
  let w2 := emits (fresh_notice ++ [EUrlopen NVIDIA_LINUX_LATEST_URL 10]) empty_world in
  get_latest_driver_version env (emits fresh_notice empty_world)
  = (Ok (Some "580.110.00"), w2)
  /\ on_input env (log (emits (fresh_offer "580.110.00") w2)) = Ok "y"
  /\ ~ affirmative "y"
  /\ install_fresh_driver env empty_world
     = (Ok false,
        emits (fresh_notice ++ [EUrlopen NVIDIA_LINUX_LATEST_URL 10]
               ++ fresh_offer "580.110.00" ++ fresh_cancelled) empty_world).
Proof.
  cbv zeta.
  set (env := scripted_env ["y"] (Raise (Exn FileNotFoundError "nvidia-smi"))
                (completed 0 "") (serves None "580.110.00") (serves (Some "3") "abc")).
  assert (H1 : get_latest_driver_version env (emits fresh_notice empty_world)
               = (Ok (Some "580.110.00"),
                  emits (fresh_notice ++ [EUrlopen NVIDIA_LINUX_LATEST_URL 10])
                    empty_world))
    by (vm_compute; reflexivity).
  assert (H2 : on_input env
                 (log (emits (fresh_offer "580.110.00")
                         (emits (fresh_notice ++ [EUrlopen NVIDIA_LINUX_LATEST_URL 10])
                            empty_world))) = Ok "y") by reflexivity.
  assert (H3 : ~ affirmative "y").
  { intros H. apply affirmative_iff in H. vm_compute in H. discriminate H. }
  split; [exact H1|]. split; [exact H2|]. split; [exact H3|].
  exact (install_fresh_driver_declined env empty_world _ "580.110.00" "y" H1 H2 H3).
Defined.

(** ** More on [download_driver] *)

Lemma py_int_value_error lim s e : py_int lim s = Raise e -> exn_cls e = ValueError.
Proof.
  unfold py_int. destruct (split_sign _) as [negative unsigned].
  destruct (scan_digits false unsigned) as [[ds rest]|]; [|now injection 1 as <-].
  destruct (skip_int_space rest); [|now injection 1 as <-].
  destruct (over_digit_limit lim _); [now injection 1 as <- | discriminate].
Qed.

Lemma announced_size_value_error env response e :
  announced_size env response = Raise e -> isinstance e Exception = true.
Proof.
  unfold announced_size. destruct (resp_content_length response) as [[|c s]|];
    try discriminate.
  destruct (py_int _ _) as [n|e'] eqn:Hint; [discriminate|].
  cbn. injection 1 as <-. apply py_int_value_error in Hint.
  unfold isinstance. now rewrite Hint.
Qed.

(** [download_driver] up to the point where the file is opened. *)
Lemma download_driver_unfold env url dest w :
  let w0 := emits (download_start url) w in
  download_driver env url dest w =
    match on_urlopen env (log w0) with
    | Raise e =>
        if isinstance e Exception
        then (Ok false, emits [download_failed e] w0)
        else (Raise e, w0)
    | Ok response =>
        match announced_size env response with
        | Raise e => (Ok false, emits [download_failed e] w0)
        | Ok file_size =>
            try_except
              (open_wb env dest ;;
               read_loop env dest file_size response 0 ;;
               print "" ;;
               print ("✅ Downloaded to: " +:+ dest) ;;
               mode <- stat_mode env dest ;;
               chmod env dest (Z.lor (Z.lor (Z.lor mode S_IXUSR) S_IXGRP) S_IXOTH) ;;
               ret true)
              [([URLError; Exception],
                fun e => print ("❌ Download failed: " +:+ exn_msg e) ;; ret false)]
              (after_header file_size w0)
        end
    end.
Proof.
  intros w0. unfold download_driver, try_except.
  unfold bind at 1 2 3 4. unfold print at 1 2 3. unfold urlopen.
  cbn [emit log fs].
  change (EUrlopen url 300 :: EPrint "This may take several minutes..."
          :: EPrint ("URL: " +:+ url) :: EPrint "📥 Downloading driver..." :: log w)
    with (log w0).
  change {| log := log w0; fs := fs w |} with w0.
  destruct (on_urlopen env (log w0)) as [response|e].
  - pose proof (announced_size_value_error env response) as Hval.
    unfold announced_size in *. unfold bind at 1.
    destruct (resp_content_length response) as [[|c s]|]; try reflexivity.
    unfold bind at 1 2. unfold lift, print_file_size.
    destruct (py_int (int_max_str_digits env) (String c s)) as [n|e]; [reflexivity|].
    cbn [result_bind dispatch] in *. rewrite caught_as_exception, (Hval e eq_refl).
    reflexivity.
  - cbn [dispatch]. rewrite caught_as_exception.
    destruct (isinstance e Exception); reflexivity.
Qed.

Lemma after_header_fs file_size w : fs (after_header file_size w) = fs w.
Proof. now destruct file_size. Qed.

(** A run of [download_driver] that returns [True], from the opening of
    the file on. *)
Lemma store_body_true env dest fsz resp wa w' :
  try_except
    (open_wb env dest ;;
     read_loop env dest fsz resp 0 ;;
     print "" ;;
     print ("✅ Downloaded to: " +:+ dest) ;;
     mode <- stat_mode env dest ;;
     chmod env dest (Z.lor (Z.lor (Z.lor mode S_IXUSR) S_IXGRP) S_IXOTH) ;;
     ret true)
    [([URLError; Exception],
      fun e => print ("❌ Download failed: " +:+ exn_msg e) ;; ret false)]
    wa = (Ok true, w') ->
  resp_fault resp = None
  /\ exists cs mode,
       chunked chunk_size (resp_pending resp) cs
       /\ log w' = rev (EOpen dest
                        :: loop_events dest fsz 0 cs
                        ++ [EPrint ""; EPrint ("✅ Downloaded to: " +:+ dest);
                            EStat dest; EChmod dest mode]) ++ log wa
       /\ fs w' !! dest = Some {| f_data := resp_pending resp; f_mode := mode |}
       /\ mode = Z.lor (Z.lor (Z.lor (mode_after_open env wa dest) S_IXUSR) S_IXGRP) S_IXOTH
       /\ (forall p, p <> dest -> fs w' !! p = fs wa !! p).
Proof.
  intros Hrun. unfold try_except in Hrun.
  unfold bind at 1 in Hrun. unfold open_wb in Hrun. cbn [emit log fs] in Hrun.
  destruct (on_open env _) as [[]|e]; [|handler_case Hrun].
  fold (mode_after_open env wa dest) in Hrun.
  unfold bind at 1 in Hrun.
  match type of Hrun with
  | context [read_loop env dest fsz resp 0 ?w0] =>
      destruct (read_loop env dest fsz resp 0 w0) as [[[]|e] w2] eqn:Hloop;
      [|handler_case Hrun]
  end.
  apply (read_loop_done env dest fsz _ resp 0 _ w2 (Nat.le_refl _)) in Hloop.
  destruct Hloop as (Hfault & cs & Hcs & Hlog & Hdest & Hother).
  cbn [log fs] in Hlog, Hdest, Hother.
  specialize (Hdest _ (lookup_insert_eq _ _ _)). cbn [f_data f_mode app] in Hdest.
  unfold bind at 1 2 3 in Hrun. unfold print at 1 2 in Hrun.
  unfold stat_mode in Hrun. cbn [emit log fs] in Hrun.
  destruct (on_stat env _) as [[]|e]; [|handler_case Hrun].
  rewrite Hdest in Hrun. cbn [f_mode] in Hrun.
  unfold bind, chmod, ret in Hrun. cbn [emit log fs] in Hrun.
  destruct (on_chmod env _) as [[]|e]; [|handler_case Hrun].
  rewrite Hdest in Hrun. cbn [f_data] in Hrun. injection Hrun as <-.
  split; [exact Hfault|]. exists cs. eexists. split; [exact Hcs|].
  cbn [log fs]. split; [|split; [|split; [reflexivity|]]].
  - rewrite Hlog. cbn [rev]. rewrite !rev_app_distr. cbn [rev app].
    rewrite <- !app_assoc. reflexivity.
  - now rewrite lookup_insert_eq.
  - intros p Hp. rewrite lookup_insert_ne by congruence.
    rewrite (Hother p Hp). now rewrite lookup_insert_ne by congruence.
Qed.

(** Property X21.  What a successful download leaves behind does not
    depend on the size the server announced: whenever [download_driver]
    returns [True] the connection ended cleanly and the destination file
    holds exactly the bytes received, executable by all, whether
    [Content-Length] was missing, or matched, or did not match; the header
    is used for the progress display and never compared with what
    arrived.  No other file is changed. *)
Theorem download_driver_stores_body
  (env : Env) (url dest_path : string) (w w' : World) (response : Response) :
  on_urlopen env (log (emits (download_start url) w)) = Ok response ->
  download_driver env url dest_path w = (Ok true, w') ->
  resp_fault response = None
  /\ (exists file_size, announced_size env response = Ok file_size)
  /\ (exists mode,
        fs w' !! dest_path
        = Some {| f_data := resp_pending response; f_mode := mode |}
        /\ executable_by_all mode)
  /\ (forall p, p <> dest_path -> fs w' !! p = fs w !! p).
Proof.
  intros Hopen Hrun. rewrite download_driver_unfold in Hrun. cbv zeta in Hrun.
  rewrite Hopen in Hrun.
  destruct (announced_size env response) as [file_size|e]; [|discriminate].
  apply store_body_true in Hrun
    as (Hfault & cs & mode & _ & _ & Hfile & Hmode & Hother).
  split; [exact Hfault|]. split; [eauto|]. split.
  - exists mode. split; [exact Hfile|]. rewrite Hmode. apply executable_after_chmod.
  - intros p Hp. rewrite (Hother p Hp), after_header_fs. reflexivity.
Qed.

Lemma download_driver_stores_body_witness :
  let env := scripted_env [] (completed 0 "580.105.08") (completed 0 "")
               (serves None "580.110.00") (serves (Some "1000000") "abc") in
  let response := {| resp_content_length := Some "1000000";
                     resp_pending := list_byte_of_string "abc";
                     resp_fault := None |} in
  on_urlopen env (log (emits (download_start "http://host/d.run") empty_world))
  = Ok response
  /\ fst (download_driver env "http://host/d.run" "/tmp/d.run" empty_world) = Ok true
  /\ exists mode,
       fs (snd (download_driver env "http://host/d.run" "/tmp/d.run" empty_world))
         !! "/tmp/d.run"
       = Some {| f_data := list_byte_of_string "abc"; f_mode := mode |}
       /\ executable_by_all mode.
Proof.
  cbv zeta.
  set (env := scripted_env [] (completed 0 "580.105.08") (completed 0 "")
                (serves None "580.110.00") (serves (Some "1000000") "abc")).
  destruct (download_driver env "http://host/d.run" "/tmp/d.run" empty_world)
    as [r w'] eqn:Hrun.
  assert (Hr : r = Ok true).
  { change r with (fst (r, w')). rewrite <- Hrun. vm_compute. reflexivity. }
  subst r. split; [reflexivity|]. split; [reflexivity|].
  exact (proj1 (proj2 (proj2
           (download_driver_stores_body env "http://host/d.run" "/tmp/d.run"
              empty_world w' _ eq_refl Hrun)))).
Defined.






(** ** More on [get_latest_driver_version] and [run_check] *)

(** Property X24.  A version resolved by [get_latest_driver_version] is
    a word: it is not empty and holds no white space.  Resolving it took
    one request to the index, with a timeout of 10 seconds, and printed
    nothing. *)
Theorem get_latest_driver_version_word
  (env : Env) (w w' : World) (latest : string) :
  get_latest_driver_version env w = (Ok (Some latest), w') ->
  latest <> EmptyString
  /\ str_forallb (fun c => negb (is_space c)) latest = true
  /\ w' = emits [EUrlopen NVIDIA_LINUX_LATEST_URL 10] w.
Proof.
  intros Hrun.
  destruct (get_latest_driver_version_some env w latest w' Hrun) as [Hne Hw].
  split; [exact Hne|]. split; [|exact Hw].
  rewrite get_latest_driver_version_unfold in Hrun. cbv zeta in Hrun.
  destruct (fetched_text env _) as [text|e].
  - injection Hrun as Hhd _.
    pose proof (runs_shape (fun c => negb (is_space c)) (strip text)) as Hshape.
    fold (split_ws (strip text)) in Hshape.
    destruct (split_ws (strip text)) as [|first rest]; [discriminate|].
    injection Hhd as <-. now inversion Hshape as [|? ? [_ Hword] _].
  - destruct (isinstance e Exception); discriminate.
Qed.

Lemma get_latest_driver_version_word_witness :
  let env := scripted_env [] (completed 0 "580.105.08") (completed 0 "")
               (serves None (" 580.110.00 beta" +:+ NL)) (serves None "") in
  get_latest_driver_version env empty_world
  = (Ok (Some "580.110.00"), emits [EUrlopen NVIDIA_LINUX_LATEST_URL 10] empty_world)
  /\ str_forallb (fun c => negb (is_space c)) "580.110.00" = true.
Proof.
  cbv zeta.
  assert (H : get_latest_driver_version
                (scripted_env [] (completed 0 "580.105.08") (completed 0 "")
                   (serves None (" 580.110.00 beta" +:+ NL)) (serves None ""))
                empty_world
              = (Ok (Some "580.110.00"),
                 emits [EUrlopen NVIDIA_LINUX_LATEST_URL 10] empty_world))
    by (vm_compute; reflexivity).
  split; [exact H|].
  exact (proj1 (proj2 (get_latest_driver_version_word _ _ _ _ H))).
Defined.

(** Property X25.  The option to skip the update check matters only
    when a driver is found: when [check_nvidia_smi] does not answer
    [True], [run_check] does the same with and without it, the offer to
    install included. *)
Theorem run_check_skip_needs_driver (env : Env) (w : World) :
  fst (check_nvidia_smi env (emits banner w)) <> Ok true ->
  run_check env true w = run_check env false w.
Proof.
  intros Hsmi. rewrite !run_check_unfold. cbv zeta.
  destruct (check_nvidia_smi env (emits banner w)) as [[[]|e] w1];
    [now contradiction Hsmi | reflexivity | reflexivity].
Qed.

Lemma run_check_skip_needs_driver_witness :
  let env := scripted_env ["no"] (Raise (Exn FileNotFoundError "nvidia-smi"))
               (completed 0 "") (serves None "580.110.00") (serves (Some "3") "abc") in
  fst (check_nvidia_smi env (emits banner empty_world)) = Ok false
  /\ run_check env true empty_world = run_check env false empty_world.
Proof.
  cbv zeta.
  set (env := scripted_env ["no"] (Raise (Exn FileNotFoundError "nvidia-smi"))
                (completed 0 "") (serves None "580.110.00") (serves (Some "3") "abc")).
  assert (H : fst (check_nvidia_smi env (emits banner empty_world)) = Ok false)
    by (vm_compute; reflexivity).
  split; [exact H|].
  apply (run_check_skip_needs_driver env empty_world).
  rewrite H. discriminate.
Defined.
